(** * f5_tts_mlx/dit.py: the DiT backbone of F5-TTS (MLX port)

    A shallow embedding of [src/f5_tts_mlx/dit.py].  Arrays carry their
    shape next to their data, the way an [mx.array] does; every MLX
    operation that raises on a bad shape returns a [result]; the
    collaborators imported from [f5_tts_mlx.modules] (attention,
    feed-forward, timestep embedding, ...) are callables held in the
    fields of the module objects, as in the Python object graph. *)

From Stdlib Require Import List ZArith Lia Bool QArith.
Import ListNotations.
Open Scope Z_scope.

Set Implicit Arguments.

(** ** Exceptions and the error monad *)

(** The exceptions construction and the forward pass can meet.  The first
    five are [ValueError]s raised by MLX itself. *)
Inductive exn : Type :=
| PadNegative        (* mx.pad: "Padding sizes must be non-negative" *)
| BroadcastShapes    (* shapes cannot be broadcast *)
| ConcatShapes       (* mx.concatenate: shapes differ off the axis *)
| MatmulShapes       (* matmul / addmm: inner dimensions differ *)
| SplitUneven        (* mx.split: axis not divisible *)
| UnpackError        (* tuple unpacking of the wrong length *)
| AttributeError     (* attribute never set by __init__ *)
| UnboundLocalError  (* local variable read before assignment *)
| ZeroDivisionError  (* math.sqrt(1 / dims) in a layer constructor, dims = 0 *)
| ExternalError.     (* raised inside f5_tts_mlx.modules *)

Inductive result (A : Type) : Type :=
| Ok (a : A)
| Raise (e : exn).

Arguments Ok {A} a.
Arguments Raise {A} e.

Definition bind {A B : Type} (r : result A) (k : A -> result B) : result B :=
  match r with
  | Ok a => k a
  | Raise e => Raise e
  end.

Notation "'let*' x ':=' e 'in' k" := (bind e (fun x => k))
  (at level 10, x name, e at level 100, k at level 200).

Definition is_ok {A : Type} (r : result A) : bool :=
  match r with Ok _ => true | Raise _ => false end.

(** ** Arrays *)

(** A rank-1 array is a list (its shape is its length); rank-2 and rank-3
    arrays keep the shape explicitly, so that [x.shape[1]] is defined for
    an empty batch as well. *)
Record array2 (A : Type) : Type := Array2 {
  shape2 : nat * nat;
  data2 : list (list A)
}.

Record array3 (A : Type) : Type := Array3 {
  shape3 : nat * nat * nat;
  data3 : list (list (list A))
}.

Definition dim0_2 {A} (a : array2 A) : nat := fst (shape2 a).
Definition dim1_2 {A} (a : array2 A) : nat := snd (shape2 a).
Definition dim0_3 {A} (a : array3 A) : nat := fst (fst (shape3 a)).
Definition dim1_3 {A} (a : array3 A) : nat := snd (fst (shape3 a)).
Definition dim2_3 {A} (a : array3 A) : nat := snd (shape3 a).

(** The data agrees with the declared shape. *)
Definition wf_rows {A} (n d : nat) (m : list (list A)) : Prop :=
  length m = n /\ Forall (fun r => length r = d) m.

Definition wf2 {A} (a : array2 A) : Prop :=
  wf_rows (dim0_2 a) (dim1_2 a) (data2 a).

Definition wf3 {A} (a : array3 A) : Prop :=
  length (data3 a) = dim0_3 a /\
  Forall (wf_rows (dim1_3 a) (dim2_3 a)) (data3 a).

Definition full2 {A} (sh : nat * nat) (v : A) : array2 A :=
  {| shape2 := sh; data2 := repeat (repeat v (snd sh)) (fst sh) |}.

Definition full3 {A} (sh : nat * nat * nat) (v : A) : array3 A :=
  {| shape3 := sh;
     data3 := repeat (repeat (repeat v (snd sh)) (snd (fst sh))) (fst (fst sh)) |}.

Fixpoint zipWith {A B C} (f : A -> B -> C) (xs : list A) (ys : list B) : list C :=
  match xs, ys with
  | x :: xs', y :: ys' => f x y :: zipWith f xs' ys'
  | _, _ => []
  end.

(** NumPy-style broadcasting of one axis: equal sizes are zipped, a size-1
    axis is stretched. *)
Definition bdim (m n : nat) : result nat :=
  if Nat.eqb m n then Ok m
  else if Nat.eqb m 1 then Ok n
  else if Nat.eqb n 1 then Ok m
  else Raise BroadcastShapes.

Definition bzip {A B C} (f : A -> B -> C) (xs : list A) (ys : list B) : list C :=
  if Nat.eqb (length xs) (length ys) then zipWith f xs ys
  else match xs, ys with
       | [x], _ => map (f x) ys
       | _, [y] => map (fun x => f x y) xs
       | _, _ => []
       end.

Definition bshape3 (s t : nat * nat * nat) : result (nat * nat * nat) :=
  let* b := bdim (fst (fst s)) (fst (fst t)) in
  let* n := bdim (snd (fst s)) (snd (fst t)) in
  let* d := bdim (snd s) (snd t) in
  Ok (b, n, d).

Definition binop3 {A} (f : A -> A -> A) (a b : array3 A) : result (array3 A) :=
  let* s := bshape3 (shape3 a) (shape3 b) in
  Ok {| shape3 := s; data3 := bzip (bzip (bzip f)) (data3 a) (data3 b) |}.

(** ** The MLX runtime: element arithmetic *)

(** The element type of float arrays and the operations MLX applies to it.
    [gather_oob table i j] is the entry an out-of-range gather of row [i]
    reads at column [j] (MLX does not check indices); [sample] is the random initialiser of fresh weights. *)
Class Scalar (F : Type) : Type := {
  f0 : F;
  f1 : F;
  fadd : F -> F -> F;
  fsub : F -> F -> F;
  fmul : F -> F -> F;
  fdiv : F -> F -> F;
  frsqrt : F -> F;
  fsigmoid : F -> F;
  fconst : Q -> F;
  fof_nat : nat -> F;
  gather_oob : array2 F -> Z -> nat -> F;
  sample : nat -> nat -> F
}.

Section Model.

Context {F : Type} {SF : Scalar F}.

(** ** mlx.core operations used by the source *)

(** [a + k] on an integer array. *)
Definition add_scalar2 (a : array2 Z) (k : Z) : array2 Z :=
  {| shape2 := shape2 a; data2 := map (map (fun v => v + k)) (data2 a) |}.

(** [a[:, :k]] *)
Definition slice_axis1 {A} (a : array2 A) (k : nat) : array2 A :=
  {| shape2 := (dim0_2 a, Nat.min k (dim1_2 a));
     data2 := map (firstn k) (data2 a) |}.

(** [mx.pad(a, [(lo0, hi0), (lo1, hi1)], constant_values=cv)]: a negative
    width is refused. *)
Definition mx_pad {A} (a : array2 A) (pad_width : (Z * Z) * (Z * Z)) (cv : A)
  : result (array2 A) :=
  let '((lo0, hi0), (lo1, hi1)) := pad_width in
  if (lo0 <? 0) || (hi0 <? 0) || (lo1 <? 0) || (hi1 <? 0) then Raise PadNegative
  else
    let w := (Z.to_nat lo1 + dim1_2 a + Z.to_nat hi1)%nat in
    let blank := repeat cv w in
    Ok {| shape2 := ((Z.to_nat lo0 + dim0_2 a + Z.to_nat hi0)%nat, w);
          data2 := repeat blank (Z.to_nat lo0)
                   ++ map (fun r => repeat cv (Z.to_nat lo1) ++ r
                                    ++ repeat cv (Z.to_nat hi1)) (data2 a)
                   ++ repeat blank (Z.to_nat hi0) |}.

Definition zeros_like2 (a : array2 Z) : array2 Z := full2 (shape2 a) 0.

Definition zeros_like3 (a : array3 F) : array3 F := full3 (shape3 a) f0.

(** [table[i]] for one index: negative indices count from the end, anything
    else outside the table is an unchecked read. *)
Definition take_row (table : array2 F) (i : Z) : list F :=
  let rows := Z.of_nat (dim0_2 table) in
  if (0 <=? i) && (i <? rows) then nth (Z.to_nat i) (data2 table) []
  else if (- rows <=? i) && (i <? 0) then nth (Z.to_nat (i + rows)) (data2 table) []
  else map (gather_oob table i) (seq 0 (dim1_2 table)).

(** [table[idx]] for an index array of shape (b, n). *)
Definition take_rows (table : array2 F) (idx : array2 Z) : array3 F :=
  {| shape3 := (shape2 idx, dim1_2 table);
     data3 := map (map (take_row table)) (data2 idx) |}.

(** [mx.concatenate((a, b), axis=-1)] *)
Definition concatenate2 (a b : array3 F) : result (array3 F) :=
  if Nat.eqb (dim0_3 a) (dim0_3 b) && Nat.eqb (dim1_3 a) (dim1_3 b)
  then Ok {| shape3 := (dim0_3 a, dim1_3 a, (dim2_3 a + dim2_3 b)%nat);
             data3 := zipWith (zipWith (@app F)) (data3 a) (data3 b) |}
  else Raise ConcatShapes.

(** [mx.concatenate((a, r1, r2, ...), axis=-1)] *)
Fixpoint concatenate (a : array3 F) (rest : list (array3 F)) : result (array3 F) :=
  match rest with
  | [] => Ok a
  | r :: rest' => let* c := concatenate2 a r in concatenate c rest'
  end.

(** [mx.expand_dims(a, axis=1)] *)
Definition expand_dims (a : array2 F) : array3 F :=
  {| shape3 := (dim0_2 a, 1%nat, dim1_2 a);
     data3 := map (fun r => [r]) (data2 a) |}.

(** [k + a] for a Python scalar [k]. *)
Definition scalar_add3 (k : F) (a : array3 F) : array3 F :=
  {| shape3 := shape3 a; data3 := map (map (map (fadd k))) (data3 a) |}.

Definition add3 : array3 F -> array3 F -> result (array3 F) := binop3 fadd.
Definition mul3 : array3 F -> array3 F -> result (array3 F) := binop3 fmul.

(** The [i]-th of the width-[c] chunks of a row. *)
Definition chunk {A} (c i : nat) (r : list A) : list A :=
  firstn c (skipn (i * c) r).

(** [mx.split(a, k, axis=1)]: [k] equal parts, or an error. *)
Definition mx_split (a : array2 F) (k : nat) : result (list (array2 F)) :=
  if Nat.eqb k 0 then Raise SplitUneven
  else if Nat.eqb (dim1_2 a mod k) 0 then
    let c := (dim1_2 a / k)%nat in
    Ok (map (fun i => {| shape2 := (dim0_2 a, c);
                         data2 := map (chunk c i) (data2 a) |}) (seq 0 k))
  else Raise SplitUneven.

(** [einops.repeat(time, " -> b", b=batch)] *)
Definition einops_repeat (s : F) (b : nat) : list F := repeat s b.

(** ** mlx.nn layers *)

(** [nn.Embedding]: [weight] has one row per id. *)
Record Embedding : Type := {
  emb_weight : array2 F
}.

(** The table a fresh [nn.Embedding(num_embeddings, dims)] holds. *)
Definition fresh_Embedding (num_embeddings dims : nat) : Embedding :=
  {| emb_weight :=
       {| shape2 := (num_embeddings, dims);
          data2 := map (fun i => map (sample i) (seq 0 dims)) (seq 0 num_embeddings) |} |}.

(** [nn.Embedding(num_embeddings, dims)]: the initialiser scales by
    [math.sqrt(1 / dims)], which raises for [dims = 0]. *)
Definition nn_Embedding (num_embeddings dims : nat) : result Embedding :=
  if Nat.eqb dims 0 then Raise ZeroDivisionError
  else Ok (fresh_Embedding num_embeddings dims).

Definition Embedding_call (e : Embedding) (x : array2 Z) : array3 F :=
  take_rows (emb_weight e) x.

(** [nn.Linear]: [weight] has shape (output_dims, input_dims). *)
Record Linear : Type := {
  weight : array2 F;
  bias : option (list F)
}.

(** The weights a fresh [nn.Linear(input_dims, output_dims, bias)] holds. *)
Definition fresh_Linear (input_dims output_dims : nat) (with_bias : bool) : Linear :=
  {| weight :=
       {| shape2 := (output_dims, input_dims);
          data2 := map (fun i => map (sample i) (seq 0 input_dims)) (seq 0 output_dims) |};
     bias := if with_bias then Some (map (sample output_dims) (seq 0 output_dims))
             else None |}.

(** [nn.Linear(input_dims, output_dims, bias)]: the initialiser scales by
    [math.sqrt(1.0 / input_dims)], which raises for [input_dims = 0]. *)
Definition nn_Linear (input_dims output_dims : nat) (with_bias : bool) : result Linear :=
  if Nat.eqb input_dims 0 then Raise ZeroDivisionError
  else Ok (fresh_Linear input_dims output_dims with_bias).

Definition dot (x w : list F) : F :=
  fold_right (fun p acc => fadd (fmul (fst p) (snd p)) acc) f0 (combine x w).

(** One row of [x @ weight.T], or of [mx.addmm(bias, x, weight.T)]. *)
Definition linear_row (l : Linear) (x : list F) : list F :=
  let y := map (dot x) (data2 (weight l)) in
  match bias l with
  | Some b => bzip fadd b y
  | None => y
  end.

Definition bias_fits (l : Linear) : bool :=
  match bias l with
  | Some b => Nat.eqb (length b) (dim0_2 (weight l)) || Nat.eqb (length b) 1
  | None => true
  end.

Definition Linear_call2 (l : Linear) (x : array2 F) : result (array2 F) :=
  if Nat.eqb (dim1_2 x) (dim1_2 (weight l)) && bias_fits l
  then Ok {| shape2 := (dim0_2 x, dim0_2 (weight l));
             data2 := map (linear_row l) (data2 x) |}
  else Raise MatmulShapes.

Definition Linear_call3 (l : Linear) (x : array3 F) : result (array3 F) :=
  if Nat.eqb (dim2_3 x) (dim1_2 (weight l)) && bias_fits l
  then Ok {| shape3 := (dim0_3 x, dim1_3 x, dim0_2 (weight l));
             data3 := map (map (linear_row l)) (data3 x) |}
  else Raise MatmulShapes.

(** [nn.SiLU]: x * sigmoid(x) *)
Definition silu (v : F) : F := fmul v (fsigmoid v).

Definition SiLU_call (x : array2 F) : array2 F :=
  {| shape2 := shape2 x; data2 := map (map silu) (data2 x) |}.

(** [nn.LayerNorm(dims, eps, affine)]: the learned weight and bias exist
    only when [affine] is set. *)
Record LayerNorm : Type := {
  ln_dims : nat;
  ln_eps : Q;
  ln_weight : option (list F);
  ln_bias : option (list F)
}.

Definition nn_LayerNorm (dims : nat) (affine : bool) (eps : Q) : LayerNorm :=
  {| ln_dims := dims;
     ln_eps := eps;
     ln_weight := if affine then Some (repeat f1 dims) else None;
     ln_bias := if affine then Some (repeat f0 dims) else None |}.

Definition fsum (r : list F) : F := fold_right fadd f0 r.

Definition mean (r : list F) : F := fdiv (fsum r) (fof_nat (length r)).

Definition variance (r : list F) : F :=
  let m := mean r in
  fdiv (fsum (map (fun v => fmul (fsub v m) (fsub v m)) r)) (fof_nat (length r)).

(** The normalisation proper: centre on the mean, divide by the standard
    deviation. *)
Definition normalize (eps : Q) (r : list F) : list F :=
  let m := mean r in
  let s := frsqrt (fadd (variance r) (fconst eps)) in
  map (fun v => fmul (fsub v m) s) r.

(** [mx.fast.layer_norm(x, weight, bias, eps)] on one row. *)
Definition layer_norm_row (ln : LayerNorm) (r : list F) : list F :=
  let y := normalize (ln_eps ln) r in
  let y := match ln_weight ln with Some w => bzip fmul y w | None => y end in
  match ln_bias ln with Some b => bzip fadd y b | None => y end.

Definition LayerNorm_call (ln : LayerNorm) (x : array3 F) : array3 F :=
  {| shape3 := shape3 x; data3 := map (map (layer_norm_row ln)) (data3 x) |}.

(** [nn.Sequential] applied to the unpacked list of layers. *)
Definition Sequential {A} (layers : list (A -> A)) (x : A) : A :=
  fold_left (fun acc layer => layer acc) layers x.

(** [[f(i) for i in range(k)]] when [f] may raise. *)
Fixpoint comprehension {A} (f : nat -> result A) (range : list nat) : result (list A) :=
  match range with
  | [] => Ok []
  | i :: range' =>
      let* a := f i in
      let* rest := comprehension f range' in
      Ok (a :: rest)
  end.

(** [range(k)] for a Python int: empty when [k <= 0]. *)
Definition range (k : Z) : list nat := seq 0 (Z.to_nat k).

End Model.

Arguments Embedding : clear implicits.
Arguments Linear : clear implicits.
Arguments LayerNorm : clear implicits.

(** ** The collaborators imported from [f5_tts_mlx.modules]

    Their source is not part of this file: constructors may raise, and a
    constructed module is the function its [__call__] computes.  [Rope] is
    the rotary table [RotaryEmbedding.forward_from_seq_len] hands to
    [Attention]. *)
Class Modules (F Rope : Type) : Type := {
  (* Attention(dim, heads, dim_head, dropout) *)
  Attention : nat -> Z -> nat -> Q ->
              result (array3 F -> option (array2 bool) -> Rope -> array3 F);
  (* FeedForward(dim, mult, dropout, approximate="tanh") *)
  FeedForward : nat -> nat -> Q -> result (array3 F -> array3 F);
  (* RotaryEmbedding(dim_head), as its forward_from_seq_len *)
  RotaryEmbedding : nat -> result (nat -> Rope);
  (* TimestepEmbedding(dim) *)
  TimestepEmbedding : nat -> result (list F -> array2 F);
  (* ConvNeXtV2Block(dim, intermediate_dim) *)
  ConvNeXtV2Block : nat -> nat -> result (array3 F -> array3 F);
  (* ConvPositionEmbedding(dim) *)
  ConvPositionEmbedding : nat -> result (array3 F -> array3 F);
  precompute_freqs_cis : nat -> nat -> array2 F;
  (* get_pos_embed_indices(start, length, max_pos) *)
  get_pos_embed_indices : list Z -> nat -> nat -> array2 Z
}.

(** ** class TextEmbedding *)
Module TextEmbedding.
Section Defs.
Variables F Rope : Type.
Context {SF : Scalar F} {MD : Modules F Rope}.

(** The attributes set only when [conv_layers > 0]. *)
Record extra : Type := {
  precompute_max_pos : nat;
  _freqs_cis : array2 F;
  text_blocks : array3 F -> array3 F
}.

Record t : Type := {
  text_embed : Embedding F;
  extra_modeling : bool;
  extra_attrs : option extra
}.

Definition init (text_num_embeds text_dim : nat) (conv_layers : Z) (conv_mult : nat)
  : result t :=
  let* text_embed := nn_Embedding (text_num_embeds + 1) text_dim in  (* use 0 as filler token *)
  if 0 <? conv_layers then
    let precompute_max_pos := 4096%nat in
    let freqs := precompute_freqs_cis (F := F) (Rope := Rope) text_dim precompute_max_pos in
    let* blocks := comprehension
                     (fun _ => ConvNeXtV2Block (F := F) (Rope := Rope)
                                 text_dim (text_dim * conv_mult)%nat)
                     (range conv_layers) in
    Ok {| text_embed := text_embed;
          extra_modeling := true;
          extra_attrs := Some {| precompute_max_pos := precompute_max_pos;
                                 _freqs_cis := freqs;
                                 text_blocks := Sequential blocks |} |}
  else
    Ok {| text_embed := text_embed; extra_modeling := false; extra_attrs := None |}.

Definition call (self : t) (text : array2 Z) (seq_len : nat) (drop_text : bool)
  : result (array3 F) :=
  let batch := dim0_2 text in
  let text_len := dim1_2 text in
  let text := add_scalar2 text 1 in  (* use 0 as filler token *)
  let text := slice_axis1 text seq_len in  (* curtail if character tokens are more than the mel spec tokens *)
  let* text := mx_pad text ((0, 0), (0, Z.of_nat seq_len - Z.of_nat text_len)) 0 in
  let text := if drop_text then zeros_like2 text else text in  (* cfg for text *)
  let text := Embedding_call (text_embed self) text in  (* b n -> b n d *)
  (* possible extra modeling *)
  if extra_modeling self then
    match extra_attrs self with
    | None => Raise AttributeError
    | Some ex =>
        (* sinus pos emb *)
        let batch_start := repeat 0 batch in
        let pos_idx := get_pos_embed_indices (F := F) (Rope := Rope)
                         batch_start seq_len (precompute_max_pos ex) in
        let text_pos_embed := take_rows (_freqs_cis ex) pos_idx in
        let* text := add3 text text_pos_embed in
        (* convnextv2 blocks *)
        Ok (text_blocks ex text)
    end
  else Ok text.

End Defs.
End TextEmbedding.

(** ** class InputEmbedding: noised input audio and context mixing *)
Module InputEmbedding.
Section Defs.
Variables F Rope : Type.
Context {SF : Scalar F} {MD : Modules F Rope}.

Record t : Type := {
  proj : Linear F;
  conv_pos_embed : array3 F -> array3 F
}.

Definition init (mel_dim text_dim out_dim : nat) : result t :=
  let* proj := nn_Linear (mel_dim * 2 + text_dim) out_dim true in
  let* conv_pos_embed := ConvPositionEmbedding (F := F) (Rope := Rope) out_dim in
  Ok {| proj := proj; conv_pos_embed := conv_pos_embed |}.

Definition call (self : t) (x cond text_embed : array3 F) (drop_audio_cond : bool)
  : result (array3 F) :=
  let cond := if drop_audio_cond then zeros_like3 cond else cond in  (* cfg for cond audio *)
  let* c := concatenate x [cond; text_embed] in
  let* x := Linear_call3 (proj self) c in
  add3 (conv_pos_embed self x) x.

End Defs.
End InputEmbedding.

(** ** class AdaLayerNormZero: modulated x for the attention input, and the
    parameters for the later mlp modulation *)
Module AdaLayerNormZero.
Section Defs.
Variable F : Type.
Context {SF : Scalar F}.

Record t : Type := {
  linear : Linear F;
  norm : LayerNorm F
}.

Definition init (dim : nat) : result t :=
  let* linear := nn_Linear dim (dim * 6) true in
  Ok {| linear := linear; norm := nn_LayerNorm dim false (1 # 1000000) |}.

Definition call (self : t) (x : array3 F) (emb : array2 F)
  : result (array3 F * array2 F * array2 F * array2 F * array2 F) :=
  let* emb := Linear_call2 (linear self) (SiLU_call emb) in
  let* parts := mx_split emb 6 in
  match parts with
  | [shift_msa; scale_msa; gate_msa; shift_mlp; scale_mlp; gate_mlp] =>
      let* scaled := mul3 (LayerNorm_call (norm self) x)
                          (scalar_add3 f1 (expand_dims scale_msa)) in
      let* x := add3 scaled (expand_dims shift_msa) in
      Ok (x, gate_msa, shift_mlp, scale_mlp, gate_mlp)
  | _ => Raise UnpackError
  end.

End Defs.
End AdaLayerNormZero.

(** ** class AdaLayerNormZero_Final: only the modulated x, there is no more
    mlp modulation *)
Module AdaLayerNormZero_Final.
Section Defs.
Variable F : Type.
Context {SF : Scalar F}.

Record t : Type := {
  linear : Linear F;
  norm : LayerNorm F
}.

Definition init (dim : nat) : result t :=
  let* linear := nn_Linear dim (dim * 2) true in
  Ok {| linear := linear; norm := nn_LayerNorm dim false (1 # 1000000) |}.

Definition call (self : t) (x : array3 F) (emb : array2 F) : result (array3 F) :=
  let* emb := Linear_call2 (linear self) (SiLU_call emb) in
  let* parts := mx_split emb 2 in
  match parts with
  | [scale; shift] =>
      let* scaled := mul3 (LayerNorm_call (norm self) x)
                          (scalar_add3 f1 (expand_dims scale)) in
      add3 scaled (expand_dims shift)
  | _ => Raise UnpackError
  end.

End Defs.
End AdaLayerNormZero_Final.

(** ** class DiTBlock *)
Module DiTBlock.
Section Defs.
Variables F Rope : Type.
Context {SF : Scalar F} {MD : Modules F Rope}.

Record t : Type := {
  attn_norm : AdaLayerNormZero.t F;
  attn : array3 F -> option (array2 bool) -> Rope -> array3 F;
  ff_norm : LayerNorm F;
  ff : array3 F -> array3 F
}.

Definition init (dim : nat) (heads : Z) (dim_head ff_mult : nat) (dropout : Q)
  : result t :=
  let* attn_norm := AdaLayerNormZero.init dim in
  let* attn := Attention (F := F) (Rope := Rope) dim heads dim_head dropout in
  let ff_norm := nn_LayerNorm dim false (1 # 1000000) in
  let* ff := FeedForward (F := F) (Rope := Rope) dim ff_mult dropout in
  Ok {| attn_norm := attn_norm; attn := attn; ff_norm := ff_norm; ff := ff |}.

(* x: noised input, t: time embedding *)
Definition call (self : t) (x : array3 F) (t : array2 F)
  (mask : option (array2 bool)) (rope : Rope) : result (array3 F) :=
  (* pre-norm & modulation for attention input *)
  let* r := AdaLayerNormZero.call (attn_norm self) x t in
  let '(norm, gate_msa, shift_mlp, scale_mlp, gate_mlp) := r in
  (* attention *)
  let attn_output := attn self norm mask rope in
  (* process attention output for input x *)
  let* gated := mul3 (expand_dims gate_msa) attn_output in
  let* x := add3 x gated in
  let* scaled := mul3 (LayerNorm_call (ff_norm self) x)
                      (scalar_add3 f1 (expand_dims scale_mlp)) in
  let* norm := add3 scaled (expand_dims shift_mlp) in
  let ff_output := ff self norm in
  let* gated := mul3 (expand_dims gate_mlp) ff_output in
  add3 x gated.

End Defs.
End DiTBlock.

(** ** class DiT: transformer backbone using DiT blocks *)

(** The [time] argument: a rank-0 array or a rank-1 array of length b. *)
Inductive time_arg (F : Type) : Type :=
| TimeScalar (s : F)
| TimeVector (v : list F).

Arguments TimeScalar {F} s.
Arguments TimeVector {F} v.

Module DiT.
Section Defs.
Variables F Rope : Type.
Context {SF : Scalar F} {MD : Modules F Rope}.

(** The keyword arguments of [__init__]. *)
Record kwargs : Type := {
  dim : nat;
  depth : Z;
  heads : Z;
  dim_head : nat;
  dropout : Q;
  ff_mult : nat;
  mel_dim : nat;
  text_num_embeds : nat;
  text_dim : option nat;
  conv_layers : Z;
  long_skip_connection : bool
}.

(** [DiT(dim=dim)]: every other argument at its default. *)
Definition defaults (dim : nat) : kwargs :=
  {| dim := dim; depth := 8; heads := 8; dim_head := 64; dropout := 0%Q;
     ff_mult := 4; mel_dim := 100; text_num_embeds := 256; text_dim := None;
     conv_layers := 0; long_skip_connection := false |}.

Record t : Type := {
  time_embed : list F -> array2 F;
  text_embed : TextEmbedding.t F;
  input_embed : InputEmbedding.t F;
  rotary_embed : nat -> Rope;
  self_dim : nat;
  self_depth : Z;
  transformer_blocks : list (DiTBlock.t F Rope);
  self_long_skip_connection : option (Linear F);
  norm_out : AdaLayerNormZero_Final.t F;
  proj_out : Linear F
}.

Definition init (kw : kwargs) : result t :=
  let* time_embed := TimestepEmbedding (F := F) (Rope := Rope) (dim kw) in
  let text_dim := match text_dim kw with None => mel_dim kw | Some d => d end in
  let* text_embed := TextEmbedding.init (F := F) (Rope := Rope)
                       (text_num_embeds kw) text_dim (conv_layers kw) 2 in
  let* input_embed := InputEmbedding.init (F := F) (Rope := Rope)
                        (mel_dim kw) text_dim (dim kw) in
  let* rotary_embed := RotaryEmbedding (F := F) (Rope := Rope) (dim_head kw) in
  let* transformer_blocks :=
    comprehension
      (fun _ => DiTBlock.init (F := F) (Rope := Rope)
                  (dim kw) (heads kw) (dim_head kw) (ff_mult kw) (dropout kw))
      (range (depth kw)) in
  let* long_skip :=
    if long_skip_connection kw
    then let* l := nn_Linear (dim kw * 2) (dim kw) false in Ok (Some l)
    else Ok None in
  let* norm_out := AdaLayerNormZero_Final.init (dim kw) in  (* final modulation *)
  let* proj_out := nn_Linear (dim kw) (mel_dim kw) true in
  Ok {| time_embed := time_embed;
        text_embed := text_embed;
        input_embed := input_embed;
        rotary_embed := rotary_embed;
        self_dim := dim kw;
        self_depth := depth kw;
        transformer_blocks := transformer_blocks;
        self_long_skip_connection := long_skip;
        norm_out := norm_out;
        proj_out := proj_out |}.

(** [for block in self.transformer_blocks: x = block(x, t, mask=mask, rope=rope)] *)
Fixpoint run_blocks (blocks : list (DiTBlock.t F Rope)) (x : array3 F) (t : array2 F)
  (mask : option (array2 bool)) (rope : Rope) : result (array3 F) :=
  match blocks with
  | [] => Ok x
  | block :: blocks' =>
      let* x := DiTBlock.call block x t mask rope in
      run_blocks blocks' x t mask rope
  end.

Definition call (self : t)
  (x : array3 F)            (* nosied input audio *)
  (cond : array3 F)         (* masked cond audio *)
  (text : array2 Z)         (* text *)
  (time : time_arg F)       (* time step *)
  (drop_audio_cond : bool)  (* cfg for cond audio *)
  (drop_text : bool)        (* cfg for text *)
  (mask : option (array2 bool)) : result (array3 F) :=
  let batch := dim0_3 x in
  let seq_len := dim1_3 x in
  let time := match time with
              | TimeScalar s => einops_repeat s batch   (* time.ndim == 0 *)
              | TimeVector v => v
              end in
  (* t: conditioning time, c: context (text + masked cond audio), x: noised input audio *)
  let t := time_embed self time in
  let* text_embed := TextEmbedding.call (Rope := Rope) (text_embed self) text seq_len drop_text in
  let* x := InputEmbedding.call (input_embed self) x cond text_embed drop_audio_cond in
  let rope := rotary_embed self seq_len in
  let residual := match self_long_skip_connection self with
                  | Some _ => Some x
                  | None => None
                  end in
  let* x := run_blocks (transformer_blocks self) x t mask rope in
  let* x := match self_long_skip_connection self, residual with
            | Some long_skip, Some residual =>
                let* c := concatenate x [residual] in
                Linear_call3 long_skip c
            | Some _, None => Raise UnboundLocalError
            | None, _ => Ok x
            end in
  let* x := AdaLayerNormZero_Final.call (norm_out self) x t in
  Linear_call3 (proj_out self) x.

End Defs.
End DiT.

(** ** Stages of the forward pass

    Sub-expressions of [TextEmbedding.__call__] and [DiT.__call__], named so
    that statements about one stage can be read on their own. *)
Section Stages.
Variables F Rope : Type.
Context {SF : Scalar F} {MD : Modules F Rope}.

(** Shift by one, curtail, pad: the ids handed to the embedding table. *)
Definition shift_and_pad (text : array2 Z) (seq_len : nat) : result (array2 Z) :=
  mx_pad (slice_axis1 (add_scalar2 text 1) seq_len)
         ((0, 0), (0, Z.of_nat seq_len - Z.of_nat (dim1_2 text))) 0.

(** Table lookup and the optional extra modeling, from padded ids on. *)
Definition embed_ids (self : TextEmbedding.t F) (batch seq_len : nat) (ids : array2 Z)
  : result (array3 F) :=
  let text := Embedding_call (TextEmbedding.text_embed self) ids in
  if TextEmbedding.extra_modeling self then
    match TextEmbedding.extra_attrs self with
    | None => Raise AttributeError
    | Some ex =>
        let pos_idx := get_pos_embed_indices (F := F) (Rope := Rope)
                         (repeat 0 batch) seq_len (TextEmbedding.precompute_max_pos ex) in
        let* text := add3 text (take_rows (TextEmbedding._freqs_cis ex) pos_idx) in
        Ok (TextEmbedding.text_blocks ex text)
    end
  else Ok text.

(** Text encoding followed by input fusion: the state entering the blocks. *)
Definition fuse (self : DiT.t F Rope) (x cond : array3 F) (text : array2 Z)
  (drop_audio_cond drop_text : bool) : result (array3 F) :=
  let* text_embed := TextEmbedding.call (Rope := Rope) (DiT.text_embed self)
                       text (dim1_3 x) drop_text in
  InputEmbedding.call (DiT.input_embed self) x cond text_embed drop_audio_cond.

(** The conditioning vector [t]. *)
Definition conditioning (self : DiT.t F Rope) (batch : nat) (time : time_arg F) : array2 F :=
  DiT.time_embed self
    (match time with TimeScalar s => einops_repeat s batch | TimeVector v => v end).

(** Final modulation and output projection. *)
Definition finish (self : DiT.t F Rope) (x : array3 F) (t : array2 F) : result (array3 F) :=
  let* x := AdaLayerNormZero_Final.call (DiT.norm_out self) x t in
  Linear_call3 (DiT.proj_out self) x.

End Stages.

(** ** Well-formedness of weights and collaborators *)
Section Contracts.
Variables F Rope : Type.
Context {SF : Scalar F}.

(** The arithmetic identities the zero-initialised modulation relies on.
    They hold in exact arithmetic (and for finite floating-point values up
    to the sign of zero). *)
Class ExactArith : Prop := {
  fadd_0_r : forall a : F, fadd a f0 = a;
  fmul_0_l : forall a : F, fmul f0 a = f0;
  fmul_0_r : forall a : F, fmul a f0 = f0;
  fmul_1_r : forall a : F, fmul a f1 = a
}.

(** A projection from width [i] to width [o] whose arrays have the sizes
    [nn.Linear(i, o)] gives them. *)
Definition Linear_wf (i o : nat) (l : Linear F) : Prop :=
  shape2 (weight l) = (o, i) /\ wf2 (weight l) /\
  match bias l with Some b => length b = o | None => True end.

(** Every weight and every bias entry is zero. *)
Definition zero_init (l : Linear F) : Prop :=
  Forall (Forall (fun w => w = f0)) (data2 (weight l)) /\
  match bias l with Some b => Forall (fun v => v = f0) b | None => True end.

(** [nn.LayerNorm(..., affine=False)] *)
Definition nonaffine (ln : LayerNorm F) : Prop :=
  ln_weight ln = None /\ ln_bias ln = None.

(** A collaborator maps well-formed (b, n, d) arrays to well-formed
    (b, n, d) arrays. *)
Definition preserves (sh : nat * nat * nat) (f : array3 F -> array3 F) : Prop :=
  forall y, shape3 y = sh -> wf3 y -> shape3 (f y) = sh /\ wf3 (f y).

(** Modelled from the spec: the shape contracts of the collaborators
    imported from [f5_tts_mlx.modules], whose source is not at hand.  A
    module built for width [dim] maps well-formed (b, n, dim) arrays to
    well-formed (b, n, dim) arrays; the timestep embedding maps (b,) to
    (b, dim). *)
Record collaborators_preserve (MD : Modules F Rope) : Prop := {
  Attention_preserves :
    forall dim heads dim_head dropout f,
      Attention (F := F) (Rope := Rope) dim heads dim_head dropout = Ok f ->
      forall b n mask rope, preserves (b, n, dim) (fun y => f y mask rope);
  FeedForward_preserves :
    forall dim mult dropout f,
      FeedForward (F := F) (Rope := Rope) dim mult dropout = Ok f ->
      forall b n, preserves (b, n, dim) f;
  ConvPositionEmbedding_preserves :
    forall dim f,
      ConvPositionEmbedding (F := F) (Rope := Rope) dim = Ok f ->
      forall b n, preserves (b, n, dim) f;
  ConvNeXtV2Block_preserves :
    forall dim inter f,
      ConvNeXtV2Block (F := F) (Rope := Rope) dim inter = Ok f ->
      forall b n, preserves (b, n, dim) f;
  TimestepEmbedding_shape :
    forall dim f,
      TimestepEmbedding (F := F) (Rope := Rope) dim = Ok f ->
      forall time, shape2 (f time) = (length time, dim) /\ wf2 (f time);
  precompute_freqs_cis_shape :
    forall dim max_pos,
      shape2 (precompute_freqs_cis (F := F) (Rope := Rope) dim max_pos) = (max_pos, dim)
      /\ wf2 (precompute_freqs_cis (F := F) (Rope := Rope) dim max_pos);
  get_pos_embed_indices_shape :
    forall start len max_pos,
      shape2 (get_pos_embed_indices (F := F) (Rope := Rope) start len max_pos)
        = (length start, len)
      /\ wf2 (get_pos_embed_indices (F := F) (Rope := Rope) start len max_pos)
}.

(** The text width [DiT.__init__] settles on: [text_dim], or [mel_dim] when
    [text_dim] is None. *)
Definition text_width (kw : DiT.kwargs) : nat :=
  match DiT.text_dim kw with None => DiT.mel_dim kw | Some d => d end.

(** The widths whose reciprocal the initialisers of [nn.Linear] and
    [nn.Embedding] take during [DiT.__init__]: [dim] (modulations, long
    skip, output projection) and the text width (embedding table). *)
Definition positive_widths (kw : DiT.kwargs) : Prop :=
  (0 < DiT.dim kw)%nat /\ (0 < text_width kw)%nat.

(** The collaborator constructors that [DiT.__init__] calls outside the
    blocks accept the arguments it hands them: [TimestepEmbedding(dim)],
    [ConvNeXtV2Block(text_dim, text_dim * 2)] when [conv_layers > 0],
    [ConvPositionEmbedding(dim)], [RotaryEmbedding(dim_head)]. *)
Definition embedders_accept (MD : Modules F Rope) (kw : DiT.kwargs) : Prop :=
  is_ok (TimestepEmbedding (F := F) (Rope := Rope) (DiT.dim kw)) = true /\
  (0 < DiT.conv_layers kw ->
   is_ok (ConvNeXtV2Block (F := F) (Rope := Rope)
            (text_width kw) (text_width kw * 2)) = true) /\
  is_ok (ConvPositionEmbedding (F := F) (Rope := Rope) (DiT.dim kw)) = true /\
  is_ok (RotaryEmbedding (F := F) (Rope := Rope) (DiT.dim_head kw)) = true.

(** The two collaborator constructors that [DiTBlock.__init__] calls accept
    the arguments [DiT.__init__] forwards to them. *)
Definition block_accepts (MD : Modules F Rope) (kw : DiT.kwargs) : Prop :=
  is_ok (Attention (F := F) (Rope := Rope) (DiT.dim kw) (DiT.heads kw)
           (DiT.dim_head kw) (DiT.dropout kw)) = true /\
  is_ok (FeedForward (F := F) (Rope := Rope) (DiT.dim kw) (DiT.ff_mult kw)
           (DiT.dropout kw)) = true.

(** A block whose modulation projection is zero, with collaborators that
    honour their shape contract on (b, n, d). *)
Definition zero_block (b n d : nat) (blk : DiTBlock.t F Rope) : Prop :=
  Linear_wf d (d * 6) (AdaLayerNormZero.linear (DiTBlock.attn_norm blk)) /\
  zero_init (AdaLayerNormZero.linear (DiTBlock.attn_norm blk)) /\
  nonaffine (AdaLayerNormZero.norm (DiTBlock.attn_norm blk)) /\
  nonaffine (DiTBlock.ff_norm blk) /\
  (forall mask rope, preserves (b, n, d) (fun y => DiTBlock.attn blk y mask rope)) /\
  preserves (b, n, d) (DiTBlock.ff blk).

(** A block whose weights have the sizes [DiTBlock.__init__] gives them,
    with collaborators that honour their shape contract on (b, n, d). *)
Definition shaped_block (b n d : nat) (blk : DiTBlock.t F Rope) : Prop :=
  Linear_wf d (d * 6) (AdaLayerNormZero.linear (DiTBlock.attn_norm blk)) /\
  nonaffine (AdaLayerNormZero.norm (DiTBlock.attn_norm blk)) /\
  nonaffine (DiTBlock.ff_norm blk) /\
  (forall mask rope, preserves (b, n, d) (fun y => DiTBlock.attn blk y mask rope)) /\
  preserves (b, n, d) (DiTBlock.ff blk).

Definition zero_final (d : nat) (fin : AdaLayerNormZero_Final.t F) : Prop :=
  Linear_wf d (d * 2) (AdaLayerNormZero_Final.linear fin) /\
  zero_init (AdaLayerNormZero_Final.linear fin) /\
  nonaffine (AdaLayerNormZero_Final.norm fin).

(** The timestep argument suits a batch of [b]: a scalar, or a vector of
    length [b]. *)
Definition time_fits (b : nat) (time : time_arg F) : Prop :=
  match time with TimeScalar _ => True | TimeVector v => length v = b end.

(** [norm(x) * (1 + scale) + shift] with [scale] and [shift] of shape (b, d)
    stretched along the sequence axis, written position by position. *)
Definition modulate_row (ln : LayerNorm F) (scale shift r : list F) : list F :=
  zipWith fadd (zipWith fmul (layer_norm_row ln r) (map (fadd f1) scale)) shift.

Definition modulate (ln : LayerNorm F) (x : array3 F) (scale shift : array2 F) : array3 F :=
  {| shape3 := shape3 x;
     data3 := zipWith (fun mat ss => map (modulate_row ln (fst ss) (snd ss)) mat)
                (data3 x) (combine (data2 scale) (data2 shift)) |}.

(** The [i]-th of the equal parts of width [d] of a projected embedding. *)
Definition part (d i : nat) (emb : array2 F) : array2 F :=
  {| shape2 := (dim0_2 emb, d); data2 := map (chunk d i) (data2 emb) |}.

End Contracts.

Arguments ExactArith F {SF}.

(** ** Zeroing the modulation projections

    What AdaLN-Zero initialisation does to a freshly built model: every
    modulation projection gets zero weights and zero biases. *)
Section ZeroModulation.
Variables F Rope : Type.
Context {SF : Scalar F}.

Definition zero_Linear (l : Linear F) : Linear F :=
  {| weight := full2 (shape2 (weight l)) f0;
     bias := match bias l with
             | Some b => Some (repeat f0 (length b))
             | None => None
             end |}.

Definition zero_block_modulation (blk : DiTBlock.t F Rope) : DiTBlock.t F Rope :=
  {| DiTBlock.attn_norm :=
       {| AdaLayerNormZero.linear :=
            zero_Linear (AdaLayerNormZero.linear (DiTBlock.attn_norm blk));
          AdaLayerNormZero.norm := AdaLayerNormZero.norm (DiTBlock.attn_norm blk) |};
     DiTBlock.attn := DiTBlock.attn blk;
     DiTBlock.ff_norm := DiTBlock.ff_norm blk;
     DiTBlock.ff := DiTBlock.ff blk |}.

Definition zero_modulation (self : DiT.t F Rope) : DiT.t F Rope :=
  {| DiT.time_embed := DiT.time_embed self;
     DiT.text_embed := DiT.text_embed self;
     DiT.input_embed := DiT.input_embed self;
     DiT.rotary_embed := DiT.rotary_embed self;
     DiT.self_dim := DiT.self_dim self;
     DiT.self_depth := DiT.self_depth self;
     DiT.transformer_blocks := map zero_block_modulation (DiT.transformer_blocks self);
     DiT.self_long_skip_connection := DiT.self_long_skip_connection self;
     DiT.norm_out :=
       {| AdaLayerNormZero_Final.linear :=
            zero_Linear (AdaLayerNormZero_Final.linear (DiT.norm_out self));
          AdaLayerNormZero_Final.norm := AdaLayerNormZero_Final.norm (DiT.norm_out self) |};
     DiT.proj_out := DiT.proj_out self |}.

End ZeroModulation.

(** ** An exact integer runtime

    The model runs as it stands on integers: arithmetic is exact, which makes
    small examples computable. *)

#[export] Instance integer_scalar : Scalar Z := {
  f0 := 0;
  f1 := 1;
  fadd := Z.add;
  fsub := Z.sub;
  fmul := Z.mul;
  fdiv := Z.div;
  frsqrt := fun _ => 1;
  fsigmoid := fun v => if 0 <=? v then 1 else 0;
  fconst := fun q => Qnum q / Zpos (Qden q);
  fof_nat := Z.of_nat;
  gather_oob := fun _ i j => i + Z.of_nat j;
  sample := fun i j => Z.of_nat (i + j)
}.

Definition map3 {A B} (f : A -> B) (x : array3 A) : array3 B :=
  {| shape3 := shape3 x; data3 := map (map (map f)) (data3 x) |}.

(** Shape-preserving stand-ins for the collaborators: every constructor
    accepts its arguments. *)
#[export] Instance pointwise_modules : Modules Z unit := {
  Attention := fun _ _ _ _ => Ok (fun x _ _ => map3 (fun v => 2 * v + 1) x);
  FeedForward := fun _ _ _ => Ok (map3 (fun v => v * v));
  RotaryEmbedding := fun _ => Ok (fun _ => tt);
  TimestepEmbedding := fun dim =>
    Ok (fun time => {| shape2 := (length time, dim);
                       data2 := map (fun s => repeat s dim) time |});
  ConvNeXtV2Block := fun _ _ => Ok (map3 (fun v => v + 1));
  ConvPositionEmbedding := fun _ => Ok (map3 (fun v => 3 * v));
  precompute_freqs_cis := fun dim max_pos => full2 (max_pos, dim) 1;
  get_pos_embed_indices := fun start length max_pos =>
    {| shape2 := (List.length start, length);
       data2 := map (fun s => map (fun i => s + Z.of_nat i) (seq 0 length)) start |}
}.


(** A smallest configuration with a long skip connection, and inputs for it. *)
Definition tiny : DiT.kwargs :=
  {| DiT.dim := 2; DiT.depth := 1; DiT.heads := 1; DiT.dim_head := 2;
     DiT.dropout := 0%Q; DiT.ff_mult := 1; DiT.mel_dim := 2;
     DiT.text_num_embeds := 3; DiT.text_dim := None; DiT.conv_layers := 0;
     DiT.long_skip_connection := true |}.

Definition x_1_2_2 : array3 Z := {| shape3 := (1, 2, 2)%nat; data3 := [[[1; 2]; [3; 4]]] |}.
Definition text_1_3 : array2 Z := {| shape2 := (1, 3)%nat; data2 := [[0; 1; 2]] |}.
Definition text_1_1 : array2 Z := {| shape2 := (1, 1)%nat; data2 := [[2]] |}.

Definition t_1_2 : array2 Z := {| shape2 := (1, 2)%nat; data2 := [[5; 7]] |}.

(** [kw] with the [text_dim] argument replaced. *)
Definition with_text_dim (kw : DiT.kwargs) (text_dim : option nat) : DiT.kwargs :=
  {| DiT.dim := DiT.dim kw; DiT.depth := DiT.depth kw; DiT.heads := DiT.heads kw;
     DiT.dim_head := DiT.dim_head kw; DiT.dropout := DiT.dropout kw;
     DiT.ff_mult := DiT.ff_mult kw; DiT.mel_dim := DiT.mel_dim kw;
     DiT.text_num_embeds := DiT.text_num_embeds kw; DiT.text_dim := text_dim;
     DiT.conv_layers := DiT.conv_layers kw;
     DiT.long_skip_connection := DiT.long_skip_connection kw |}.

(** [kw] with the [depth] and [heads] arguments replaced. *)
Definition with_depth_heads (kw : DiT.kwargs) (depth heads : Z) : DiT.kwargs :=
  {| DiT.dim := DiT.dim kw; DiT.depth := depth; DiT.heads := heads;
     DiT.dim_head := DiT.dim_head kw; DiT.dropout := DiT.dropout kw;
     DiT.ff_mult := DiT.ff_mult kw; DiT.mel_dim := DiT.mel_dim kw;
     DiT.text_num_embeds := DiT.text_num_embeds kw; DiT.text_dim := DiT.text_dim kw;
     DiT.conv_layers := DiT.conv_layers kw;
     DiT.long_skip_connection := DiT.long_skip_connection kw |}.

(** A text batch padded by the caller with the filler id [-1] up to
    [seq_len] positions, as the batching of token lists does. *)
Definition filler_padded (text : array2 Z) (seq_len : nat) : array2 Z :=
  {| shape2 := (dim0_2 text, seq_len);
     data2 := map (fun r => r ++ repeat (-1) (seq_len - dim1_2 text)) (data2 text) |}.

(** Collaborators as [pointwise_modules], except that their constructors
    refuse what those of [f5_tts_mlx.modules] refuse: [Attention] a
    non-positive number of heads, [ConvPositionEmbedding] (a convolution in
    16 groups) a width that 16 does not divide. *)
Definition strict_modules : Modules Z unit :=
  {| Attention := fun dim heads dim_head dropout =>
       if heads <=? 0 then Raise ExternalError
       else Attention (Modules := pointwise_modules) dim heads dim_head dropout;
     FeedForward := FeedForward (Modules := pointwise_modules);
     RotaryEmbedding := RotaryEmbedding (Modules := pointwise_modules);
     TimestepEmbedding := TimestepEmbedding (Modules := pointwise_modules);
     ConvNeXtV2Block := ConvNeXtV2Block (Modules := pointwise_modules);
     ConvPositionEmbedding := fun dim =>
       if Nat.eqb (dim mod 16) 0
       then ConvPositionEmbedding (Modules := pointwise_modules) dim
       else Raise ExternalError;
     precompute_freqs_cis := precompute_freqs_cis (Modules := pointwise_modules);
     get_pos_embed_indices := get_pos_embed_indices (Modules := pointwise_modules) |}.

Definition cond_1_3_2 : array3 Z :=
  {| shape3 := (1, 3, 2)%nat; data3 := [[[1; 1]; [2; 2]; [3; 3]]] |}.

Definition cond_1_2_2 : array3 Z := {| shape3 := (1, 2, 2)%nat; data3 := [[[9; 8]; [7; 6]]] |}.

Definition text_1_1' : array2 Z := {| shape2 := (1, 1)%nat; data2 := [[0]] |}.

(** A small configuration that the constructors of [strict_modules] accept
    (16 divides [dim]), with a long skip connection. *)
Definition small : DiT.kwargs :=
  {| DiT.dim := 16; DiT.depth := 1; DiT.heads := 1; DiT.dim_head := 2;
     DiT.dropout := 0%Q; DiT.ff_mult := 1; DiT.mel_dim := 2;
     DiT.text_num_embeds := 3; DiT.text_dim := None; DiT.conv_layers := 0;
     DiT.long_skip_connection := true |}.

(** A batch of two. *)
Definition x_2_1_2 : array3 Z := {| shape3 := (2, 1, 2)%nat; data3 := [[[1; 2]]; [[3; 4]]] |}.
Definition text_2_1 : array2 Z := {| shape2 := (2, 1)%nat; data2 := [[0]; [2]] |}.


(** * Properties *)

(** ** Lists and the error monad *)

Lemma bind_ok {A B} (r : result A) (k : A -> result B) (b : B) :
  bind r k = Ok b -> exists a, r = Ok a /\ k a = Ok b.
Proof.
  destruct r as [a|e]; simpl; intros H; [eauto | discriminate].
Qed.

Lemma firstn_repeat_min {A} (a : A) (k n : nat) :
  firstn n (repeat a k) = repeat a (Nat.min n k).
Proof.
  revert k; induction n as [|n IH]; intros [|k]; simpl; try reflexivity.
  now rewrite IH.
Qed.

Lemma repeat_all {A} (a : A) (l : list A) :
  Forall (fun e => e = a) l -> l = repeat a (length l).
Proof.
  induction 1 as [|e l He _ IH]; simpl; [reflexivity | now rewrite He, <- IH].
Qed.

Lemma map_ext_Forall {A B} (f g : A -> B) (l : list A) :
  Forall (fun a => f a = g a) l -> map f l = map g l.
Proof.
  induction 1 as [|a l Ha _ IH]; simpl; [reflexivity | now rewrite Ha, IH].
Qed.

(** ** The text encoder *)

Section TextEncoder.
Variables F Rope : Type.
Context {SF : Scalar F} {MD : Modules F Rope}.

Lemma mx_pad_high {A} (a : array2 A) (hi : Z) (cv : A) :
  mx_pad a ((0, 0), (0, hi)) cv =
  if hi <? 0 then Raise PadNegative
  else Ok {| shape2 := (dim0_2 a, (dim1_2 a + Z.to_nat hi)%nat);
             data2 := map (fun r => r ++ repeat cv (Z.to_nat hi)) (data2 a) |}.
Proof.
  unfold mx_pad. change (0 <? 0) with false. simpl orb.
  destruct (hi <? 0); [reflexivity|].
  change (Z.to_nat 0) with 0%nat. simpl repeat. simpl app.
  rewrite app_nil_r, Nat.add_0_r. reflexivity.
Qed.

(** [TextEmbedding.__call__] is its two stages in sequence. *)
Lemma TextEmbedding_call_stages (self : TextEmbedding.t F) text seq_len drop_text :
  TextEmbedding.call (Rope := Rope) self text seq_len drop_text =
  let* ids := shift_and_pad text seq_len in
  embed_ids (Rope := Rope) self (dim0_2 text) seq_len
    (if drop_text then zeros_like2 ids else ids).
Proof. reflexivity. Qed.

(** The pad width is computed from the length before curtailing: a text
    longer than the target makes it negative. *)
Lemma shift_and_pad_longer text seq_len :
  (seq_len < dim1_2 text)%nat -> shift_and_pad text seq_len = Raise PadNegative.
Proof.
  intros H. unfold shift_and_pad. rewrite mx_pad_high.
  destruct (Z.ltb_spec (Z.of_nat seq_len - Z.of_nat (dim1_2 text)) 0); [reflexivity | lia].
Qed.

Lemma TextEmbedding_call_longer (self : TextEmbedding.t F) text seq_len drop_text :
  (seq_len < dim1_2 text)%nat ->
  TextEmbedding.call (Rope := Rope) self text seq_len drop_text = Raise PadNegative.
Proof.
  intros H. rewrite TextEmbedding_call_stages, shift_and_pad_longer by exact H.
  reflexivity.
Qed.

(** A text no longer than the target is shifted and right-padded with the
    filler id 0 to exactly the target length. *)
Lemma shift_and_pad_shorter text seq_len :
  wf2 text -> (dim1_2 text <= seq_len)%nat ->
  shift_and_pad text seq_len =
  Ok {| shape2 := (dim0_2 text, seq_len);
        data2 := map (fun r => map (fun v => v + 1) r
                               ++ repeat 0 (seq_len - dim1_2 text)) (data2 text) |}.
Proof.
  intros [_ Hrows] Hle. unfold shift_and_pad. rewrite mx_pad_high.
  destruct (Z.ltb_spec (Z.of_nat seq_len - Z.of_nat (dim1_2 text)) 0); [lia|].
  f_equal. unfold slice_axis1, add_scalar2, dim0_2, dim1_2 in *. simpl.
  replace (Z.to_nat (Z.of_nat seq_len - Z.of_nat (snd (shape2 text))))
    with (seq_len - snd (shape2 text))%nat by lia.
  f_equal.
  - f_equal. lia.
  - rewrite !map_map. apply map_ext_Forall.
    eapply Forall_impl; [|exact Hrows]. intros r Hr. simpl in Hr.
    rewrite firstn_all2; [reflexivity|]. rewrite length_map. lia.
Qed.

Lemma shift_and_pad_shorter_wf text seq_len ids :
  wf2 text -> (dim1_2 text <= seq_len)%nat ->
  shift_and_pad text seq_len = Ok ids ->
  shape2 ids = (dim0_2 text, seq_len) /\ wf2 ids.
Proof.
  intros Hwf Hle. rewrite shift_and_pad_shorter by assumption.
  intros [= <-]. split; [reflexivity|].
  destruct Hwf as [Hlen Hrows]. unfold wf2, wf_rows, dim0_2, dim1_2 in *. simpl.
  rewrite length_map. split; [exact Hlen|].
  rewrite Forall_map. eapply Forall_impl; [|exact Hrows].
  intros r Hr. simpl in *. rewrite length_app, length_map, repeat_length. lia.
Qed.

End TextEncoder.

Section TextEncoderResults.
Variables F Rope : Type.
Context {SF : Scalar F} {MD : Modules F Rope}.

(** Without extra modeling, a text no longer than the target is embedded
    position by position: shifted ids first, then the filler row. *)
Lemma TextEmbedding_call_shorter (self : TextEmbedding.t F) text seq_len :
  wf2 text -> (dim1_2 text <= seq_len)%nat ->
  TextEmbedding.extra_modeling self = false ->
  TextEmbedding.call (Rope := Rope) self text seq_len false =
  Ok (take_rows (emb_weight (TextEmbedding.text_embed self))
        {| shape2 := (dim0_2 text, seq_len);
           data2 := map (fun r => map (fun v => v + 1) r
                                  ++ repeat 0 (seq_len - dim1_2 text)) (data2 text) |}).
Proof.
  intros Hwf Hle Hex. rewrite TextEmbedding_call_stages.
  rewrite shift_and_pad_shorter by assumption. simpl.
  unfold embed_ids. rewrite Hex. reflexivity.
Qed.

Lemma shift_and_pad_shape text seq_len ids :
  shift_and_pad text seq_len = Ok ids ->
  shape2 ids = (dim0_2 text,
                (Nat.min seq_len (dim1_2 text)
                 + Z.to_nat (Z.of_nat seq_len - Z.of_nat (dim1_2 text)))%nat).
Proof.
  unfold shift_and_pad. rewrite mx_pad_high.
  destruct (_ <? 0); [discriminate|]. intros [= <-]. reflexivity.
Qed.

(** An all-filler text is shifted and padded to the all-zero ids. *)
Lemma shift_and_pad_filler (sh : nat * nat) seq_len :
  shift_and_pad (full2 sh (-1)) seq_len =
  if Z.of_nat seq_len - Z.of_nat (snd sh) <? 0 then Raise PadNegative
  else Ok (full2 (fst sh, (Nat.min seq_len (snd sh)
                           + Z.to_nat (Z.of_nat seq_len - Z.of_nat (snd sh)))%nat) 0).
Proof.
  unfold shift_and_pad. rewrite mx_pad_high.
  change (dim1_2 (full2 sh (-1))) with (snd sh).
  destruct (_ <? 0); [reflexivity|].
  unfold full2, slice_axis1, add_scalar2, dim0_2, dim1_2. simpl.
  rewrite !map_repeat, firstn_repeat_min, <- repeat_app. reflexivity.
Qed.

(** Dropping the text is embedding an all-filler text of the same shape. *)
Lemma TextEmbedding_call_drop_text (self : TextEmbedding.t F) text seq_len :
  TextEmbedding.call (Rope := Rope) self text seq_len true =
  TextEmbedding.call (Rope := Rope) self (full2 (shape2 text) (-1)) seq_len false.
Proof.
  rewrite !TextEmbedding_call_stages, shift_and_pad_filler.
  change (dim0_2 (full2 (shape2 text) (-1))) with (dim0_2 text).
  destruct (shift_and_pad text seq_len) as [ids|e] eqn:E.
  - pose proof (shift_and_pad_shape _ _ E) as Hs.
    unfold shift_and_pad in E. rewrite mx_pad_high in E.
    change (snd (shape2 text)) with (dim1_2 text).
    destruct (_ <? 0); [discriminate|]. simpl.
    unfold zeros_like2. rewrite Hs. reflexivity.
  - unfold shift_and_pad in E. rewrite mx_pad_high in E.
    change (snd (shape2 text)) with (dim1_2 text).
    destruct (_ <? 0); [|discriminate]. injection E as <-. reflexivity.
Qed.

End TextEncoderResults.

(** ** The backbone as a sequence of stages *)

Section Backbone.
Variables F Rope : Type.
Context {SF : Scalar F} {MD : Modules F Rope}.

Lemma concatenate_pair (a b : array3 F) :
  concatenate a [b] = concatenate2 a b.
Proof. simpl. destruct (concatenate2 a b); reflexivity. Qed.

Lemma DiT_call_stages (self : DiT.t F Rope) x cond text time dac dt mask :
  DiT.call self x cond text time dac dt mask =
  let t := conditioning self (dim0_3 x) time in
  let* x0 := fuse self x cond text dac dt in
  let* xN := DiT.run_blocks (DiT.transformer_blocks self) x0 t mask
               (DiT.rotary_embed self (dim1_3 x)) in
  match DiT.self_long_skip_connection self with
  | Some long_skip =>
      let* c := concatenate2 xN x0 in
      let* y := Linear_call3 long_skip c in
      finish self y t
  | None => finish self xN t
  end.
Proof.
  unfold DiT.call, fuse, finish, conditioning. cbv zeta.
  destruct (TextEmbedding.call _ _ _ _) as [te|e]; [|reflexivity]. cbn [bind].
  destruct (InputEmbedding.call _ _ _ _ _) as [x0|e]; [|reflexivity]. cbn [bind].
  destruct (DiT.run_blocks _ _ _ _ _) as [xN|e];
    [|destruct (DiT.self_long_skip_connection self); reflexivity].
  cbn [bind].
  destruct (DiT.self_long_skip_connection self) as [l|]; [|reflexivity].
  rewrite concatenate_pair.
  destruct (concatenate2 xN x0) as [c|e]; [|reflexivity]. cbn [bind].
  destruct (Linear_call3 l c); reflexivity.
Qed.

End Backbone.

(** ** Broadcasting *)

Section Broadcasting.
Context {A B C : Type}.

Lemma length_zipWith (f : A -> B -> C) xs ys :
  length (zipWith f xs ys) = Nat.min (length xs) (length ys).
Proof.
  revert ys; induction xs as [|x xs IH]; intros [|y ys]; simpl; try reflexivity.
  now rewrite IH.
Qed.

Lemma bzip_same_length (f : A -> B -> C) xs ys :
  length xs = length ys -> bzip f xs ys = zipWith f xs ys.
Proof.
  intros H. unfold bzip. now rewrite H, Nat.eqb_refl.
Qed.

Lemma bzip_singleton_r (f : A -> B -> C) xs y :
  bzip f xs [y] = map (fun x => f x y) xs.
Proof.
  unfold bzip. destruct xs as [|x [|x' xs]]; reflexivity.
Qed.

Lemma bzip_singleton_l (f : A -> B -> C) x ys :
  bzip f [x] ys = map (f x) ys.
Proof.
  unfold bzip. destruct ys as [|y [|y' ys]]; reflexivity.
Qed.

Lemma zipWith_repeat_r (f : A -> B -> C) xs y :
  zipWith f xs (repeat y (length xs)) = map (fun x => f x y) xs.
Proof.
  induction xs as [|x xs IH]; simpl; [reflexivity | now rewrite IH].
Qed.

Lemma zipWith_repeat_l (f : A -> B -> C) x ys :
  zipWith f (repeat x (length ys)) ys = map (f x) ys.
Proof.
  induction ys as [|y ys IH]; simpl; [reflexivity | now rewrite IH].
Qed.

End Broadcasting.

Lemma map_id_Forall {A} (f : A -> A) (l : list A) :
  Forall (fun a => f a = a) l -> map f l = l.
Proof.
  induction 1 as [|a l Ha _ IH]; simpl; [reflexivity | now rewrite Ha, IH].
Qed.

Lemma map_const_Forall {A B} (f : A -> B) (c : B) (l : list A) :
  Forall (fun a => f a = c) l -> map f l = repeat c (length l).
Proof.
  induction 1 as [|a l Ha _ IH]; simpl; [reflexivity | now rewrite Ha, IH].
Qed.

Lemma combine_repeat_same {A B} (a : A) (b : B) (k : nat) :
  combine (repeat a k) (repeat b k) = repeat (a, b) k.
Proof.
  induction k as [|k IH]; simpl; [reflexivity | now rewrite IH].
Qed.

Lemma skipn_repeat_sub {A} (a : A) (k n : nat) :
  skipn n (repeat a k) = repeat a (k - n).
Proof.
  revert k; induction n as [|n IH]; intros [|k]; simpl; try reflexivity.
  apply IH.
Qed.

Lemma bdim_same n : bdim n n = Ok n.
Proof. unfold bdim. now rewrite Nat.eqb_refl. Qed.

Lemma bdim_one_r n : bdim n 1 = Ok n.
Proof.
  unfold bdim. destruct (Nat.eqb_spec n 1) as [->|]; [reflexivity|].
  reflexivity.
Qed.

Lemma bdim_one_l n : bdim 1 n = Ok n.
Proof.
  unfold bdim. destruct (Nat.eqb_spec 1 n) as [<-|]; reflexivity.
Qed.

Lemma bshape3_same s : bshape3 s s = Ok s.
Proof.
  destruct s as [[b n] d]. unfold bshape3. simpl. now rewrite !bdim_same.
Qed.

Lemma bshape3_seq_r b n d : bshape3 (b, n, d) (b, 1%nat, d) = Ok (b, n, d).
Proof.
  unfold bshape3. simpl. now rewrite !bdim_same, bdim_one_r.
Qed.

Lemma bshape3_seq_l b n d : bshape3 (b, 1%nat, d) (b, n, d) = Ok (b, n, d).
Proof.
  unfold bshape3. simpl. now rewrite !bdim_same, bdim_one_l.
Qed.

Section BroadcastRows.
Context {A : Type}.

(** A (b, 1, d) operand on the right is stretched along the sequence axis. *)
Lemma bzip3_seq_r (f : A -> A -> A) (X : list (list (list A))) (S : list (list A)) n d :
  length X = length S ->
  Forall (wf_rows n d) X -> Forall (fun s => length s = d) S ->
  bzip (bzip (bzip f)) X (map (fun s => [s]) S) =
  zipWith (fun mat s => map (fun r => zipWith f r s) mat) X S.
Proof.
  intros Hlen HX HS.
  rewrite bzip_same_length by now rewrite length_map.
  revert S Hlen HS. induction HX as [|mat X [_ Hmat] _ IH]; intros [|s S] Hlen HS;
    try discriminate; [reflexivity|].
  simpl. inversion HS as [|? ? Hs HS']; subst.
  rewrite IH by (simpl in Hlen; auto; lia).
  f_equal. rewrite bzip_singleton_r. apply map_ext_Forall.
  eapply Forall_impl; [|exact Hmat]. intros r Hr. simpl in *.
  apply bzip_same_length. congruence.
Qed.

(** A (b, 1, d) operand on the left likewise. *)
Lemma bzip3_seq_l (f : A -> A -> A) (S : list (list A)) (X : list (list (list A))) n d :
  length X = length S ->
  Forall (wf_rows n d) X -> Forall (fun s => length s = d) S ->
  bzip (bzip (bzip f)) (map (fun s => [s]) S) X =
  zipWith (fun s mat => map (fun r => zipWith f s r) mat) S X.
Proof.
  intros Hlen HX HS.
  rewrite bzip_same_length by now rewrite length_map.
  revert S Hlen HS. induction HX as [|mat X [_ Hmat] _ IH]; intros [|s S] Hlen HS;
    try discriminate; [reflexivity|].
  simpl. inversion HS as [|? ? Hs HS']; subst.
  rewrite IH by (simpl in Hlen; auto; lia).
  f_equal. rewrite bzip_singleton_l. apply map_ext_Forall.
  eapply Forall_impl; [|exact Hmat]. intros r Hr. simpl in *.
  apply bzip_same_length. congruence.
Qed.

(** Operands of one shape are combined entry by entry. *)
Lemma bzip3_same (f : A -> A -> A) (X Y : list (list (list A))) n d :
  length X = length Y ->
  Forall (wf_rows n d) X -> Forall (wf_rows n d) Y ->
  bzip (bzip (bzip f)) X Y = zipWith (zipWith (zipWith f)) X Y.
Proof.
  intros Hlen HX. rewrite bzip_same_length by exact Hlen.
  revert Y Hlen. induction HX as [|mx X [Hn Hmx] _ IH]; intros [|my Y] Hlen HY;
    try discriminate; [reflexivity|].
  simpl. inversion HY as [|? ? [Hn' Hmy] HY']; subst.
  rewrite IH by (simpl in Hlen; auto; lia). f_equal.
  rewrite bzip_same_length by congruence.
  clear IH Hlen HY HY'. revert my Hn' Hmy.
  induction Hmx as [|rx mx Hrx _ IH]; intros [|ry my] Hn' Hmy;
    try discriminate; [reflexivity|].
  simpl. inversion Hmy; subst.
  rewrite IH by (simpl in Hn'; auto; lia). f_equal.
  apply bzip_same_length. congruence.
Qed.

End BroadcastRows.

(** ** Normalisation and modulation *)

Section Modulation.
Variable F : Type.
Context {SF : Scalar F}.

Lemma wf3_shape (x : array3 F) b n d :
  shape3 x = (b, n, d) -> wf3 x ->
  length (data3 x) = b /\ Forall (wf_rows n d) (data3 x).
Proof.
  unfold wf3, dim0_3, dim1_3, dim2_3. intros ->. simpl. auto.
Qed.

Lemma wf2_shape {A} (a : array2 A) b d :
  shape2 a = (b, d) -> wf2 a ->
  length (data2 a) = b /\ Forall (fun r => length r = d) (data2 a).
Proof.
  unfold wf2, wf_rows, dim0_2, dim1_2. intros ->. simpl. auto.
Qed.

Lemma length_normalize eps (r : list F) : length (normalize eps r) = length r.
Proof. unfold normalize. apply length_map. Qed.

(** Without affine parameters the layer norm is the bare normalisation:
    every entry minus the row mean, times the inverse standard deviation. *)
Lemma layer_norm_row_nonaffine (ln : LayerNorm F) r :
  nonaffine ln -> layer_norm_row ln r = normalize (ln_eps ln) r.
Proof.
  intros [Hw Hb]. unfold layer_norm_row. now rewrite Hw, Hb.
Qed.

Lemma LayerNorm_rows_wf (ln : LayerNorm F) X n d :
  nonaffine ln -> Forall (wf_rows n d) X ->
  Forall (wf_rows n d) (map (map (layer_norm_row ln)) X).
Proof.
  intros Hln HX. rewrite Forall_map. eapply Forall_impl; [|exact HX].
  intros mat [Hn Hrows]. split; [now rewrite length_map|].
  rewrite Forall_map. eapply Forall_impl; [|exact Hrows].
  intros r Hr. simpl in *. now rewrite layer_norm_row_nonaffine, length_normalize.
Qed.

Lemma LayerNorm_call_wf (ln : LayerNorm F) x :
  nonaffine ln -> wf3 x -> wf3 (LayerNorm_call ln x).
Proof.
  intros Hln [Hb HX]. split.
  - unfold LayerNorm_call, dim0_3 in *. simpl. now rewrite length_map.
  - now apply LayerNorm_rows_wf.
Qed.

Lemma modulate_data (ln : LayerNorm F) X S SH :
  zipWith (fun mat s => map (fun r => zipWith fadd r s) mat)
    (zipWith (fun mat s => map (fun r => zipWith fmul r s) mat)
       (map (map (layer_norm_row ln)) X) (map (map (fadd f1)) S)) SH =
  zipWith (fun mat ss => map (modulate_row ln (fst ss) (snd ss)) mat) X (combine S SH).
Proof.
  revert S SH. induction X as [|mat X IH]; intros [|s S] [|sh SH]; simpl; try reflexivity.
  rewrite IH. f_equal. now rewrite !map_map.
Qed.

Lemma modulated_rows_wf (ln : LayerNorm F) X S n d :
  nonaffine ln -> length X = length S ->
  Forall (wf_rows n d) X -> Forall (fun s => length s = d) S ->
  Forall (wf_rows n d)
    (zipWith (fun mat s => map (fun r => zipWith fmul r s) mat)
       (map (map (layer_norm_row ln)) X) (map (map (fadd f1)) S)).
Proof.
  intros Hln Hlen HX. revert S Hlen.
  induction HX as [|mat X [Hn Hmat] _ IH]; intros [|s S] Hlen HS;
    try discriminate; simpl; constructor.
  - inversion HS; subst. split; [now rewrite !length_map|].
    rewrite map_map, Forall_map. eapply Forall_impl; [|exact Hmat].
    intros r Hr. simpl in *.
    rewrite length_zipWith, layer_norm_row_nonaffine, length_normalize, length_map by assumption.
    lia.
  - inversion HS; subst. apply IH; [simpl in Hlen; lia | assumption].
Qed.

(** [norm(x) * (1 + scale) + shift], with both vectors stretched along the
    sequence axis, never raises on matching shapes and is [modulate]. *)
Lemma modulation (ln : LayerNorm F) x scale shift b n d :
  nonaffine ln ->
  shape3 x = (b, n, d) -> wf3 x ->
  shape2 scale = (b, d) -> wf2 scale ->
  shape2 shift = (b, d) -> wf2 shift ->
  (let* scaled := mul3 (LayerNorm_call ln x) (scalar_add3 f1 (expand_dims scale)) in
   add3 scaled (expand_dims shift)) = Ok (modulate ln x scale shift).
Proof.
  intros Hln Hx Hwx Hsc Hwsc Hsh Hwsh.
  destruct (wf3_shape Hx Hwx) as [HbX HX].
  destruct (wf2_shape Hsc Hwsc) as [HbS HS].
  destruct (wf2_shape Hsh Hwsh) as [HbSH HSH].
  unfold mul3, add3, binop3, LayerNorm_call, scalar_add3, expand_dims, dim0_2, dim1_2.
  cbn [shape3 data3]. rewrite Hx, Hsc, Hsh. cbn [fst snd].
  rewrite bshape3_seq_r. cbn [bind shape3 data3]. rewrite bshape3_seq_r. cbn [bind].
  unfold modulate. rewrite Hx. f_equal. f_equal.
  rewrite <- modulate_data.
  replace (map (map (map (fadd f1))) (map (fun r => [r]) (data2 scale)))
    with (map (fun s => [s]) (map (map (fadd f1)) (data2 scale)))
    by (now rewrite !map_map).
  assert (HS' : Forall (fun s => length s = d) (map (map (fadd f1)) (data2 scale))).
  { rewrite Forall_map. eapply Forall_impl; [|exact HS]. intros s Hs. simpl.
    now rewrite length_map. }
  rewrite (@bzip3_seq_r F fmul _ _ n d);
    [| now rewrite !length_map, HbX, HbS
     | now apply LayerNorm_rows_wf
     | exact HS'].
  rewrite (@bzip3_seq_r F fadd _ _ n d); [reflexivity | | | exact HSH].
  - rewrite length_zipWith, !length_map. lia.
  - apply modulated_rows_wf; auto. lia.
Qed.

Lemma modulate_wf (ln : LayerNorm F) x scale shift b n d :
  nonaffine ln ->
  shape3 x = (b, n, d) -> wf3 x ->
  shape2 scale = (b, d) -> wf2 scale ->
  shape2 shift = (b, d) -> wf2 shift ->
  shape3 (modulate ln x scale shift) = (b, n, d) /\ wf3 (modulate ln x scale shift).
Proof.
  intros Hln Hx Hwx Hsc Hwsc Hsh Hwsh.
  destruct (wf3_shape Hx Hwx) as [HbX HX].
  destruct (wf2_shape Hsc Hwsc) as [HbS HS].
  destruct (wf2_shape Hsh Hwsh) as [HbSH HSH].
  split; [exact Hx|].
  unfold wf3, modulate, dim0_3, dim1_3, dim2_3. cbn [shape3 data3]. rewrite Hx. cbn [fst snd].
  split.
  - rewrite length_zipWith, length_combine. lia.
  - clear Hwx Hwsc Hwsh Hx Hsc Hsh. subst b.
    revert HbS HbSH HS HSH. generalize (data2 scale) (data2 shift).
    induction HX as [|mat X [Hn Hmat] _ IH]; intros [|s S] [|sh SH] HbS HbSH HS HSH;
      try discriminate; simpl; constructor.
    + inversion HS; inversion HSH; subst. split; [now rewrite length_map|].
      rewrite Forall_map. eapply Forall_impl; [|exact Hmat]. intros r Hr. simpl in *.
      unfold modulate_row.
      rewrite !length_zipWith, layer_norm_row_nonaffine, length_normalize, length_map
        by assumption.
      lia.
    + inversion HS; inversion HSH; subst.
      apply IH; simpl in *; auto; lia.
Qed.

End Modulation.

(** ** Linear projections and the split *)

Section Projection.
Variable F : Type.
Context {SF : Scalar F}.

Lemma linear_row_length (l : Linear F) i o x :
  Linear_wf i o l -> length (linear_row l x) = o.
Proof.
  intros (Hs & [Hrows _] & Hb). unfold linear_row, dim0_2 in *. rewrite Hs in Hrows.
  simpl in Hrows.
  destruct (bias l) as [b|].
  - rewrite bzip_same_length by (rewrite length_map; congruence).
    rewrite length_zipWith, length_map. lia.
  - now rewrite length_map.
Qed.

Lemma Linear_wf_fits (l : Linear F) i o : Linear_wf i o l -> bias_fits l = true.
Proof.
  intros (Hs & _ & Hb). unfold bias_fits, dim0_2. rewrite Hs. simpl.
  destruct (bias l); [|reflexivity]. rewrite Hb, Nat.eqb_refl. reflexivity.
Qed.

Lemma Linear_call2_wf (l : Linear F) i o x b :
  Linear_wf i o l -> shape2 x = (b, i) ->
  Linear_call2 l x = Ok {| shape2 := (b, o); data2 := map (linear_row l) (data2 x) |}.
Proof.
  intros Hl Hx. unfold Linear_call2. rewrite (Linear_wf_fits Hl).
  destruct Hl as (Hs & _). unfold dim0_2, dim1_2. rewrite Hx, Hs. simpl.
  now rewrite Nat.eqb_refl.
Qed.

Lemma Linear_call3_wf (l : Linear F) i o x b n :
  Linear_wf i o l -> shape3 x = (b, n, i) ->
  Linear_call3 l x = Ok {| shape3 := (b, n, o); data3 := map (map (linear_row l)) (data3 x) |}.
Proof.
  intros Hl Hx. unfold Linear_call3. rewrite (Linear_wf_fits Hl).
  destruct Hl as (Hs & _). unfold dim0_2, dim1_2, dim0_3, dim1_3, dim2_3.
  rewrite Hx, Hs. simpl. now rewrite Nat.eqb_refl.
Qed.

Lemma projected_wf (l : Linear F) i o (rows : list (list F)) b :
  Linear_wf i o l -> length rows = b ->
  wf2 {| shape2 := (b, o); data2 := map (linear_row l) rows |}.
Proof.
  intros Hl Hb. unfold wf2, wf_rows, dim0_2, dim1_2. simpl. split.
  - now rewrite length_map.
  - rewrite Forall_map. apply Forall_forall. intros r _. now apply linear_row_length with i.
Qed.

Lemma chunk_length (d k i : nat) (r : list F) :
  length r = (d * k)%nat -> (i < k)%nat -> length (chunk d i r) = d.
Proof.
  intros Hr Hi. unfold chunk. rewrite length_firstn, length_skipn, Hr. nia.
Qed.

Lemma part_wf (d k i : nat) (emb : array2 F) b :
  shape2 emb = (b, (d * k)%nat) -> wf2 emb -> (i < k)%nat ->
  shape2 (part d i emb) = (b, d) /\ wf2 (part d i emb).
Proof.
  intros Hs Hwf Hi. destruct (wf2_shape Hs Hwf) as [Hb Hrows].
  unfold part, wf2, wf_rows, dim0_2, dim1_2. rewrite Hs. simpl.
  split; [reflexivity|]. split; [now rewrite length_map|].
  rewrite Forall_map. eapply Forall_impl; [|exact Hrows].
  intros r Hr. now apply chunk_length with k.
Qed.

(** [mx.split(emb, k, axis=1)] on a width-[d * k] array: the [k] parts in
    order of increasing offset. *)
Lemma mx_split_parts (emb : array2 F) (d k : nat) b :
  (0 < k)%nat -> shape2 emb = (b, (d * k)%nat) ->
  mx_split emb k = Ok (map (fun i => part d i emb) (seq 0 k)).
Proof.
  intros Hk Hs. unfold mx_split, dim1_2. rewrite Hs. simpl snd.
  destruct (Nat.eqb_spec k 0); [lia|].
  rewrite Nat.Div0.mod_mul, Nat.div_mul by lia. reflexivity.
Qed.

End Projection.

(** ** AdaLN-Zero, block variant *)

Section AdaLN.
Variable F : Type.
Context {SF : Scalar F}.

(** What [AdaLayerNormZero.__call__] returns once the projection of
    [silu(emb)] is known to be [proj], of width 6d. *)
Lemma AdaLayerNormZero_call_spec (self : AdaLayerNormZero.t F) x emb proj b n d :
  nonaffine (AdaLayerNormZero.norm self) ->
  shape3 x = (b, n, d) -> wf3 x ->
  Linear_call2 (AdaLayerNormZero.linear self) (SiLU_call emb) = Ok proj ->
  shape2 proj = (b, (d * 6)%nat) -> wf2 proj ->
  AdaLayerNormZero.call self x emb =
  Ok (modulate (AdaLayerNormZero.norm self) x (part d 1 proj) (part d 0 proj),
      part d 2 proj, part d 3 proj, part d 4 proj, part d 5 proj).
Proof.
  intros Hln Hx Hwx Hproj Hs Hwf. unfold AdaLayerNormZero.call.
  rewrite Hproj. cbn [bind].
  rewrite (@mx_split_parts F proj d 6 b) by (auto; lia). cbn [bind seq map].
  destruct (@part_wf F d 6 1 proj b Hs Hwf ltac:(lia)) as [Hs1 Hw1].
  destruct (@part_wf F d 6 0 proj b Hs Hwf ltac:(lia)) as [Hs0 Hw0].
  pose proof (modulation Hln Hx Hwx Hs1 Hw1 Hs0 Hw0) as Hm.
  apply bind_ok in Hm as (scaled & Hmul & Hadd).
  rewrite Hmul. cbn [bind]. rewrite Hadd. reflexivity.
Qed.

Lemma AdaLayerNormZero_Final_call_spec (self : AdaLayerNormZero_Final.t F) x emb proj b n d :
  nonaffine (AdaLayerNormZero_Final.norm self) ->
  shape3 x = (b, n, d) -> wf3 x ->
  Linear_call2 (AdaLayerNormZero_Final.linear self) (SiLU_call emb) = Ok proj ->
  shape2 proj = (b, (d * 2)%nat) -> wf2 proj ->
  AdaLayerNormZero_Final.call self x emb =
  Ok (modulate (AdaLayerNormZero_Final.norm self) x (part d 0 proj) (part d 1 proj)).
Proof.
  intros Hln Hx Hwx Hproj Hs Hwf. unfold AdaLayerNormZero_Final.call.
  rewrite Hproj. cbn [bind].
  rewrite (@mx_split_parts F proj d 2 b) by (auto; lia). cbn [bind seq map].
  destruct (@part_wf F d 2 1 proj b Hs Hwf ltac:(lia)) as [Hs1 Hw1].
  destruct (@part_wf F d 2 0 proj b Hs Hwf ltac:(lia)) as [Hs0 Hw0].
  exact (modulation Hln Hx Hwx Hs0 Hw0 Hs1 Hw1).
Qed.

(** The projection of [silu(emb)] exists and is well formed whenever the
    weights have the sizes [nn.Linear(d, o)] gives them. *)
Lemma projected_embedding (l : Linear F) emb b d o :
  Linear_wf d o l -> shape2 emb = (b, d) -> wf2 emb ->
  let proj := {| shape2 := (b, o);
                 data2 := map (linear_row l) (map (map silu) (data2 emb)) |} in
  Linear_call2 l (SiLU_call emb) = Ok proj /\ shape2 proj = (b, o) /\ wf2 proj.
Proof.
  intros Hl Hs Hwf. destruct (wf2_shape Hs Hwf) as [Hb _]. cbv zeta.
  split; [|split].
  - apply Linear_call2_wf with d; [exact Hl | exact Hs].
  - reflexivity.
  - apply projected_wf with d; [exact Hl | now rewrite length_map].
Qed.

End AdaLN.

(** ** Zero-initialised modulation *)

Section ZeroInit.
Variables F Rope : Type.
Context {SF : Scalar F} {EA : ExactArith F}.

Lemma exact_fadd_0_r (a : F) : fadd a f0 = a.
Proof. exact (fadd_0_r a). Qed.

Lemma exact_fmul_0_l (a : F) : fmul f0 a = f0.
Proof. exact (fmul_0_l a). Qed.

Lemma exact_fmul_0_r (a : F) : fmul a f0 = f0.
Proof. exact (fmul_0_r a). Qed.

Lemma exact_fmul_1_r (a : F) : fmul a f1 = a.
Proof. exact (fmul_1_r a). Qed.

Lemma fadd_0_0 : fadd f0 f0 = (f0 : F).
Proof. apply exact_fadd_0_r. Qed.

Lemma dot_zero (x w : list F) : Forall (fun v => v = f0) w -> dot x w = f0.
Proof.
  intros Hw. revert x. induction Hw as [|v w Hv _ IH]; intros [|a x]; try reflexivity.
  unfold dot in *. simpl. rewrite IH, Hv, exact_fmul_0_r. apply fadd_0_0.
Qed.

Lemma linear_row_zero (l : Linear F) i o x :
  Linear_wf i o l -> zero_init l -> linear_row l x = repeat f0 o.
Proof.
  intros (Hs & [Hrows _] & Hb) [Hw Hz]. unfold linear_row, dim0_2 in *.
  rewrite Hs in Hrows. simpl in Hrows.
  assert (Hy : map (dot x) (data2 (weight l)) = repeat f0 o).
  { rewrite <- Hrows. apply map_const_Forall.
    eapply Forall_impl; [|exact Hw]. intros w. apply dot_zero. }
  rewrite Hy. destruct (bias l) as [b|]; [|reflexivity].
  rewrite (repeat_all Hz), Hb.
  rewrite bzip_same_length by now rewrite !repeat_length.
  rewrite <- (repeat_length f0 o) at 1. rewrite zipWith_repeat_l.
  rewrite map_repeat. now rewrite fadd_0_0.
Qed.

(** A zero projection sends every embedding to the zero array. *)
Lemma zero_projection (l : Linear F) emb b d o :
  Linear_wf d o l -> zero_init l -> shape2 emb = (b, d) -> wf2 emb ->
  Linear_call2 l (SiLU_call emb) = Ok (full2 (b, o) f0).
Proof.
  intros Hl Hz Hs Hwf. destruct (wf2_shape Hs Hwf) as [Hb _].
  destruct (projected_embedding Hl Hs Hwf) as [-> _]. f_equal.
  unfold full2. simpl. f_equal.
  rewrite map_map. rewrite <- Hb. apply map_const_Forall.
  apply Forall_forall. intros r _. now apply linear_row_zero with d.
Qed.

Lemma full2_wf {A} (b d : nat) (v : A) : wf2 (full2 (b, d) v).
Proof.
  unfold wf2, wf_rows, full2, dim0_2, dim1_2. simpl. split; [apply repeat_length|].
  apply Forall_forall. intros r Hr. apply repeat_spec in Hr. subst. apply repeat_length.
Qed.

Lemma part_zero (d k i b : nat) :
  (i < k)%nat -> part d i (full2 (b, (d * k)%nat) (f0 : F)) = full2 (b, d) f0.
Proof.
  intros Hi. unfold part, full2, dim0_2. simpl. f_equal.
  rewrite map_repeat. f_equal. unfold chunk.
  rewrite skipn_repeat_sub, firstn_repeat_min. f_equal. nia.
Qed.

(** With scale and shift zero, the modulated tensor is the normalised one. *)
Lemma modulate_zero (ln : LayerNorm F) x b n d :
  nonaffine ln -> shape3 x = (b, n, d) -> wf3 x ->
  modulate ln x (full2 (b, d) f0) (full2 (b, d) f0) = LayerNorm_call ln x.
Proof.
  intros Hln Hx Hwx. destruct (wf3_shape Hx Hwx) as [Hb HX].
  unfold modulate, LayerNorm_call. f_equal. unfold full2. simpl.
  rewrite combine_repeat_same, <- Hb, zipWith_repeat_r. simpl.
  apply map_ext_Forall. eapply Forall_impl; [|exact HX].
  intros mat [_ Hmat]. apply map_ext_Forall. eapply Forall_impl; [|exact Hmat].
  intros r Hr. simpl in Hr. unfold modulate_row.
  assert (Hlen : length (layer_norm_row ln r) = d)
    by now rewrite layer_norm_row_nonaffine, length_normalize.
  rewrite map_repeat, exact_fadd_0_r.
  rewrite <- Hlen at 1. rewrite zipWith_repeat_r.
  rewrite (map_id_Forall (fun v => fmul v f1)) by (apply Forall_forall; intros; apply exact_fmul_1_r).
  rewrite <- Hlen. rewrite zipWith_repeat_r.
  apply map_id_Forall. apply Forall_forall. intros. apply exact_fadd_0_r.
Qed.

(** A zero gate turns any branch output into the zero array. *)
Lemma zero_gate (a : array3 F) b n d :
  shape3 a = (b, n, d) -> wf3 a ->
  mul3 (expand_dims (full2 (b, d) f0)) a = Ok (full3 (b, n, d) f0).
Proof.
  intros Ha Hwa. destruct (wf3_shape Ha Hwa) as [Hb HA].
  unfold mul3, binop3, expand_dims, full2, dim0_2, dim1_2. cbn [shape2 shape3 data2 data3 fst snd].
  rewrite Ha, bshape3_seq_l. cbn [bind]. f_equal. unfold full3. f_equal.
  cbn [fst snd].
  rewrite (@bzip3_seq_l F fmul _ _ n d);
    [| now rewrite repeat_length
     | exact HA
     | apply Forall_forall; intros r Hr; apply repeat_spec in Hr; subst; apply repeat_length].
  rewrite <- Hb, zipWith_repeat_l. apply map_const_Forall.
  eapply Forall_impl; [|exact HA]. intros mat [Hn Hmat]. rewrite <- Hn.
  apply map_const_Forall. eapply Forall_impl; [|exact Hmat].
  intros r Hr. simpl in Hr. rewrite <- Hr, zipWith_repeat_l.
  apply map_const_Forall. apply Forall_forall. intros. apply exact_fmul_0_l.
Qed.

(** Adding the zero array changes nothing. *)
Lemma add_zero (x : array3 F) b n d :
  shape3 x = (b, n, d) -> wf3 x -> add3 x (full3 (b, n, d) f0) = Ok x.
Proof.
  intros Hx Hwx. destruct (wf3_shape Hx Hwx) as [Hb HX].
  unfold add3, binop3, full3. cbn [shape3 data3 fst snd].
  rewrite Hx, bshape3_same. cbn [bind].
  destruct x as [sh X]. simpl in *. subst sh. f_equal. f_equal.
  rewrite <- Hb.
  rewrite bzip_same_length by now rewrite repeat_length.
  rewrite zipWith_repeat_r. apply map_id_Forall.
  eapply Forall_impl; [|exact HX]. intros mat [Hn Hmat].
  rewrite <- Hn. rewrite bzip_same_length by now rewrite repeat_length.
  rewrite zipWith_repeat_r. apply map_id_Forall.
  eapply Forall_impl; [|exact Hmat]. intros r Hr. simpl in Hr.
  rewrite <- Hr. rewrite bzip_same_length by now rewrite repeat_length.
  rewrite zipWith_repeat_r. apply map_id_Forall.
  apply Forall_forall. intros. apply exact_fadd_0_r.
Qed.

End ZeroInit.

(** ** Blocks under zero modulation *)

Section ZeroBlocks.
Variables F Rope : Type.
Context {SF : Scalar F} {EA : ExactArith F}.

(** Under zero modulation the block's AdaLN-Zero returns the normalised
    input and four zero vectors: both gates are zero. *)
Lemma zero_block_gates (blk : DiTBlock.t F Rope) x t b n d :
  zero_block b n d blk ->
  shape3 x = (b, n, d) -> wf3 x -> shape2 t = (b, d) -> wf2 t ->
  AdaLayerNormZero.call (DiTBlock.attn_norm blk) x t =
  Ok (LayerNorm_call (AdaLayerNormZero.norm (DiTBlock.attn_norm blk)) x,
      full2 (b, d) f0, full2 (b, d) f0, full2 (b, d) f0, full2 (b, d) f0).
Proof.
  intros (Hl & Hz & Hln & _) Hx Hwx Ht Hwt.
  pose proof (zero_projection Hl Hz Ht Hwt) as Hproj.
  rewrite (AdaLayerNormZero_call_spec _ t Hln Hx Hwx Hproj eq_refl (full2_wf _ _ _)).
  rewrite !part_zero by lia. now rewrite (modulate_zero Hln Hx Hwx).
Qed.

Lemma zero_block_identity (blk : DiTBlock.t F Rope) x t mask rope b n d :
  zero_block b n d blk ->
  shape3 x = (b, n, d) -> wf3 x -> shape2 t = (b, d) -> wf2 t ->
  DiTBlock.call blk x t mask rope = Ok x.
Proof.
  intros (Hl & Hz & Hln & Hff & Hattn & Hffn) Hx Hwx Ht Hwt.
  unfold DiTBlock.call.
  pose proof (zero_projection Hl Hz Ht Hwt) as Hproj.
  rewrite (AdaLayerNormZero_call_spec _ t Hln Hx Hwx Hproj eq_refl (full2_wf _ _ _)).
  cbn [bind]. rewrite !part_zero by lia.
  rewrite (modulate_zero Hln Hx Hwx).
  destruct (Hattn mask rope (LayerNorm_call (AdaLayerNormZero.norm (DiTBlock.attn_norm blk)) x))
    as [Ha Hwa]; [exact Hx | now apply LayerNorm_call_wf |].
  rewrite (zero_gate Ha Hwa). cbn [bind].
  rewrite (add_zero Hx Hwx). cbn [bind].
  pose proof (modulation Hff Hx Hwx
                (scale := full2 (b, d) f0) (shift := full2 (b, d) f0)
                eq_refl (full2_wf _ _ _) eq_refl (full2_wf _ _ _)) as Hm.
  apply bind_ok in Hm as (scaled & Hmul & Hadd).
  rewrite Hmul. cbn [bind]. rewrite Hadd. cbn [bind].
  rewrite (modulate_zero Hff Hx Hwx).
  destruct (Hffn (LayerNorm_call (DiTBlock.ff_norm blk) x)) as [Hf Hwf];
    [exact Hx | now apply LayerNorm_call_wf |].
  rewrite (zero_gate Hf Hwf). cbn [bind].
  apply (add_zero Hx Hwx).
Qed.

Lemma zero_blocks_identity (blocks : list (DiTBlock.t F Rope)) x t mask rope b n d :
  Forall (zero_block b n d) blocks ->
  shape3 x = (b, n, d) -> wf3 x -> shape2 t = (b, d) -> wf2 t ->
  DiT.run_blocks blocks x t mask rope = Ok x.
Proof.
  intros Hall Hx Hwx Ht Hwt.
  induction Hall as [|blk blocks Hblk _ IH]; simpl; [reflexivity|].
  rewrite (zero_block_identity mask rope Hblk Hx Hwx Ht Hwt). exact IH.
Qed.

Lemma zero_final_norm (fin : AdaLayerNormZero_Final.t F) x t b n d :
  zero_final d fin ->
  shape3 x = (b, n, d) -> wf3 x -> shape2 t = (b, d) -> wf2 t ->
  AdaLayerNormZero_Final.call fin x t =
  Ok (LayerNorm_call (AdaLayerNormZero_Final.norm fin) x).
Proof.
  intros (Hl & Hz & Hln) Hx Hwx Ht Hwt.
  pose proof (zero_projection Hl Hz Ht Hwt) as Hproj.
  rewrite (AdaLayerNormZero_Final_call_spec _ t Hln Hx Hwx Hproj eq_refl (full2_wf _ _ _)).
  rewrite !part_zero by lia. now rewrite (modulate_zero Hln Hx Hwx).
Qed.

End ZeroBlocks.

(** ** The integer runtime is exact, its collaborators keep shapes *)

Lemma integer_exact : ExactArith Z.
Proof.
  split; intros a; simpl; lia.
Qed.

Lemma map3_preserves {A} (f : A -> A) sh : forall y : array3 A,
  shape3 y = sh -> wf3 y -> shape3 (map3 f y) = sh /\ wf3 (map3 f y).
Proof.
  intros y Hs [Hb Hrows]. split; [exact Hs|].
  unfold wf3, map3, dim0_3, dim1_3, dim2_3 in *. simpl. split.
  - now rewrite length_map.
  - rewrite Forall_map. eapply Forall_impl; [|exact Hrows].
    intros mat [Hn Hmat]. split; [now rewrite length_map|].
    rewrite Forall_map. eapply Forall_impl; [|exact Hmat].
    intros r Hr. simpl in *. now rewrite length_map.
Qed.


Lemma pointwise_preserve : collaborators_preserve pointwise_modules.
Proof.
  split; simpl.
  - intros dim heads dim_head dropout f [= <-] b n mask rope. exact (map3_preserves _ (sh := _)).
  - intros dim mult dropout f [= <-] b n. exact (map3_preserves _ (sh := _)).
  - intros dim f [= <-] b n. exact (map3_preserves _ (sh := _)).
  - intros dim inter f [= <-] b n. exact (map3_preserves _ (sh := _)).
  - intros dim f [= <-] time. split; [reflexivity|].
    unfold wf2, wf_rows, dim0_2, dim1_2. simpl. split; [apply length_map|].
    rewrite Forall_map. apply Forall_forall. intros s _. apply repeat_length.
  - intros dim max_pos. split; [reflexivity|].
    unfold wf2, wf_rows, full2, dim0_2, dim1_2. simpl. split; [apply repeat_length|].
    apply Forall_forall. intros r Hr. apply repeat_spec in Hr. subst. apply repeat_length.
  - intros start len max_pos. split; [reflexivity|].
    unfold wf2, wf_rows, dim0_2, dim1_2. simpl. split; [apply length_map|].
    rewrite Forall_map. apply Forall_forall. intros s _. now rewrite length_map, length_seq.
Qed.

Lemma strict_preserve : collaborators_preserve strict_modules.
Proof.
  split; simpl.
  - intros dim heads dim_head dropout f H b n mask rope.
    match type of H with (if ?c then _ else _) = _ => destruct c end; [discriminate|].
    injection H as <-. exact (map3_preserves _ (sh := _)).
  - intros dim mult dropout f [= <-] b n. exact (map3_preserves _ (sh := _)).
  - intros dim f H b n.
    match type of H with (if ?c then _ else _) = _ => destruct c end; [|discriminate].
    injection H as <-. exact (map3_preserves _ (sh := _)).
  - intros dim inter f [= <-] b n. exact (map3_preserves _ (sh := _)).
  - intros dim f [= <-] time. split; [reflexivity|].
    unfold wf2, wf_rows, dim0_2, dim1_2. simpl. split; [apply length_map|].
    rewrite Forall_map. apply Forall_forall. intros s _. apply repeat_length.
  - intros dim max_pos. split; [reflexivity|].
    unfold wf2, wf_rows, full2, dim0_2, dim1_2. simpl. split; [apply repeat_length|].
    apply Forall_forall. intros r Hr. apply repeat_spec in Hr. subst. apply repeat_length.
  - intros start len max_pos. split; [reflexivity|].
    unfold wf2, wf_rows, dim0_2, dim1_2. simpl. split; [apply length_map|].
    rewrite Forall_map. apply Forall_forall. intros s _. now rewrite length_map, length_seq.
Qed.

(** ** Construction *)

Section Construction.
Variables F Rope : Type.
Context {SF : Scalar F} {MD : Modules F Rope}.

Lemma comprehension_Forall {A} (f : nat -> result A) (P : A -> Prop) range xs :
  (forall i a, f i = Ok a -> P a) ->
  comprehension f range = Ok xs -> Forall P xs.
Proof.
  intros Hf. revert xs. induction range as [|i range IH]; simpl; intros xs H.
  - injection H as <-. constructor.
  - apply bind_ok in H as (a & Ha & H). apply bind_ok in H as (rest & Hrest & H).
    injection H as <-. constructor; [now apply Hf with i | now apply IH].
Qed.

Lemma comprehension_total {A} (f : nat -> result A) range :
  (forall i, is_ok (f i) = true) -> is_ok (comprehension f range) = true.
Proof.
  intros Hf. induction range as [|i range IH]; simpl; [reflexivity|].
  specialize (Hf i). destruct (f i); [|discriminate]. simpl.
  destruct (comprehension f range); [reflexivity | discriminate].
Qed.

Lemma range_nonpositive (k : Z) : k <= 0 -> range k = [].
Proof.
  intros H. unfold range. now replace (Z.to_nat k) with 0%nat by lia.
Qed.

Lemma fresh_Linear_wf (i o : nat) (with_bias : bool) :
  Linear_wf i o (fresh_Linear (F := F) i o with_bias).
Proof.
  unfold Linear_wf, fresh_Linear, wf2, wf_rows, dim0_2, dim1_2. simpl.
  split; [reflexivity|]. split; [split|].
  - now rewrite length_map, length_seq.
  - rewrite Forall_map. apply Forall_forall. intros k _. now rewrite length_map, length_seq.
  - destruct with_bias; [|exact I]. now rewrite length_map, length_seq.
Qed.

Lemma zero_Linear_wf (i o : nat) (l : Linear F) :
  Linear_wf i o l -> Linear_wf i o (zero_Linear l) /\ zero_init (zero_Linear l).
Proof.
  intros (Hs & _ & Hb). unfold Linear_wf, zero_init, zero_Linear. simpl. rewrite Hs.
  repeat split.
  - apply repeat_length.
  - apply Forall_forall. intros r Hr. apply repeat_spec in Hr. subst. apply repeat_length.
  - destruct (bias l); [|exact I]. now rewrite repeat_length.
  - apply Forall_forall. intros r Hr. apply repeat_spec in Hr. subst.
    apply Forall_forall. intros v Hv. now apply repeat_spec in Hv.
  - destruct (bias l); [|exact I].
    apply Forall_forall. intros v Hv. now apply repeat_spec in Hv.
Qed.

Lemma nn_LayerNorm_nonaffine (dims : nat) (eps : Q) :
  nonaffine (nn_LayerNorm (F := F) dims false eps).
Proof. split; reflexivity. Qed.

(** The layer constructors raise exactly on a zero width. *)
Lemma nn_Linear_inv (i o : nat) (with_bias : bool) (l : Linear F) :
  nn_Linear i o with_bias = Ok l -> (0 < i)%nat /\ l = fresh_Linear i o with_bias.
Proof.
  unfold nn_Linear. destruct i as [|i]; simpl; [discriminate|].
  intros [= <-]. split; [lia | reflexivity].
Qed.

Lemma nn_Linear_positive (i o : nat) (with_bias : bool) :
  (0 < i)%nat -> nn_Linear (F := F) i o with_bias = Ok (fresh_Linear i o with_bias).
Proof.
  unfold nn_Linear. destruct i as [|i]; [lia | reflexivity].
Qed.

Lemma nn_Embedding_inv (rows dims : nat) (m : Embedding F) :
  nn_Embedding rows dims = Ok m -> (0 < dims)%nat /\ m = fresh_Embedding rows dims.
Proof.
  unfold nn_Embedding. destruct dims as [|dims]; simpl; [discriminate|].
  intros [= <-]. split; [lia | reflexivity].
Qed.

Lemma nn_Embedding_positive (rows dims : nat) :
  (0 < dims)%nat -> nn_Embedding (F := F) rows dims = Ok (fresh_Embedding rows dims).
Proof.
  unfold nn_Embedding. destruct dims as [|dims]; [lia | reflexivity].
Qed.

Lemma AdaLayerNormZero_init_inv (dim : nat) (m : AdaLayerNormZero.t F) :
  AdaLayerNormZero.init dim = Ok m ->
  (0 < dim)%nat /\
  m = {| AdaLayerNormZero.linear := fresh_Linear dim (dim * 6) true;
         AdaLayerNormZero.norm := nn_LayerNorm dim false (1 # 1000000) |}.
Proof.
  unfold AdaLayerNormZero.init. intros H.
  apply bind_ok in H as (l & Hl & H). apply nn_Linear_inv in Hl as [Hpos ->].
  injection H as <-. auto.
Qed.

Lemma AdaLayerNormZero_init_positive (dim : nat) :
  (0 < dim)%nat ->
  AdaLayerNormZero.init (F := F) dim =
    Ok {| AdaLayerNormZero.linear := fresh_Linear dim (dim * 6) true;
          AdaLayerNormZero.norm := nn_LayerNorm dim false (1 # 1000000) |}.
Proof.
  intros H. unfold AdaLayerNormZero.init. now rewrite nn_Linear_positive.
Qed.

Lemma AdaLayerNormZero_Final_init_inv (dim : nat) (m : AdaLayerNormZero_Final.t F) :
  AdaLayerNormZero_Final.init dim = Ok m ->
  (0 < dim)%nat /\
  m = {| AdaLayerNormZero_Final.linear := fresh_Linear dim (dim * 2) true;
         AdaLayerNormZero_Final.norm := nn_LayerNorm dim false (1 # 1000000) |}.
Proof.
  unfold AdaLayerNormZero_Final.init. intros H.
  apply bind_ok in H as (l & Hl & H). apply nn_Linear_inv in Hl as [Hpos ->].
  injection H as <-. auto.
Qed.

Lemma AdaLayerNormZero_Final_init_positive (dim : nat) :
  (0 < dim)%nat ->
  AdaLayerNormZero_Final.init (F := F) dim =
    Ok {| AdaLayerNormZero_Final.linear := fresh_Linear dim (dim * 2) true;
          AdaLayerNormZero_Final.norm := nn_LayerNorm dim false (1 # 1000000) |}.
Proof.
  intros H. unfold AdaLayerNormZero_Final.init. now rewrite nn_Linear_positive.
Qed.

(** What a successful [DiT.__init__] has built. *)
Lemma DiT_init_inv (kw : DiT.kwargs) (self : DiT.t F Rope) :
  DiT.init kw = Ok self ->
  exists te tx ie re blocks,
    TimestepEmbedding (F := F) (Rope := Rope) (DiT.dim kw) = Ok te /\
    TextEmbedding.init (F := F) (Rope := Rope)
      (DiT.text_num_embeds kw) (text_width kw) (DiT.conv_layers kw) 2 = Ok tx /\
    InputEmbedding.init (F := F) (Rope := Rope)
      (DiT.mel_dim kw) (text_width kw) (DiT.dim kw) = Ok ie /\
    RotaryEmbedding (F := F) (Rope := Rope) (DiT.dim_head kw) = Ok re /\
    comprehension
      (fun _ => DiTBlock.init (F := F) (Rope := Rope) (DiT.dim kw) (DiT.heads kw)
                  (DiT.dim_head kw) (DiT.ff_mult kw) (DiT.dropout kw))
      (range (DiT.depth kw)) = Ok blocks /\
    (0 < DiT.dim kw)%nat /\
    self = {| DiT.time_embed := te;
              DiT.text_embed := tx;
              DiT.input_embed := ie;
              DiT.rotary_embed := re;
              DiT.self_dim := DiT.dim kw;
              DiT.self_depth := DiT.depth kw;
              DiT.transformer_blocks := blocks;
              DiT.self_long_skip_connection :=
                if DiT.long_skip_connection kw
                then Some (fresh_Linear (DiT.dim kw * 2) (DiT.dim kw) false) else None;
              DiT.norm_out :=
                {| AdaLayerNormZero_Final.linear :=
                     fresh_Linear (DiT.dim kw) (DiT.dim kw * 2) true;
                   AdaLayerNormZero_Final.norm :=
                     nn_LayerNorm (DiT.dim kw) false (1 # 1000000) |};
              DiT.proj_out := fresh_Linear (DiT.dim kw) (DiT.mel_dim kw) true |}.
Proof.
  unfold DiT.init, text_width. intros H.
  apply bind_ok in H as (te & Hte & H). apply bind_ok in H as (tx & Htx & H).
  apply bind_ok in H as (ie & Hie & H). apply bind_ok in H as (re & Hre & H).
  apply bind_ok in H as (blocks & Hblocks & H).
  apply bind_ok in H as (ls & Hls & H).
  apply bind_ok in H as (fin & Hfin & H).
  apply bind_ok in H as (po & Hpo & H). injection H as <-.
  apply AdaLayerNormZero_Final_init_inv in Hfin as [Hdim ->].
  apply nn_Linear_inv in Hpo as [_ ->].
  assert (Hskip : ls = if DiT.long_skip_connection kw
                       then Some (fresh_Linear (DiT.dim kw * 2) (DiT.dim kw) false)
                       else None).
  { destruct (DiT.long_skip_connection kw).
    - apply bind_ok in Hls as (l & Hl & Hls). apply nn_Linear_inv in Hl as [_ ->].
      now injection Hls as <-.
    - now injection Hls as <-. }
  subst ls. exists te, tx, ie, re, blocks. repeat split; assumption.
Qed.

(** The part of [DiT.__init__] after the block list never raises once
    [dim] is positive. *)
Lemma DiT_init_build (kw : DiT.kwargs) te tx ie re blocks :
  (0 < DiT.dim kw)%nat ->
  TimestepEmbedding (F := F) (Rope := Rope) (DiT.dim kw) = Ok te ->
  TextEmbedding.init (F := F) (Rope := Rope)
    (DiT.text_num_embeds kw) (text_width kw) (DiT.conv_layers kw) 2 = Ok tx ->
  InputEmbedding.init (F := F) (Rope := Rope)
    (DiT.mel_dim kw) (text_width kw) (DiT.dim kw) = Ok ie ->
  RotaryEmbedding (F := F) (Rope := Rope) (DiT.dim_head kw) = Ok re ->
  comprehension
    (fun _ => DiTBlock.init (F := F) (Rope := Rope) (DiT.dim kw) (DiT.heads kw)
                (DiT.dim_head kw) (DiT.ff_mult kw) (DiT.dropout kw))
    (range (DiT.depth kw)) = Ok blocks ->
  DiT.init kw =
    Ok {| DiT.time_embed := te;
          DiT.text_embed := tx;
          DiT.input_embed := ie;
          DiT.rotary_embed := re;
          DiT.self_dim := DiT.dim kw;
          DiT.self_depth := DiT.depth kw;
          DiT.transformer_blocks := blocks;
          DiT.self_long_skip_connection :=
            if DiT.long_skip_connection kw
            then Some (fresh_Linear (DiT.dim kw * 2) (DiT.dim kw) false) else None;
          DiT.norm_out :=
            {| AdaLayerNormZero_Final.linear :=
                 fresh_Linear (DiT.dim kw) (DiT.dim kw * 2) true;
               AdaLayerNormZero_Final.norm :=
                 nn_LayerNorm (DiT.dim kw) false (1 # 1000000) |};
          DiT.proj_out := fresh_Linear (DiT.dim kw) (DiT.mel_dim kw) true |}.
Proof.
  intros Hdim Hte Htx Hie Hre Hblocks. unfold DiT.init. unfold text_width in Htx, Hie.
  rewrite Hte. cbn [bind]. rewrite Htx. cbn [bind]. rewrite Hie. cbn [bind].
  rewrite Hre. cbn [bind]. rewrite Hblocks. cbn [bind].
  rewrite (AdaLayerNormZero_Final_init_positive Hdim).
  rewrite (nn_Linear_positive (DiT.mel_dim kw) true Hdim).
  destruct (DiT.long_skip_connection kw).
  - rewrite nn_Linear_positive by lia. reflexivity.
  - reflexivity.
Qed.

Lemma DiTBlock_init_inv dim heads dim_head ff_mult dropout (blk : DiTBlock.t F Rope) :
  DiTBlock.init dim heads dim_head ff_mult dropout = Ok blk ->
  exists attn ff,
    (0 < dim)%nat /\
    Attention (F := F) (Rope := Rope) dim heads dim_head dropout = Ok attn /\
    FeedForward (F := F) (Rope := Rope) dim ff_mult dropout = Ok ff /\
    blk = {| DiTBlock.attn_norm :=
               {| AdaLayerNormZero.linear := fresh_Linear dim (dim * 6) true;
                  AdaLayerNormZero.norm := nn_LayerNorm dim false (1 # 1000000) |};
             DiTBlock.attn := attn;
             DiTBlock.ff_norm := nn_LayerNorm dim false (1 # 1000000);
             DiTBlock.ff := ff |}.
Proof.
  unfold DiTBlock.init. intros H.
  apply bind_ok in H as (an & Han & H). apply AdaLayerNormZero_init_inv in Han as [Hdim ->].
  apply bind_ok in H as (attn & Hattn & H). apply bind_ok in H as (ff & Hff & H).
  injection H as <-. exists attn, ff. auto.
Qed.

(** Zeroing the modulation of a freshly built model gives exactly the
    blocks and the final modulation of the zero-init identity. *)
Lemma init_zero_modulation (kw : DiT.kwargs) (self : DiT.t F Rope) b n :
  collaborators_preserve MD ->
  DiT.init kw = Ok self ->
  Forall (zero_block b n (DiT.dim kw)) (DiT.transformer_blocks (zero_modulation self)) /\
  zero_final (DiT.dim kw) (DiT.norm_out (zero_modulation self)).
Proof.
  intros HMD Hinit.
  apply DiT_init_inv in Hinit
    as (te & tx & ie & re & blocks & _ & _ & _ & _ & Hblocks & _ & ->).
  simpl. split.
  - rewrite Forall_map.
    eapply comprehension_Forall; [|exact Hblocks]. intros i blk Hblk. simpl in Hblk.
    apply DiTBlock_init_inv in Hblk as (attn & ff & _ & Hattn & Hff & ->).
    unfold zero_block. simpl.
    destruct (zero_Linear_wf (fresh_Linear_wf (DiT.dim kw) (DiT.dim kw * 6) true)) as [Hw Hz].
    split; [exact Hw|]. split; [exact Hz|].
    split; [apply nn_LayerNorm_nonaffine|]. split; [apply nn_LayerNorm_nonaffine|].
    split.
    + intros mask rope. eapply (Attention_preserves HMD). exact Hattn.
    + eapply (FeedForward_preserves HMD). exact Hff.
  - unfold zero_final. simpl.
    destruct (zero_Linear_wf (fresh_Linear_wf (DiT.dim kw) (DiT.dim kw * 2) true)) as [Hw Hz].
    split; [exact Hw|]. split; [exact Hz|]. apply nn_LayerNorm_nonaffine.
Qed.

End Construction.

(** ** What the constructors build *)

Section Constructors.
Variables F Rope : Type.
Context {SF : Scalar F} {MD : Modules F Rope}.

Lemma fresh_Embedding_wf (rows dims : nat) :
  shape2 (emb_weight (fresh_Embedding (F := F) rows dims)) = (rows, dims) /\
  wf2 (emb_weight (fresh_Embedding (F := F) rows dims)).
Proof.
  split; [reflexivity|]. unfold wf2, wf_rows, dim0_2, dim1_2. simpl. split.
  - now rewrite length_map, length_seq.
  - rewrite Forall_map. apply Forall_forall. intros k _. now rewrite length_map, length_seq.
Qed.

Lemma TextEmbedding_init_inv text_num_embeds text_dim conv_layers conv_mult
  (m : TextEmbedding.t F) :
  TextEmbedding.init (Rope := Rope) text_num_embeds text_dim conv_layers conv_mult = Ok m ->
  (0 < text_dim)%nat /\
  TextEmbedding.text_embed m = fresh_Embedding (text_num_embeds + 1) text_dim /\
  TextEmbedding.extra_modeling m = (0 <? conv_layers).
Proof.
  unfold TextEmbedding.init. intros H.
  apply bind_ok in H as (tab & Htab & H). apply nn_Embedding_inv in Htab as [Hpos ->].
  split; [exact Hpos|]. destruct (0 <? conv_layers).
  - apply bind_ok in H as (blocks & _ & H). injection H as <-. auto.
  - injection H as <-. auto.
Qed.

Lemma InputEmbedding_init_inv mel_dim text_dim out_dim (ie : InputEmbedding.t F) :
  InputEmbedding.init (Rope := Rope) mel_dim text_dim out_dim = Ok ie ->
  (0 < mel_dim * 2 + text_dim)%nat /\
  InputEmbedding.proj ie = fresh_Linear (mel_dim * 2 + text_dim) out_dim true.
Proof.
  unfold InputEmbedding.init. intros H.
  apply bind_ok in H as (pr & Hpr & H). apply nn_Linear_inv in Hpr as [Hpos ->].
  apply bind_ok in H as (cpe & _ & H). split; [exact Hpos|]. now injection H as <-.
Qed.

Lemma is_ok_bind {A B} (r : result A) (k : A -> result B) :
  is_ok r = true -> (forall a, is_ok (k a) = true) -> is_ok (bind r k) = true.
Proof.
  destruct r as [a|e]; simpl; [auto | discriminate].
Qed.

Lemma is_ok_true {A} (r : result A) : is_ok r = true -> exists a, r = Ok a.
Proof.
  destruct r as [a|e]; [now exists a | discriminate].
Qed.

(** The text encoder is built when the text width is positive and, with
    [conv_layers > 0], [ConvNeXtV2Block] accepts its widths. *)
Lemma TextEmbedding_init_ok text_num_embeds text_dim conv_layers conv_mult :
  (0 < text_dim)%nat ->
  (0 < conv_layers ->
   is_ok (ConvNeXtV2Block (F := F) (Rope := Rope) text_dim (text_dim * conv_mult)) = true) ->
  is_ok (TextEmbedding.init (F := F) (Rope := Rope)
           text_num_embeds text_dim conv_layers conv_mult) = true.
Proof.
  intros Hpos Hconv. unfold TextEmbedding.init.
  rewrite (nn_Embedding_positive (F := F) (text_num_embeds + 1) Hpos). cbn [bind].
  destruct (Z.ltb_spec 0 conv_layers) as [Hc|Hc]; [|reflexivity].
  apply is_ok_bind; [|reflexivity]. apply comprehension_total. intros _. now apply Hconv.
Qed.

Lemma InputEmbedding_init_ok mel_dim text_dim out_dim :
  (0 < mel_dim * 2 + text_dim)%nat ->
  is_ok (ConvPositionEmbedding (F := F) (Rope := Rope) out_dim) = true ->
  is_ok (InputEmbedding.init (F := F) (Rope := Rope) mel_dim text_dim out_dim) = true.
Proof.
  intros Hpos Hcpe. unfold InputEmbedding.init.
  rewrite (nn_Linear_positive (F := F) out_dim true Hpos). cbn [bind].
  apply is_ok_bind; [exact Hcpe | reflexivity].
Qed.

Lemma DiTBlock_init_ok dim heads dim_head ff_mult dropout :
  (0 < dim)%nat ->
  is_ok (Attention (F := F) (Rope := Rope) dim heads dim_head dropout) = true ->
  is_ok (FeedForward (F := F) (Rope := Rope) dim ff_mult dropout) = true ->
  is_ok (DiTBlock.init (F := F) (Rope := Rope) dim heads dim_head ff_mult dropout) = true.
Proof.
  intros Hdim Hattn Hff. unfold DiTBlock.init.
  rewrite (AdaLayerNormZero_init_positive (F := F) Hdim). cbn [bind].
  apply is_ok_bind; [exact Hattn|]. intros attn.
  apply is_ok_bind; [exact Hff | reflexivity].
Qed.

(** [DiT.__init__] has no check of its own: it returns a backbone when the
    widths are positive and the constructors it calls accept; those of a
    block are called only when [depth > 0]. *)
Lemma DiT_init_ok (kw : DiT.kwargs) :
  positive_widths kw ->
  embedders_accept MD kw ->
  (0 < DiT.depth kw -> block_accepts MD kw) ->
  is_ok (DiT.init (F := F) (Rope := Rope) kw) = true.
Proof.
  intros [Hdim Htext] (Htime & Hconv & Hpos & Hrot) Hblock.
  destruct (is_ok_true _ Htime) as [te Hte].
  assert (Htx : is_ok (TextEmbedding.init (F := F) (Rope := Rope) (DiT.text_num_embeds kw)
                         (text_width kw) (DiT.conv_layers kw) 2) = true)
    by (apply TextEmbedding_init_ok; assumption).
  apply is_ok_true in Htx as [tx Htx].
  assert (Hie : is_ok (InputEmbedding.init (F := F) (Rope := Rope) (DiT.mel_dim kw)
                         (text_width kw) (DiT.dim kw)) = true)
    by (apply InputEmbedding_init_ok; [lia | assumption]).
  apply is_ok_true in Hie as [ie Hie].
  destruct (is_ok_true _ Hrot) as [re Hre].
  assert (Hb : is_ok (comprehension
                        (fun _ : nat => DiTBlock.init (F := F) (Rope := Rope) (DiT.dim kw)
                                   (DiT.heads kw) (DiT.dim_head kw) (DiT.ff_mult kw)
                                   (DiT.dropout kw))
                        (range (DiT.depth kw))) = true).
  { destruct (Z.ltb_spec 0 (DiT.depth kw)) as [Hd|Hd].
    - destruct (Hblock Hd) as [Hattn Hff].
      apply comprehension_total. intros _. now apply DiTBlock_init_ok.
    - now rewrite (range_nonpositive Hd). }
  destruct (is_ok_true _ Hb) as [blocks Hblocks].
  now rewrite (DiT_init_build kw Hdim Hte Htx Hie Hre Hblocks).
Qed.

(** An index inside the table reads the row of that index. *)
Lemma take_row_in_range (table : array2 F) (i : Z) :
  wf2 table -> 0 <= i < Z.of_nat (dim0_2 table) ->
  take_row table i = nth (Z.to_nat i) (data2 table) [] /\
  In (take_row table i) (data2 table) /\
  length (take_row table i) = dim1_2 table.
Proof.
  intros [Hrows Hall] Hi. unfold take_row.
  destruct (Z.leb_spec 0 i); [|lia].
  destruct (Z.ltb_spec i (Z.of_nat (dim0_2 table))); [|lia]. simpl.
  assert (Hin : In (nth (Z.to_nat i) (data2 table) []) (data2 table))
    by (apply nth_In; lia).
  split; [reflexivity|]. split; [exact Hin|].
  rewrite Forall_forall in Hall. now apply Hall.
Qed.

(** An index beyond both ends of the table is an unchecked read. *)
Lemma take_row_out_of_range (table : array2 F) (i : Z) :
  i < - Z.of_nat (dim0_2 table) \/ Z.of_nat (dim0_2 table) <= i ->
  take_row table i = map (gather_oob table i) (seq 0 (dim1_2 table)).
Proof.
  intros Hi. unfold take_row.
  destruct (Z.leb_spec 0 i), (Z.ltb_spec i (Z.of_nat (dim0_2 table))),
    (Z.leb_spec (- Z.of_nat (dim0_2 table)) i), (Z.ltb_spec i 0);
    simpl; try reflexivity; lia.
Qed.

End Constructors.

(** ** Shapes through the forward pass *)

Section ArrayShapes.
Variable F : Type.
Context {SF : Scalar F}.

Lemma wf3_intro (a : array3 F) b n d :
  shape3 a = (b, n, d) -> length (data3 a) = b ->
  Forall (wf_rows n d) (data3 a) -> wf3 a.
Proof.
  intros Hs Hb Hrows. unfold wf3, dim0_3, dim1_3, dim2_3. rewrite Hs. simpl. auto.
Qed.

Lemma wf2_intro {A} (a : array2 A) b d :
  shape2 a = (b, d) -> length (data2 a) = b ->
  Forall (fun r => length r = d) (data2 a) -> wf2 a.
Proof.
  intros Hs Hb Hrows. unfold wf2, wf_rows, dim0_2, dim1_2. rewrite Hs. simpl. auto.
Qed.

Lemma take_row_length (table : array2 F) (i : Z) :
  wf2 table -> length (take_row table i) = dim1_2 table.
Proof.
  intros [Hrows Hall]. unfold take_row. rewrite Forall_forall in Hall.
  destruct (Z.leb_spec 0 i), (Z.ltb_spec i (Z.of_nat (dim0_2 table))); simpl.
  - apply Hall, nth_In. lia.
  - destruct (Z.leb_spec (- Z.of_nat (dim0_2 table)) i), (Z.ltb_spec i 0); simpl;
      try (apply Hall, nth_In; lia); now rewrite length_map, length_seq.
  - destruct (Z.leb_spec (- Z.of_nat (dim0_2 table)) i), (Z.ltb_spec i 0); simpl;
      try (apply Hall, nth_In; lia); now rewrite length_map, length_seq.
  - destruct (Z.leb_spec (- Z.of_nat (dim0_2 table)) i), (Z.ltb_spec i 0); simpl;
      try (apply Hall, nth_In; lia); now rewrite length_map, length_seq.
Qed.

(** A gather has the shape of the index array, extended by the row width,
    whatever the indices are. *)
Lemma take_rows_wf (table : array2 F) (idx : array2 Z) b n :
  wf2 table -> shape2 idx = (b, n) -> wf2 idx ->
  shape3 (take_rows table idx) = (b, n, dim1_2 table) /\ wf3 (take_rows table idx).
Proof.
  intros Ht Hs Hi. destruct (wf2_shape Hs Hi) as [Hb Hrows].
  assert (Hsh : shape3 (take_rows table idx) = (b, n, dim1_2 table))
    by (unfold take_rows; simpl; now rewrite Hs).
  split; [exact Hsh|]. apply (wf3_intro _ Hsh).
  - unfold take_rows. simpl. now rewrite length_map.
  - unfold take_rows. simpl. rewrite Forall_map. eapply Forall_impl; [|exact Hrows].
    intros r Hr. split; [now rewrite length_map|].
    rewrite Forall_map. apply Forall_forall. intros i _. now apply take_row_length.
Qed.

Lemma take_rows_shape (table : array2 F) (idx : array2 Z) rows d b n :
  shape2 table = (rows, d) -> wf2 table -> shape2 idx = (b, n) -> wf2 idx ->
  shape3 (take_rows table idx) = (b, n, d) /\ wf3 (take_rows table idx).
Proof.
  intros Hst Ht Hs Hi. destruct (take_rows_wf Ht Hs Hi) as [Hsh Hwf].
  split; [|exact Hwf]. rewrite Hsh. unfold dim1_2. now rewrite Hst.
Qed.

Lemma full3_wf (b n d : nat) (v : F) : wf3 (full3 (b, n, d) v).
Proof.
  apply (@wf3_intro _ b n d); [reflexivity | apply repeat_length |].
  apply Forall_forall. intros mat Hm. apply repeat_spec in Hm. subst.
  split; [apply repeat_length|].
  apply Forall_forall. intros r Hr. apply repeat_spec in Hr. subst. apply repeat_length.
Qed.

Lemma zipWith_rows_wf (f : F -> F -> F) X Y n d :
  length X = length Y ->
  Forall (wf_rows n d) X -> Forall (wf_rows n d) Y ->
  Forall (wf_rows n d) (zipWith (zipWith (zipWith f)) X Y).
Proof.
  intros Hlen HX. revert Y Hlen.
  induction HX as [|mx X [Hn Hmx] _ IH]; intros [|my Y] Hlen HY;
    try discriminate; simpl; constructor.
  - inversion HY as [|? ? [Hn' Hmy] _]; subst. split.
    + rewrite length_zipWith. lia.
    + clear IH Hlen HY. revert my Hn' Hmy.
      induction Hmx as [|rx mx Hrx _ IH]; intros [|ry my] Hn' Hmy;
        try discriminate; simpl; constructor.
      * inversion Hmy; subst. rewrite length_zipWith. lia.
      * inversion Hmy; subst. apply IH; [simpl in Hn'; lia | assumption].
  - inversion HY; subst. apply IH; [simpl in Hlen; lia | assumption].
Qed.

(** Two arrays of one shape combine into an array of that shape. *)
Lemma binop3_same (f : F -> F -> F) (x y : array3 F) b n d :
  shape3 x = (b, n, d) -> wf3 x -> shape3 y = (b, n, d) -> wf3 y ->
  exists c, binop3 f x y = Ok c /\ shape3 c = (b, n, d) /\ wf3 c.
Proof.
  intros Hx Hwx Hy Hwy.
  destruct (wf3_shape Hx Hwx) as [HbX HX]. destruct (wf3_shape Hy Hwy) as [HbY HY].
  unfold binop3. rewrite Hx, Hy, bshape3_same. cbn [bind].
  eexists. split; [reflexivity|]. split; [reflexivity|].
  apply (@wf3_intro _ b n d); [reflexivity | |]; cbn [data3].
  - rewrite (@bzip3_same F f _ _ n d) by (auto; lia).
    rewrite length_zipWith. lia.
  - rewrite (@bzip3_same F f _ _ n d) by (auto; lia).
    apply zipWith_rows_wf; auto; lia.
Qed.

(** A gate of shape (b, d) scales a branch output of shape (b, n, d). *)
Lemma gate_mul (g : array2 F) (a : array3 F) b n d :
  shape2 g = (b, d) -> wf2 g -> shape3 a = (b, n, d) -> wf3 a ->
  exists c, mul3 (expand_dims g) a = Ok c /\ shape3 c = (b, n, d) /\ wf3 c.
Proof.
  intros Hg Hwg Ha Hwa.
  destruct (wf2_shape Hg Hwg) as [HbG HG]. destruct (wf3_shape Ha Hwa) as [HbA HA].
  unfold mul3, binop3, expand_dims, dim0_2, dim1_2. cbn [shape3 data3].
  rewrite Hg, Ha. cbn [fst snd]. rewrite bshape3_seq_l. cbn [bind].
  eexists. split; [reflexivity|]. split; [reflexivity|].
  apply (@wf3_intro _ b n d); [reflexivity | |]; cbn [data3];
    rewrite (@bzip3_seq_l F fmul _ _ n d) by (auto; lia).
  - rewrite length_zipWith. lia.
  - clear Hwg Hwa Hg Ha. subst b. revert HbA HG. generalize (data2 g).
    induction HA as [|mat A [Hn Hmat] _ IH]; intros [|s S] HbA HG;
      try discriminate; simpl; constructor.
    + inversion HG; subst. split; [now rewrite length_map|].
      rewrite Forall_map. eapply Forall_impl; [|exact Hmat]. intros r Hr. simpl in *.
      rewrite length_zipWith. lia.
    + inversion HG; subst. apply IH; [simpl in HbA; lia | assumption].
Qed.

Lemma concatenate2_wf (a c : array3 F) b n d1 d2 :
  shape3 a = (b, n, d1) -> wf3 a -> shape3 c = (b, n, d2) -> wf3 c ->
  exists r, concatenate2 a c = Ok r /\ shape3 r = (b, n, (d1 + d2)%nat) /\ wf3 r.
Proof.
  intros Ha Hwa Hc Hwc.
  destruct (wf3_shape Ha Hwa) as [HbA HA]. destruct (wf3_shape Hc Hwc) as [HbC HC].
  unfold concatenate2, dim0_3, dim1_3, dim2_3. rewrite Ha, Hc. cbn [fst snd].
  rewrite !Nat.eqb_refl. cbn [andb].
  eexists. split; [reflexivity|]. split; [reflexivity|].
  apply (@wf3_intro _ b n (d1 + d2)%nat); [reflexivity | |]; cbn [data3].
  - rewrite length_zipWith. lia.
  - clear Hwa Hwc Ha Hc. subst b. revert HbC HC. generalize (data3 c).
    induction HA as [|ma A [Hn Hma] _ IH]; intros [|mc C] HbC HC;
      try discriminate; simpl; constructor.
    + inversion HC as [|? ? [Hn' Hmc] _]; subst. split.
      * rewrite length_zipWith. lia.
      * clear IH HbC HC. revert mc Hn' Hmc.
        induction Hma as [|ra ma Hra _ IH]; intros [|rc mc] Hn' Hmc;
          try discriminate; simpl; constructor.
        -- inversion Hmc; subst. rewrite length_app. lia.
        -- inversion Hmc; subst. apply IH; [simpl in Hn'; lia | assumption].
    + inversion HC; subst. apply IH; [simpl in HbC; lia | assumption].
Qed.

Lemma Linear_call3_shape (l : Linear F) i o x b n :
  Linear_wf i o l -> shape3 x = (b, n, i) -> wf3 x ->
  exists y, Linear_call3 l x = Ok y /\ shape3 y = (b, n, o) /\ wf3 y.
Proof.
  intros Hl Hx Hwx. destruct (wf3_shape Hx Hwx) as [Hb HX].
  rewrite (@Linear_call3_wf F SF l i o x b n Hl Hx). eexists. split; [reflexivity|]. split; [reflexivity|].
  apply (@wf3_intro _ b n o); [reflexivity | |]; cbn [data3].
  - now rewrite length_map.
  - rewrite Forall_map. eapply Forall_impl; [|exact HX]. intros mat [Hn _].
    split; [now rewrite length_map|].
    rewrite Forall_map. apply Forall_forall. intros r _. now apply linear_row_length with i.
Qed.

End ArrayShapes.

Section BlockShapes.
Variables F Rope : Type.
Context {SF : Scalar F}.

(** A block keeps the shape of the state, whatever its weights are. *)
Lemma shaped_block_call (blk : DiTBlock.t F Rope) x t mask rope b n d :
  shaped_block b n d blk ->
  shape3 x = (b, n, d) -> wf3 x -> shape2 t = (b, d) -> wf2 t ->
  exists y, DiTBlock.call blk x t mask rope = Ok y /\ shape3 y = (b, n, d) /\ wf3 y.
Proof.
  intros (Hl & Hln & Hff & Hattn & Hffn) Hx Hwx Ht Hwt.
  destruct (projected_embedding Hl Ht Hwt) as (Hproj & Hs & Hwf).
  set (proj := {| shape2 := (b, (d * 6)%nat); data2 := _ |}) in *.
  unfold DiTBlock.call.
  rewrite (AdaLayerNormZero_call_spec _ t Hln Hx Hwx Hproj Hs Hwf). cbn [bind].
  destruct (@part_wf F d 6 0 proj b Hs Hwf ltac:(lia)) as [Hs0 Hw0].
  destruct (@part_wf F d 6 1 proj b Hs Hwf ltac:(lia)) as [Hs1 Hw1].
  destruct (@part_wf F d 6 2 proj b Hs Hwf ltac:(lia)) as [Hs2 Hw2].
  destruct (@part_wf F d 6 3 proj b Hs Hwf ltac:(lia)) as [Hs3 Hw3].
  destruct (@part_wf F d 6 4 proj b Hs Hwf ltac:(lia)) as [Hs4 Hw4].
  destruct (@part_wf F d 6 5 proj b Hs Hwf ltac:(lia)) as [Hs5 Hw5].
  destruct (modulate_wf Hln Hx Hwx Hs1 Hw1 Hs0 Hw0) as [Hm Hwm].
  destruct (Hattn mask rope _ Hm Hwm) as [Ha Hwa].
  destruct (gate_mul Hs2 Hw2 Ha Hwa) as (g1 & -> & Hg1 & Hwg1). cbn [bind].
  destruct (binop3_same fadd Hx Hwx Hg1 Hwg1) as (x1 & Hadd1 & Hx1 & Hwx1).
  unfold add3 at 1. rewrite Hadd1. cbn [bind].
  pose proof (modulation Hff Hx1 Hwx1 Hs4 Hw4 Hs3 Hw3) as Hmod.
  apply bind_ok in Hmod as (scaled & Hmul & Hadd).
  rewrite Hmul. cbn [bind]. rewrite Hadd. cbn [bind].
  destruct (modulate_wf Hff Hx1 Hwx1 Hs4 Hw4 Hs3 Hw3) as [Hm2 Hwm2].
  destruct (Hffn _ Hm2 Hwm2) as [Hf Hwf2].
  destruct (gate_mul Hs5 Hw5 Hf Hwf2) as (g2 & -> & Hg2 & Hwg2). cbn [bind].
  exact (binop3_same fadd Hx1 Hwx1 Hg2 Hwg2).
Qed.

Lemma shaped_blocks_run (blocks : list (DiTBlock.t F Rope)) x t mask rope b n d :
  Forall (shaped_block b n d) blocks ->
  shape3 x = (b, n, d) -> wf3 x -> shape2 t = (b, d) -> wf2 t ->
  exists y, DiT.run_blocks blocks x t mask rope = Ok y /\ shape3 y = (b, n, d) /\ wf3 y.
Proof.
  intros Hall. revert x. induction Hall as [|blk blocks Hblk _ IH]; intros x Hx Hwx Ht Hwt.
  - exists x. auto.
  - simpl.
    destruct (shaped_block_call mask rope Hblk Hx Hwx Ht Hwt) as (y & -> & Hy & Hwy).
    cbn [bind]. now apply IH.
Qed.

(** The final modulation keeps the shape as well. *)
Lemma shaped_final_call (fin : AdaLayerNormZero_Final.t F) x t b n d :
  Linear_wf d (d * 2) (AdaLayerNormZero_Final.linear fin) ->
  nonaffine (AdaLayerNormZero_Final.norm fin) ->
  shape3 x = (b, n, d) -> wf3 x -> shape2 t = (b, d) -> wf2 t ->
  exists y, AdaLayerNormZero_Final.call fin x t = Ok y /\ shape3 y = (b, n, d) /\ wf3 y.
Proof.
  intros Hl Hln Hx Hwx Ht Hwt.
  destruct (projected_embedding Hl Ht Hwt) as (Hproj & Hs & Hwf).
  set (proj := {| shape2 := (b, (d * 2)%nat); data2 := _ |}) in *.
  rewrite (AdaLayerNormZero_Final_call_spec _ t Hln Hx Hwx Hproj Hs Hwf).
  destruct (@part_wf F d 2 0 proj b Hs Hwf ltac:(lia)) as [Hs0 Hw0].
  destruct (@part_wf F d 2 1 proj b Hs Hwf ltac:(lia)) as [Hs1 Hw1].
  eexists. split; [reflexivity|].
  exact (modulate_wf Hln Hx Hwx Hs0 Hw0 Hs1 Hw1).
Qed.

End BlockShapes.

Section BackboneShapes.
Variables F Rope : Type.
Context {SF : Scalar F} {MD : Modules F Rope}.
Hypothesis HMD : collaborators_preserve MD.

Lemma Sequential_preserves (layers : list (array3 F -> array3 F)) sh :
  Forall (preserves sh) layers -> preserves sh (Sequential layers).
Proof.
  unfold Sequential. induction 1 as [|f layers Hf _ IH]; intros y Hy Hwy; simpl.
  - auto.
  - destruct (Hf y Hy Hwy) as [Hy' Hwy']. now apply IH.
Qed.

(** A freshly built text encoder, on a text no longer than the target,
    returns an embedding sequence of exactly the target length. *)
Lemma TextEmbedding_call_shape text_num_embeds text_dim conv_layers conv_mult
  (self : TextEmbedding.t F) text seq_len drop_text b nt :
  TextEmbedding.init (Rope := Rope) text_num_embeds text_dim conv_layers conv_mult = Ok self ->
  shape2 text = (b, nt) -> wf2 text -> (nt <= seq_len)%nat ->
  exists te, TextEmbedding.call (Rope := Rope) self text seq_len drop_text = Ok te /\
             shape3 te = (b, seq_len, text_dim) /\ wf3 te.
Proof.
  intros Hinit Hs Hwt Hle.
  assert (Hb : dim0_2 text = b) by (unfold dim0_2; now rewrite Hs).
  assert (Hnt : dim1_2 text = nt) by (unfold dim1_2; now rewrite Hs).
  assert (Hle' : (dim1_2 text <= seq_len)%nat) by lia.
  rewrite TextEmbedding_call_stages.
  destruct (shift_and_pad text seq_len) as [ids|e] eqn:Hids;
    [|rewrite shift_and_pad_shorter in Hids by assumption; discriminate].
  destruct (shift_and_pad_shorter_wf Hwt Hle' Hids) as [Hsi Hwi].
  rewrite Hb in Hsi. cbn [bind].
  set (ids' := if drop_text then zeros_like2 ids else ids).
  assert (Hids' : shape2 ids' = (b, seq_len) /\ wf2 ids').
  { unfold ids'. destruct drop_text; [|auto].
    unfold zeros_like2. rewrite Hsi. split; [reflexivity | apply full2_wf]. }
  destruct Hids' as [Hsi' Hwi']. clearbody ids'.
  destruct (fresh_Embedding_wf (F := F) (text_num_embeds + 1) text_dim) as [Hst Hwtab].
  unfold embed_ids, Embedding_call. unfold TextEmbedding.init in Hinit.
  apply bind_ok in Hinit as (tab & Htab & Hinit). apply nn_Embedding_inv in Htab as [_ ->].
  destruct (0 <? conv_layers).
  - apply bind_ok in Hinit as (blocks & Hblocks & Hinit). injection Hinit as <-.
    cbn [TextEmbedding.text_embed TextEmbedding.extra_modeling TextEmbedding.extra_attrs
         TextEmbedding.precompute_max_pos TextEmbedding._freqs_cis TextEmbedding.text_blocks].
    destruct (take_rows_shape Hst Hwtab Hsi' Hwi') as [He Hwe].
    destruct (get_pos_embed_indices_shape HMD (repeat 0 b) seq_len 4096) as [Hp Hwp].
    rewrite repeat_length in Hp.
    destruct (precompute_freqs_cis_shape HMD text_dim 4096) as [Hf Hwf].
    destruct (take_rows_shape Hf Hwf Hp Hwp) as [Hpe Hwpe]. rewrite Hb.
    destruct (binop3_same fadd He Hwe Hpe Hwpe) as (sum & Hsum & Hss & Hws).
    unfold add3. rewrite Hsum. cbn [bind].
    eexists. split; [reflexivity|].
    apply Sequential_preserves; [|exact Hss | exact Hws].
    eapply comprehension_Forall; [|exact Hblocks].
    intros i f Hf'. simpl in Hf'. eapply (ConvNeXtV2Block_preserves HMD). exact Hf'.
  - injection Hinit as <-.
    cbn [TextEmbedding.text_embed TextEmbedding.extra_modeling TextEmbedding.extra_attrs
         TextEmbedding.precompute_max_pos TextEmbedding._freqs_cis TextEmbedding.text_blocks].
    eexists. split; [reflexivity|].
    exact (take_rows_shape Hst Hwtab Hsi' Hwi').
Qed.

(** A freshly built input fuser maps (b, n, mel_dim) audio, conditioning
    audio and (b, n, text_dim) text embeddings to a (b, n, d) state. *)
Lemma InputEmbedding_call_shape mel_dim text_dim out_dim (self : InputEmbedding.t F)
  x cond te drop_audio_cond b n :
  InputEmbedding.init (Rope := Rope) mel_dim text_dim out_dim = Ok self ->
  shape3 x = (b, n, mel_dim) -> wf3 x ->
  shape3 cond = (b, n, mel_dim) -> wf3 cond ->
  shape3 te = (b, n, text_dim) -> wf3 te ->
  exists y, InputEmbedding.call self x cond te drop_audio_cond = Ok y /\
            shape3 y = (b, n, out_dim) /\ wf3 y.
Proof.
  intros Hinit Hx Hwx Hc Hwc Ht Hwt.
  unfold InputEmbedding.init in Hinit.
  apply bind_ok in Hinit as (pr & Hpr & Hinit). apply nn_Linear_inv in Hpr as [_ ->].
  apply bind_ok in Hinit as (cpe & Hcpe & Hinit). injection Hinit as <-.
  unfold InputEmbedding.call. simpl.
  set (cond' := if drop_audio_cond then zeros_like3 cond else cond).
  assert (Hcond' : shape3 cond' = (b, n, mel_dim) /\ wf3 cond').
  { unfold cond'. destruct drop_audio_cond; [|auto].
    unfold zeros_like3. rewrite Hc. split; [reflexivity | apply full3_wf]. }
  destruct Hcond' as [Hc' Hwc']. clearbody cond'.
  destruct (concatenate2_wf Hx Hwx Hc' Hwc') as (c1 & -> & Hc1 & Hwc1). cbn [bind].
  destruct (concatenate2_wf Hc1 Hwc1 Ht Hwt) as (c2 & -> & Hc2 & Hwc2). cbn [bind].
  replace (mel_dim + mel_dim + text_dim)%nat with (mel_dim * 2 + text_dim)%nat in Hc2 by lia.
  destruct (Linear_call3_shape (fresh_Linear_wf (F := F) (mel_dim * 2 + text_dim) out_dim true)
              Hc2 Hwc2) as (y & -> & Hy & Hwy). cbn [bind].
  assert (Hcp : preserves (b, n, out_dim) cpe)
    by (eapply (ConvPositionEmbedding_preserves HMD); exact Hcpe).
  destruct (Hcp y Hy Hwy) as [Hp Hwp].
  exact (binop3_same fadd Hp Hwp Hy Hwy).
Qed.

(** The blocks of a freshly built backbone are [shaped_block]s. *)
Lemma init_shaped_blocks (kw : DiT.kwargs) (self : DiT.t F Rope) b n :
  DiT.init kw = Ok self ->
  Forall (shaped_block b n (DiT.dim kw)) (DiT.transformer_blocks self).
Proof.
  intros Hinit.
  apply DiT_init_inv in Hinit
    as (te & tx & ie & re & blocks & _ & _ & _ & _ & Hblocks & _ & ->).
  simpl. eapply comprehension_Forall; [|exact Hblocks]. intros i blk Hblk. simpl in Hblk.
  apply DiTBlock_init_inv in Hblk as (attn & ff & _ & Hattn & Hff & ->).
  unfold shaped_block. simpl.
  split; [apply fresh_Linear_wf|].
  split; [apply nn_LayerNorm_nonaffine|]. split; [apply nn_LayerNorm_nonaffine|].
  split.
  - intros mask rope. eapply (Attention_preserves HMD). exact Hattn.
  - eapply (FeedForward_preserves HMD). exact Hff.
Qed.

(** Shape invariance where it holds: a freshly built backbone, on inputs
    of matching shapes and a text no longer than the audio, returns a
    tensor of the shape of the noised audio. *)
Lemma DiT_call_shape (kw : DiT.kwargs) (self : DiT.t F Rope)
  x cond text time drop_audio_cond drop_text mask b n nt :
  DiT.init kw = Ok self ->
  shape3 x = (b, n, DiT.mel_dim kw) -> wf3 x ->
  shape3 cond = (b, n, DiT.mel_dim kw) -> wf3 cond ->
  shape2 text = (b, nt) -> wf2 text -> (nt <= n)%nat ->
  match time with TimeScalar _ => True | TimeVector v => length v = b end ->
  exists out, DiT.call self x cond text time drop_audio_cond drop_text mask = Ok out /\
              shape3 out = (b, n, DiT.mel_dim kw) /\ wf3 out.
Proof.
  intros Hinit Hx Hwx Hc Hwc Ht Hwt Hle Htime.
  pose proof (@init_shaped_blocks kw self b n Hinit) as Hblocks.
  pose proof (DiT_init_inv _ Hinit) as
    (te & tx & ie & re & blocks & Hte & Htx & Hie & Hre & _ & _ & Hself).
  assert (Hb : dim0_3 x = b) by (unfold dim0_3; now rewrite Hx).
  assert (Hn : dim1_3 x = n) by (unfold dim1_3; now rewrite Hx).
  rewrite DiT_call_stages. cbv zeta.
  set (t := conditioning self (dim0_3 x) time).
  assert (Hcond : shape2 t = (b, DiT.dim kw) /\ wf2 t).
  { unfold t, conditioning. rewrite Hself. simpl.
    assert (Hts : forall time, shape2 (te time) = (length time, DiT.dim kw) /\ wf2 (te time))
      by (eapply (TimestepEmbedding_shape HMD); exact Hte).
    destruct (Hts match time with
                  | TimeScalar s => einops_repeat s (dim0_3 x)
                  | TimeVector v => v
                  end) as [Hs Hw].
    split; [|exact Hw]. rewrite Hs. f_equal.
    destruct time as [s|v]; [|exact Htime].
    unfold einops_repeat. now rewrite repeat_length. }
  destruct Hcond as [Hst Hwst]. clearbody t.
  unfold fuse. rewrite Hn.
  assert (Htx' : DiT.text_embed self = tx) by (rewrite Hself; reflexivity).
  assert (Hie' : DiT.input_embed self = ie) by (rewrite Hself; reflexivity).
  rewrite Htx', Hie'.
  destruct (TextEmbedding_call_shape _ _ _ _ drop_text Htx Ht Hwt Hle)
    as (emb & -> & He & Hwe).
  cbn [bind].
  destruct (InputEmbedding_call_shape _ drop_audio_cond Hie Hx Hwx Hc Hwc He Hwe)
    as (x0 & -> & Hx0 & Hwx0).
  cbn [bind].
  destruct (shaped_blocks_run mask (DiT.rotary_embed self n) Hblocks Hx0 Hwx0 Hst Hwst)
    as (xN & -> & HxN & HwxN).
  cbn [bind].
  assert (Hfinish : forall y, shape3 y = (b, n, DiT.dim kw) -> wf3 y ->
            exists out, finish self y t = Ok out /\
                        shape3 out = (b, n, DiT.mel_dim kw) /\ wf3 out).
  { intros y Hy Hwy. unfold finish. rewrite Hself. simpl.
    destruct (shaped_final_call
                {| AdaLayerNormZero_Final.linear :=
                     fresh_Linear (DiT.dim kw) (DiT.dim kw * 2) true;
                   AdaLayerNormZero_Final.norm :=
                     nn_LayerNorm (DiT.dim kw) false (1 # 1000000) |}
                (fresh_Linear_wf (F := F) (DiT.dim kw) (DiT.dim kw * 2) true)
                (nn_LayerNorm_nonaffine (F := F) (DiT.dim kw) (1 # 1000000))
                Hy Hwy Hst Hwst) as (z & -> & Hz & Hwz).
    cbn [bind].
    exact (Linear_call3_shape (fresh_Linear_wf (F := F) (DiT.dim kw) (DiT.mel_dim kw) true)
             Hz Hwz). }
  assert (Hls : DiT.self_long_skip_connection self =
                if DiT.long_skip_connection kw
                then Some (fresh_Linear (DiT.dim kw * 2) (DiT.dim kw) false) else None)
    by (rewrite Hself; reflexivity).
  rewrite Hls. destruct (DiT.long_skip_connection kw); [|now apply Hfinish].
  destruct (concatenate2_wf HxN HwxN Hx0 Hwx0) as (c & -> & Hcc & Hwcc). cbn [bind].
  replace (DiT.dim kw + DiT.dim kw)%nat with (DiT.dim kw * 2)%nat in Hcc by lia.
  destruct (Linear_call3_shape (fresh_Linear_wf (F := F) (DiT.dim kw * 2) (DiT.dim kw) false)
              Hcc Hwcc) as (y & -> & Hy & Hwy). cbn [bind].
  now apply Hfinish.
Qed.

End BackboneShapes.

Section BackboneFacts.
Variables F Rope : Type.
Context {SF : Scalar F} {MD : Modules F Rope}.
Hypothesis HMD : collaborators_preserve MD.

Lemma conditioning_shape (kw : DiT.kwargs) (self : DiT.t F Rope) b time :
  DiT.init kw = Ok self -> time_fits b time ->
  shape2 (conditioning self b time) = (b, DiT.dim kw) /\ wf2 (conditioning self b time).
Proof.
  intros Hinit Htime.
  pose proof (DiT_init_inv _ Hinit) as
    (te & tx & ie & re & blocks & Hte & _ & _ & _ & _ & _ & Hself).
  unfold conditioning. rewrite Hself. simpl.
  assert (Hts : forall v, shape2 (te v) = (length v, DiT.dim kw) /\ wf2 (te v))
    by (eapply (TimestepEmbedding_shape HMD); exact Hte).
  destruct (Hts match time with
                | TimeScalar s => einops_repeat s b
                | TimeVector v => v
                end) as [Hs Hw].
  split; [|exact Hw]. rewrite Hs. f_equal.
  destruct time as [s|v]; [|exact Htime].
  unfold einops_repeat. now rewrite repeat_length.
Qed.

Lemma fuse_shape (kw : DiT.kwargs) (self : DiT.t F Rope)
  x cond text drop_audio_cond drop_text b n nt :
  DiT.init kw = Ok self ->
  shape3 x = (b, n, DiT.mel_dim kw) -> wf3 x ->
  shape3 cond = (b, n, DiT.mel_dim kw) -> wf3 cond ->
  shape2 text = (b, nt) -> wf2 text -> (nt <= n)%nat ->
  exists x0, fuse self x cond text drop_audio_cond drop_text = Ok x0 /\
             shape3 x0 = (b, n, DiT.dim kw) /\ wf3 x0.
Proof.
  intros Hinit Hx Hwx Hc Hwc Ht Hwt Hle.
  pose proof (DiT_init_inv _ Hinit) as
    (te & tx & ie & re & blocks & _ & Htx & Hie & _ & _ & _ & Hself).
  assert (Hn : dim1_3 x = n) by (unfold dim1_3; now rewrite Hx).
  unfold fuse. rewrite Hn.
  assert (Htx' : DiT.text_embed self = tx) by (rewrite Hself; reflexivity).
  assert (Hie' : DiT.input_embed self = ie) by (rewrite Hself; reflexivity).
  rewrite Htx', Hie'.
  destruct (TextEmbedding_call_shape HMD _ _ _ _ drop_text Htx Ht Hwt Hle)
    as (emb & -> & He & Hwe).
  cbn [bind].
  exact (InputEmbedding_call_shape HMD _ drop_audio_cond Hie Hx Hwx Hc Hwc He Hwe).
Qed.

(** The long-skip step on two states of one shape: the rows of the loop's
    output, each followed by the row of the fused state, multiplied by the
    transposed weight. *)
Lemma long_skip_step (l : Linear F) (xN x0 : array3 F) b n d :
  shape2 (weight l) = (d, (d * 2)%nat) -> bias l = None ->
  shape3 xN = (b, n, d) -> shape3 x0 = (b, n, d) ->
  (let* c := concatenate2 xN x0 in Linear_call3 l c) =
  Ok {| shape3 := (b, n, d);
        data3 := map (map (fun r =>
                             map (fun w => fold_right
                                             (fun p acc => fadd (fmul (fst p) (snd p)) acc)
                                             f0 (combine r w))
                                 (data2 (weight l))))
                   (zipWith (zipWith (@app F)) (data3 xN) (data3 x0)) |}.
Proof.
  intros Hw Hb HN H0.
  unfold concatenate2, dim0_3, dim1_3, dim2_3. rewrite HN, H0. cbn [fst snd].
  rewrite !Nat.eqb_refl. cbn [andb bind].
  unfold Linear_call3, bias_fits, dim0_3, dim1_3, dim2_3, dim0_2, dim1_2.
  rewrite Hw, Hb. cbn [shape3 data3 fst snd].
  replace (d + d)%nat with (d * 2)%nat by lia. rewrite Nat.eqb_refl. cbn [andb].
  unfold linear_row. rewrite Hb. reflexivity.
Qed.

End BackboneFacts.

(** * Main results *)

(** C1. The text encoder on a token batch longer than the target length
    (here 3 tokens for a target of 2): the ids are shifted and curtailed to
    2 positions, but the pad width [seq_len - text_len] is taken from the
    length before curtailing, is negative, and [mx.pad] raises.  The call
    does not return a length-2 embedding sequence. *)
Theorem TextEmbedding_curtail_raises (F Rope : Type) (SF : Scalar F) (MD : Modules F Rope)
  (self : TextEmbedding.t F) (drop_text : bool) :
  TextEmbedding.call (Rope := Rope) self text_1_3 2 drop_text = Raise PadNegative.
Proof.
  apply TextEmbedding_call_longer. unfold text_1_3, dim1_2. simpl. lia.
Qed.

(** C2. Zero-init identity: when every modulation projection (the 6d
    projection of each block, the 2d projection of the final AdaLN-Zero) has
    zero weights and zero biases, the shift, scale and gate vectors of every
    block are zero, each transformer block returns its input unchanged (the
    gates multiply the branch outputs only), so does the whole block loop,
    and the final modulation returns [norm(x)].  Arithmetic is
    exact ([ExactArith]); the collaborators keep the shape (b, n, d). *)
Theorem zero_init_identity (F Rope : Type) (SF : Scalar F) (EA : ExactArith F)
  (self : DiT.t F Rope) (x : array3 F) (t : array2 F)
  (mask : option (array2 bool)) (rope : Rope) (b n d : nat) :
  Forall (zero_block b n d) (DiT.transformer_blocks self) ->
  zero_final d (DiT.norm_out self) ->
  shape3 x = (b, n, d) -> wf3 x -> shape2 t = (b, d) -> wf2 t ->
  Forall (fun blk =>
            AdaLayerNormZero.call (DiTBlock.attn_norm blk) x t =
              Ok (LayerNorm_call (AdaLayerNormZero.norm (DiTBlock.attn_norm blk)) x,
                  full2 (b, d) f0, full2 (b, d) f0, full2 (b, d) f0, full2 (b, d) f0) /\
            DiTBlock.call blk x t mask rope = Ok x)
    (DiT.transformer_blocks self) /\
  DiT.run_blocks (DiT.transformer_blocks self) x t mask rope = Ok x /\
  AdaLayerNormZero_Final.call (DiT.norm_out self) x t =
    Ok (LayerNorm_call (AdaLayerNormZero_Final.norm (DiT.norm_out self)) x).
Proof.
  intros Hblocks Hfin Hx Hwx Ht Hwt. split; [|split].
  - eapply Forall_impl; [|exact Hblocks].
    intros blk Hblk. split.
    + now apply zero_block_gates with n.
    + now apply zero_block_identity with b n d.
  - now apply zero_blocks_identity with b n d.
  - now apply zero_final_norm with b n d.
Qed.

Lemma zero_init_identity_witness :
  exists self : DiT.t Z unit,
    DiT.init tiny = Ok self /\
    let z := zero_modulation self in
    Forall (fun blk =>
              AdaLayerNormZero.call (DiTBlock.attn_norm blk) x_1_2_2 t_1_2 =
                Ok (LayerNorm_call (AdaLayerNormZero.norm (DiTBlock.attn_norm blk)) x_1_2_2,
                    full2 (1, 2)%nat 0, full2 (1, 2)%nat 0,
                    full2 (1, 2)%nat 0, full2 (1, 2)%nat 0) /\
              DiTBlock.call blk x_1_2_2 t_1_2 None tt = Ok x_1_2_2)
      (DiT.transformer_blocks z) /\
    DiT.run_blocks (DiT.transformer_blocks z) x_1_2_2 t_1_2 None tt = Ok x_1_2_2 /\
    AdaLayerNormZero_Final.call (DiT.norm_out z) x_1_2_2 t_1_2 =
      Ok (LayerNorm_call (AdaLayerNormZero_Final.norm (DiT.norm_out z)) x_1_2_2).
Proof.
  destruct (DiT.init (F := Z) (Rope := unit) tiny) as [self|e] eqn:E;
    [|vm_compute in E; discriminate E].
  exists self. split; [reflexivity|].
  destruct (@init_zero_modulation Z unit _ _ tiny self 1 2 pointwise_preserve E)
    as [Hblocks Hfin].
  apply (@zero_init_identity Z unit integer_scalar integer_exact
           (zero_modulation self) x_1_2_2 t_1_2 None tt 1 2 2 Hblocks Hfin).
  - reflexivity.
  - split; [reflexivity|]. repeat constructor.
  - reflexivity.
  - split; [reflexivity|]. repeat constructor.
Defined.

(** C3. Classifier-free-guidance dropout is deterministic zeroing:
    [drop_audio_cond=True] is the call with [cond] replaced by the all-zero
    tensor of its shape; [drop_text=True] is the embedding lookup on the
    all-zero id tensor of the shape of the shifted and padded ids, and
    equals the call on an all-filler text of the same shape, whose shifted
    and padded ids are all zero. *)
Theorem cfg_dropout_is_zeroing (F Rope : Type) (SF : Scalar F) (MD : Modules F Rope)
  (self : DiT.t F Rope) (x cond : array3 F) (text : array2 Z) (time : time_arg F)
  (mask : option (array2 bool)) :
  (forall drop_text,
      DiT.call self x cond text time true drop_text mask =
      DiT.call self x (full3 (shape3 cond) f0) text time false drop_text mask) /\
  (forall seq_len,
      TextEmbedding.call (Rope := Rope) (DiT.text_embed self) text seq_len true =
      let* ids := shift_and_pad text seq_len in
      embed_ids (Rope := Rope) (DiT.text_embed self) (dim0_2 text) seq_len
        (full2 (shape2 ids) 0)) /\
  (forall drop_audio_cond,
      DiT.call self x cond text time drop_audio_cond true mask =
      DiT.call self x cond (full2 (shape2 text) (-1)) time drop_audio_cond false mask).
Proof.
  split; [|split].
  - intros drop_text. reflexivity.
  - intros seq_len. apply TextEmbedding_call_stages.
  - intros dac. rewrite !DiT_call_stages. unfold fuse.
    now rewrite TextEmbedding_call_drop_text.
Qed.

(** C4. The backbone on a noised-audio tensor of shape (1, 2, 100) with a
    text of 3 tokens: the text encoder raises (the slip of C1), so the call
    returns no tensor at all. *)
Theorem DiT_call_longer_text_raises (F Rope : Type) (SF : Scalar F) (MD : Modules F Rope)
  (self : DiT.t F Rope) (cond : array3 F) (time : time_arg F)
  (drop_audio_cond drop_text : bool) (mask : option (array2 bool)) :
  DiT.call self (full3 (1, 2, 100)%nat f0) cond text_1_3 time
    drop_audio_cond drop_text mask = Raise PadNegative.
Proof.
  rewrite DiT_call_stages. unfold fuse. cbv zeta.
  rewrite TextEmbedding_call_longer by (unfold text_1_3, dim1_2, dim1_3; simpl; lia).
  reflexivity.
Qed.

(** C5 (as stated, refuted).  With collaborators that refuse a non-positive
    number of heads, the backbone [DiT(dim=1024, depth=0, heads=0)] is
    constructed without any error: no block is built, so [heads] reaches no
    constructor. *)
Lemma nonpositive_depth_heads_construct :
  ~ (forall kw : DiT.kwargs,
        DiT.depth kw <= 0 \/ DiT.heads kw <= 0 ->
        exists e, DiT.init (F := Z) (Rope := unit) (MD := strict_modules) kw = Raise e).
Proof.
  intros H. destruct (H (with_depth_heads (DiT.defaults 1024) 0 0)) as [e He].
  - left. simpl. lia.
  - assert (Hok : is_ok (DiT.init (F := Z) (Rope := unit) (MD := strict_modules)
                           (with_depth_heads (DiT.defaults 1024) 0 0)) = true).
    { apply DiT_init_ok.
      - split; apply Nat.lt_0_succ.
      - repeat split; try reflexivity.
      - simpl. lia. }
    rewrite He in Hok. discriminate Hok.
Qed.

(** C5 (amended).  [DiT.__init__] validates neither [depth] nor [heads].
    With a non-positive depth, positive widths, and the collaborator
    constructors it calls outside the blocks accepting their arguments,
    construction succeeds, the backbone has no transformer block, and it is
    the same backbone whatever [heads] is: neither [Attention] nor
    [FeedForward] is called. *)
Theorem DiT_init_nonpositive_depth (F Rope : Type) (SF : Scalar F) (MD : Modules F Rope)
  (kw : DiT.kwargs) :
  DiT.depth kw <= 0 ->
  positive_widths kw ->
  embedders_accept MD kw ->
  exists self : DiT.t F Rope,
    DiT.init kw = Ok self /\
    DiT.transformer_blocks self = [] /\
    forall heads, DiT.init (with_depth_heads kw (DiT.depth kw) heads) = Ok self.
Proof.
  intros Hdepth Hpos Hacc.
  assert (Hok : is_ok (DiT.init (F := F) (Rope := Rope) kw) = true)
    by (apply DiT_init_ok; [assumption | assumption | lia]).
  destruct (DiT.init kw) as [self|e] eqn:E; [|discriminate Hok].
  exists self. split; [reflexivity|].
  pose proof (DiT_init_inv _ E)
    as (te & tx & ie & re & blocks & Hte & Htx & Hie & Hre & Hb & Hdim & ->).
  rewrite (range_nonpositive Hdepth) in Hb. simpl in Hb. injection Hb as <-.
  split; [reflexivity|].
  intros heads.
  rewrite (@DiT_init_build F Rope SF MD (with_depth_heads kw (DiT.depth kw) heads)
             te tx ie re []); try assumption.
  - reflexivity.
  - simpl. now rewrite (range_nonpositive Hdepth).
Qed.

Lemma DiT_init_nonpositive_depth_witness :
  exists self : DiT.t Z unit,
    DiT.init (MD := strict_modules) (with_depth_heads (DiT.defaults 1024) 0 0) = Ok self /\
    DiT.transformer_blocks self = [] /\
    forall heads,
      DiT.init (MD := strict_modules)
        (with_depth_heads (with_depth_heads (DiT.defaults 1024) 0 0) 0 heads) = Ok self.
Proof.
  apply (@DiT_init_nonpositive_depth Z unit _ strict_modules
           (with_depth_heads (DiT.defaults 1024) 0 0)).
  - simpl. lia.
  - split; apply Nat.lt_0_succ.
  - repeat split; try reflexivity.
Defined.

(** C6. A scalar timestep is broadcast to the batch: the call with the
    scalar [s] equals the call with any (b,)-shaped timestep whose entries
    all equal [s]. *)
Theorem scalar_time_broadcast (F Rope : Type) (SF : Scalar F) (MD : Modules F Rope)
  (self : DiT.t F Rope) (x cond : array3 F) (text : array2 Z) (s : F) (v : list F)
  (drop_audio_cond drop_text : bool) (mask : option (array2 bool)) :
  length v = dim0_3 x -> Forall (fun e => e = s) v ->
  DiT.call self x cond text (TimeScalar s) drop_audio_cond drop_text mask =
  DiT.call self x cond text (TimeVector v) drop_audio_cond drop_text mask.
Proof.
  intros Hlen Hall. rewrite (repeat_all Hall), Hlen. reflexivity.
Qed.

Lemma scalar_time_broadcast_witness :
  exists self : DiT.t Z unit,
    DiT.init (MD := strict_modules) small = Ok self /\
    DiT.call (MD := strict_modules) self x_2_1_2 x_2_1_2 text_2_1 (TimeScalar 5)
      false false None =
    DiT.call (MD := strict_modules) self x_2_1_2 x_2_1_2 text_2_1 (TimeVector [5; 5])
      false false None /\
    exists out, DiT.call (MD := strict_modules) self x_2_1_2 x_2_1_2 text_2_1
                  (TimeVector [5; 5]) false false None = Ok out /\
                shape3 out = (2, 1, 2)%nat.
Proof.
  destruct (DiT.init (F := Z) (Rope := unit) (MD := strict_modules) small)
    as [self|e] eqn:E; [|vm_compute in E; discriminate E].
  exists self. split; [reflexivity|]. split.
  - apply (@scalar_time_broadcast Z unit _ strict_modules self
             x_2_1_2 x_2_1_2 text_2_1 5 [5; 5]).
    + reflexivity.
    + repeat constructor.
  - assert (Hx : wf3 x_2_1_2) by (split; [reflexivity | repeat constructor]).
    assert (Ht : wf2 text_2_1) by (split; [reflexivity | repeat constructor]).
    destruct (@DiT_call_shape Z unit _ strict_modules strict_preserve small self
                x_2_1_2 x_2_1_2 text_2_1 (TimeVector [5; 5]) false false None 2 1 1
                E eq_refl Hx eq_refl Hx eq_refl Ht (le_n 1) eq_refl)
      as (out & Hout & Hs & _).
    exists out. split; assumption.
Defined.



(** C8. The long skip connection: when configured, [__init__] stores a
    projection from width 2d to width d without a bias, and [__call__]
    keeps the fused state [x0] from before the block loop, concatenates the
    loop's output [xN] with it along the channel axis and projects the
    result: every row of the new state holds, for each of the d rows [w] of
    the weight, the sum of the products of [xN_row ++ x0_row] with [w], and
    nothing is added.  When not configured, the loop's output goes to the
    final modulation as it is. *)
Theorem long_skip_connection_wiring (F Rope : Type) (SF : Scalar F) (MD : Modules F Rope)
  (kw : DiT.kwargs) (self : DiT.t F Rope) (x cond : array3 F) (text : array2 Z)
  (time : time_arg F) (drop_audio_cond drop_text : bool) (mask : option (array2 bool)) :
  DiT.init kw = Ok self ->
  let long_skip := fresh_Linear (F := F) (DiT.dim kw * 2) (DiT.dim kw) false in
  let t := conditioning self (dim0_3 x) time in
  DiT.self_long_skip_connection self =
    (if DiT.long_skip_connection kw then Some long_skip else None) /\
  shape2 (weight long_skip) = (DiT.dim kw, (DiT.dim kw * 2)%nat) /\
  bias long_skip = None /\
  (forall a b c, concatenate2 (F := F) a b = Ok c ->
                 shape3 c = (dim0_3 a, dim1_3 a, (dim2_3 a + dim2_3 b)%nat) /\
                 data3 c = zipWith (zipWith (@app F)) (data3 a) (data3 b)) /\
  DiT.call self x cond text time drop_audio_cond drop_text mask =
    (let* x0 := fuse self x cond text drop_audio_cond drop_text in
     let* xN := DiT.run_blocks (DiT.transformer_blocks self) x0 t mask
                  (DiT.rotary_embed self (dim1_3 x)) in
     if DiT.long_skip_connection kw then
       let* c := concatenate2 xN x0 in
       let* y := Linear_call3 long_skip c in
       finish self y t
     else finish self xN t) /\
  (forall x0 xN b n,
      fuse self x cond text drop_audio_cond drop_text = Ok x0 ->
      DiT.run_blocks (DiT.transformer_blocks self) x0 t mask
        (DiT.rotary_embed self (dim1_3 x)) = Ok xN ->
      shape3 x0 = (b, n, DiT.dim kw) -> shape3 xN = (b, n, DiT.dim kw) ->
      DiT.call self x cond text time drop_audio_cond drop_text mask =
        if DiT.long_skip_connection kw then
          finish self
            {| shape3 := (b, n, DiT.dim kw);
               data3 := map (map (fun r =>
                                    map (fun w =>
                                           fold_right
                                             (fun p acc => fadd (fmul (fst p) (snd p)) acc)
                                             f0 (combine r w))
                                        (data2 (weight long_skip))))
                          (zipWith (zipWith (@app F)) (data3 xN) (data3 x0)) |} t
        else finish self xN t).
Proof.
  intros Hinit long_skip t.
  pose proof (DiT_init_inv _ Hinit)
    as (te & tx & ie & re & blocks & _ & _ & _ & _ & _ & _ & Hself).
  assert (Hls : DiT.self_long_skip_connection self =
                (if DiT.long_skip_connection kw then Some long_skip else None))
    by (rewrite Hself; reflexivity).
  split; [exact Hls|]. split; [reflexivity|]. split; [reflexivity|]. split; [|split].
  - intros a b c. unfold concatenate2.
    destruct (_ && _); [|discriminate]. intros [= <-]. auto.
  - rewrite DiT_call_stages, Hls. destruct (DiT.long_skip_connection kw); reflexivity.
  - intros x0 xN b n H0 HN Hs0 HsN.
    rewrite DiT_call_stages, Hls. cbv zeta. fold t. rewrite H0. cbn [bind].
    rewrite HN. cbn [bind].
    destruct (DiT.long_skip_connection kw); [|reflexivity].
    pose proof (@long_skip_step F SF long_skip xN x0 b n (DiT.dim kw)
                  eq_refl eq_refl HsN Hs0) as Hstep.
    destruct (concatenate2 xN x0) as [c|e]; [|discriminate Hstep].
    cbn [bind] in Hstep |- *. rewrite Hstep. reflexivity.
Qed.

Lemma long_skip_connection_wiring_witness :
  exists (self : DiT.t Z unit) (x0 xN : array3 Z),
    DiT.init (MD := strict_modules) small = Ok self /\
    DiT.self_long_skip_connection self = Some (fresh_Linear 32 16 false) /\
    fuse (MD := strict_modules) self x_1_2_2 x_1_2_2 text_1_1 false false = Ok x0 /\
    DiT.run_blocks (DiT.transformer_blocks self) x0
      (conditioning self 1 (TimeScalar 5)) None (DiT.rotary_embed self 2) = Ok xN /\
    DiT.call (MD := strict_modules) self x_1_2_2 x_1_2_2 text_1_1 (TimeScalar 5)
      false false None =
      finish self
        {| shape3 := (1, 2, 16)%nat;
           data3 := map (map (fun r =>
                                map (fun w =>
                                       fold_right (fun p acc => fst p * snd p + acc) 0
                                         (combine r w))
                                    (data2 (weight (fresh_Linear (F := Z) 32 16 false)))))
                      (zipWith (zipWith (@app Z)) (data3 xN) (data3 x0)) |}
        (conditioning self 1 (TimeScalar 5)).
Proof.
  destruct (DiT.init (F := Z) (Rope := unit) (MD := strict_modules) small)
    as [self|e] eqn:E; [|vm_compute in E; discriminate E].
  assert (Hx : wf3 x_1_2_2) by (split; [reflexivity | repeat constructor]).
  assert (Ht : wf2 text_1_1) by (split; [reflexivity | repeat constructor]).
  destruct (@fuse_shape Z unit _ strict_modules strict_preserve small self
              x_1_2_2 x_1_2_2 text_1_1 false false 1 2 1
              E eq_refl Hx eq_refl Hx eq_refl Ht (le_S _ _ (le_n 1)))
    as (x0 & H0 & Hs0 & Hw0).
  destruct (@conditioning_shape Z unit _ strict_modules strict_preserve small self 1
              (TimeScalar 5) E I) as [Hst Hwt].
  destruct (@shaped_blocks_run Z unit _ (DiT.transformer_blocks self) x0
              (conditioning self 1 (TimeScalar 5)) None (DiT.rotary_embed self 2) 1 2 16
              (@init_shaped_blocks Z unit _ strict_modules strict_preserve small self 1 2 E)
              Hs0 Hw0 Hst Hwt)
    as (xN & HN & HsN & _).
  exists self, x0, xN. split; [reflexivity|].
  destruct (@long_skip_connection_wiring Z unit _ strict_modules small self
              x_1_2_2 x_1_2_2 text_1_1 (TimeScalar 5) false false None E)
    as (H1 & _ & _ & _ & _ & H2).
  split; [exact H1|]. split; [exact H0|]. split; [exact HN|].
  exact (H2 x0 xN 1%nat 2%nat H0 HN Hs0 HsN).
Defined.

(** C9. With [text_dim] left unset the constructor falls back to
    [mel_dim]: construction is the construction with [text_dim=mel_dim];
    it succeeds when [dim] and [mel_dim] are positive and the collaborator
    constructors it calls accept their arguments; the embedding table has
    width [mel_dim] and the input-fusion projection has input width
    [2 * mel_dim + mel_dim]. *)
Theorem text_dim_defaults_to_mel_dim (F Rope : Type) (SF : Scalar F) (MD : Modules F Rope)
  (kw : DiT.kwargs) :
  DiT.text_dim kw = None ->
  (0 < DiT.dim kw)%nat -> (0 < DiT.mel_dim kw)%nat ->
  embedders_accept MD kw ->
  (0 < DiT.depth kw -> block_accepts MD kw) ->
  exists self : DiT.t F Rope,
    DiT.init kw = Ok self /\
    DiT.init (with_text_dim kw (Some (DiT.mel_dim kw))) = Ok self /\
    shape2 (emb_weight (TextEmbedding.text_embed (DiT.text_embed self)))
      = ((DiT.text_num_embeds kw + 1)%nat, DiT.mel_dim kw) /\
    shape2 (weight (InputEmbedding.proj (DiT.input_embed self)))
      = (DiT.dim kw, (DiT.mel_dim kw * 2 + DiT.mel_dim kw)%nat).
Proof.
  intros Hnone Hdim Hmel Hacc Hblock.
  assert (Hw : text_width kw = DiT.mel_dim kw) by (unfold text_width; now rewrite Hnone).
  assert (Hok : is_ok (DiT.init (F := F) (Rope := Rope) kw) = true).
  { apply DiT_init_ok; [|assumption|assumption]. split; [exact Hdim | now rewrite Hw]. }
  destruct (DiT.init kw) as [self|e] eqn:E; [|discriminate Hok].
  exists self. split; [reflexivity|]. split.
  - rewrite <- E. unfold DiT.init. simpl. rewrite Hnone. reflexivity.
  - pose proof (DiT_init_inv _ E)
      as (te & tx & ie & re & blocks & _ & Htx & Hie & _ & _ & _ & ->).
    rewrite Hw in Htx, Hie. simpl.
    apply TextEmbedding_init_inv in Htx as (_ & -> & _).
    apply InputEmbedding_init_inv in Hie as [_ ->]. split; reflexivity.
Qed.

Lemma text_dim_defaults_to_mel_dim_witness :
  exists self : DiT.t Z unit,
    DiT.init (MD := strict_modules) (DiT.defaults 16) = Ok self /\
    DiT.init (MD := strict_modules) (with_text_dim (DiT.defaults 16) (Some 100%nat))
      = Ok self /\
    shape2 (emb_weight (TextEmbedding.text_embed (DiT.text_embed self))) = (257, 100)%nat /\
    shape2 (weight (InputEmbedding.proj (DiT.input_embed self))) = (16, 300)%nat.
Proof.
  apply (@text_dim_defaults_to_mel_dim Z unit _ strict_modules (DiT.defaults 16)).
  - reflexivity.
  - apply Nat.lt_0_succ.
  - apply Nat.lt_0_succ.
  - repeat split; try reflexivity.
  - intros _. split; reflexivity.
Defined.

(** C10. The embedding table has [text_num_embeds + 1] rows.  A token id
    [v] with [-1 <= v <= text_num_embeds - 1] is shifted to [v + 1] in
    [0, text_num_embeds], an index inside the table, and the filler [-1]
    reads row 0.  No id is checked before the lookup: whatever the ids, the
    call returns the gathered rows, and an id shifted outside the table is
    an unchecked read. *)
Theorem shifted_ids_index_the_table (F Rope : Type) (SF : Scalar F) (MD : Modules F Rope)
  (text_num_embeds text_dim : nat) (conv_layers : Z) (conv_mult : nat)
  (self : TextEmbedding.t F) (v : Z) :
  TextEmbedding.init (Rope := Rope) text_num_embeds text_dim conv_layers conv_mult = Ok self ->
  -1 <= v <= Z.of_nat text_num_embeds - 1 ->
  let table := emb_weight (TextEmbedding.text_embed self) in
  shape2 table = ((text_num_embeds + 1)%nat, text_dim) /\
  0 <= v + 1 <= Z.of_nat text_num_embeds /\
  v + 1 < Z.of_nat (dim0_2 table) /\
  take_row table (v + 1) = nth (Z.to_nat (v + 1)) (data2 table) [] /\
  In (take_row table (v + 1)) (data2 table) /\
  take_row table (-1 + 1) = nth 0 (data2 table) [] /\
  (forall text seq_len,
      wf2 text -> (dim1_2 text <= seq_len)%nat ->
      TextEmbedding.extra_modeling self = false ->
      TextEmbedding.call (Rope := Rope) self text seq_len false =
      Ok (take_rows table
            {| shape2 := (dim0_2 text, seq_len);
               data2 := map (fun r => map (fun u => u + 1) r
                                      ++ repeat 0 (seq_len - dim1_2 text))
                          (data2 text) |})) /\
  (forall u, u + 1 < - Z.of_nat (text_num_embeds + 1)
             \/ Z.of_nat (text_num_embeds + 1) <= u + 1 ->
             take_row table (u + 1) = map (gather_oob table (u + 1)) (seq 0 text_dim)).
Proof.
  intros Hinit Hv table.
  apply TextEmbedding_init_inv in Hinit as (_ & Htab & _).
  destruct (fresh_Embedding_wf (F := F) (text_num_embeds + 1) text_dim) as [Hs Hwf].
  rewrite <- Htab in Hs, Hwf. fold table in Hs, Hwf.
  assert (Hrows : dim0_2 table = (text_num_embeds + 1)%nat) by (unfold dim0_2; now rewrite Hs).
  assert (Hdims : dim1_2 table = text_dim) by (unfold dim1_2; now rewrite Hs).
  split; [exact Hs|]. split; [lia|]. split; [lia|].
  destruct (@take_row_in_range F SF table (v + 1) Hwf ltac:(lia)) as (Hrow & Hin & _).
  destruct (@take_row_in_range F SF table (-1 + 1) Hwf ltac:(lia)) as (Hrow0 & _ & _).
  split; [exact Hrow|]. split; [exact Hin|]. split; [exact Hrow0|]. split.
  - intros text seq_len Hwt Hle Hex. now apply TextEmbedding_call_shorter.
  - intros u Hu. rewrite <- Hdims. apply take_row_out_of_range. rewrite Hrows. exact Hu.
Qed.

Lemma shifted_ids_index_the_table_witness :
  exists self : TextEmbedding.t Z,
    TextEmbedding.init (Rope := unit) 3 2 0 2 = Ok self /\
    let table := emb_weight (TextEmbedding.text_embed self) in
    shape2 table = (4, 2)%nat /\
    take_row table (2 + 1) = nth 3 (data2 table) [] /\
    take_row table (-1 + 1) = nth 0 (data2 table) [].
Proof.
  eexists. split; [reflexivity|].
  destruct (@shifted_ids_index_the_table Z unit _ _ 3 2 0 2 _ 2 eq_refl ltac:(simpl; lia))
    as (H1 & _ & _ & H2 & _ & H3 & _).
  split; [exact H1|]. split; [exact H2 | exact H3].
Defined.

(** * Further properties of the forward pass and of construction *)

(** ** Helper facts *)

Section MoreHelpers.
Variables F Rope : Type.
Context {SF : Scalar F} {MD : Modules F Rope}.

Lemma DiT_call_longer (self : DiT.t F Rope) x cond text time dac dt mask :
  (dim1_3 x < dim1_2 text)%nat ->
  DiT.call self x cond text time dac dt mask = Raise PadNegative.
Proof.
  intros H. rewrite DiT_call_stages. unfold fuse. cbv zeta.
  rewrite TextEmbedding_call_longer by exact H. reflexivity.
Qed.

Lemma DiTBlock_init_shaped dim heads dim_head ff_mult dropout (blk : DiTBlock.t F Rope) b n :
  collaborators_preserve MD ->
  DiTBlock.init dim heads dim_head ff_mult dropout = Ok blk ->
  shaped_block b n dim blk.
Proof.
  intros HMD Hblk.
  apply DiTBlock_init_inv in Hblk as (attn & ff & _ & Hattn & Hff & ->).
  unfold shaped_block. simpl.
  split; [apply fresh_Linear_wf|].
  split; [apply nn_LayerNorm_nonaffine|]. split; [apply nn_LayerNorm_nonaffine|].
  split.
  - intros mask rope. eapply (Attention_preserves HMD). exact Hattn.
  - eapply (FeedForward_preserves HMD). exact Hff.
Qed.

Lemma comprehension_length {A} (f : nat -> result A) range xs :
  comprehension f range = Ok xs -> length xs = length range.
Proof.
  revert xs. induction range as [|i range IH]; simpl; intros xs H.
  - now injection H as <-.
  - apply bind_ok in H as (a & Ha & H). apply bind_ok in H as (rest & Hrest & H).
    injection H as <-. simpl. f_equal. now apply IH.
Qed.

Lemma concatenate2_mismatch (a c : array3 F) :
  (dim0_3 a, dim1_3 a) <> (dim0_3 c, dim1_3 c) ->
  concatenate2 a c = Raise ConcatShapes.
Proof.
  intros H. unfold concatenate2.
  destruct (Nat.eqb_spec (dim0_3 a) (dim0_3 c)), (Nat.eqb_spec (dim1_3 a) (dim1_3 c));
    try reflexivity.
  exfalso. apply H. congruence.
Qed.

Lemma concatenate2_dims (a c r : array3 F) :
  concatenate2 a c = Ok r -> dim0_3 r = dim0_3 a /\ dim1_3 r = dim1_3 a.
Proof.
  unfold concatenate2. destruct (_ && _); [|discriminate].
  intros [= <-]. split; reflexivity.
Qed.

Lemma filler_padded_wf text seq_len :
  wf2 text -> (dim1_2 text <= seq_len)%nat ->
  wf2 (filler_padded text seq_len).
Proof.
  intros [Hb Hrows] Hle.
  apply (@wf2_intro Z _ (dim0_2 text) seq_len); [reflexivity | |]; simpl.
  - now rewrite length_map.
  - rewrite Forall_map. eapply Forall_impl; [|exact Hrows].
    intros r Hr. simpl in Hr. rewrite length_app, repeat_length. lia.
Qed.

Lemma shift_and_pad_filler_padded text seq_len :
  wf2 text -> (dim1_2 text <= seq_len)%nat ->
  shift_and_pad (filler_padded text seq_len) seq_len = shift_and_pad text seq_len.
Proof.
  intros Hwf Hle.
  rewrite (shift_and_pad_shorter Hwf Hle).
  rewrite (shift_and_pad_shorter (filler_padded_wf Hwf Hle))
    by (unfold filler_padded, dim1_2; simpl; lia).
  f_equal. unfold filler_padded, dim0_2, dim1_2. simpl. f_equal.
  rewrite map_map. apply map_ext. intros r.
  rewrite Nat.sub_diag. simpl. rewrite app_nil_r, map_app, map_repeat. reflexivity.
Qed.

End MoreHelpers.

(** ** The text encoder *)

(** X1. Without extra modeling and for a text no longer than the target,
    position [j] of the returned sequence is row [v + 1] of the embedding
    table for the [j]-th token [v], and every position past the text is
    row 0, the filler row; with [drop_text] every position is row 0. *)
Theorem TextEmbedding_rows_then_filler (F Rope : Type) (SF : Scalar F) (MD : Modules F Rope)
  (self : TextEmbedding.t F) (text : array2 Z) (seq_len : nat) :
  wf2 text -> (dim1_2 text <= seq_len)%nat ->
  TextEmbedding.extra_modeling self = false ->
  let table := emb_weight (TextEmbedding.text_embed self) in
  TextEmbedding.call (Rope := Rope) self text seq_len false =
    Ok {| shape3 := (dim0_2 text, seq_len, dim1_2 table);
          data3 := map (fun r => map (fun v => take_row table (v + 1)) r
                                 ++ repeat (take_row table 0) (seq_len - dim1_2 text))
                     (data2 text) |} /\
  TextEmbedding.call (Rope := Rope) self text seq_len true =
    Ok {| shape3 := (dim0_2 text, seq_len, dim1_2 table);
          data3 := repeat (repeat (take_row table 0) seq_len) (dim0_2 text) |}.
Proof.
  intros Hwf Hle Hex table. split.
  - rewrite (TextEmbedding_call_shorter (Rope := Rope) self Hwf Hle Hex).
    unfold take_rows. fold table. simpl. f_equal. f_equal.
    rewrite map_map. apply map_ext. intros r.
    now rewrite map_app, map_map, map_repeat.
  - rewrite TextEmbedding_call_stages, (shift_and_pad_shorter Hwf Hle). cbn [bind].
    unfold embed_ids. rewrite Hex.
    unfold Embedding_call, take_rows, zeros_like2, full2. fold table. simpl.
    now rewrite !map_repeat.
Qed.

Lemma TextEmbedding_rows_then_filler_witness :
  exists self : TextEmbedding.t Z,
    TextEmbedding.init (Rope := unit) 3 2 0 2 = Ok self /\
    TextEmbedding.call (Rope := unit) self text_1_1 2 false =
      Ok {| shape3 := (1, 2, 2)%nat; data3 := [[[3; 4]; [0; 1]]] |} /\
    TextEmbedding.call (Rope := unit) self text_1_1 2 true =
      Ok {| shape3 := (1, 2, 2)%nat; data3 := [[[0; 1]; [0; 1]]] |}.
Proof.
  eexists. split; [reflexivity|].
  match goal with
  | |- TextEmbedding.call ?s _ _ _ = _ /\ _ =>
      apply (@TextEmbedding_rows_then_filler Z unit _ _ s text_1_1 2)
  end.
  - split; [reflexivity|]. repeat constructor.
  - unfold text_1_1, dim1_2. simpl. lia.
  - reflexivity.
Defined.

(** X2. Filler ids written by the caller and padding added by the encoder
    are the same thing: a text padded with [-1] up to the target length is
    embedded exactly as the unpadded text. *)
Theorem explicit_filler_is_padding (F Rope : Type) (SF : Scalar F) (MD : Modules F Rope)
  (self : TextEmbedding.t F) (text : array2 Z) (seq_len : nat) (drop_text : bool) :
  wf2 text -> (dim1_2 text <= seq_len)%nat ->
  TextEmbedding.call (Rope := Rope) self (filler_padded text seq_len) seq_len drop_text =
  TextEmbedding.call (Rope := Rope) self text seq_len drop_text.
Proof.
  intros Hwf Hle. rewrite !TextEmbedding_call_stages.
  now rewrite (shift_and_pad_filler_padded Hwf Hle).
Qed.

Lemma explicit_filler_is_padding_witness :
  exists self : TextEmbedding.t Z,
    TextEmbedding.init (Rope := unit) 3 2 2 2 = Ok self /\
    TextEmbedding.call (Rope := unit) self (filler_padded text_1_1 2) 2 false =
    TextEmbedding.call (Rope := unit) self text_1_1 2 false.
Proof.
  eexists. split; [reflexivity|].
  apply (@explicit_filler_is_padding Z unit _ _ _ text_1_1 2 false).
  - split; [reflexivity|]. repeat constructor.
  - unfold text_1_1, dim1_2. simpl. lia.
Defined.

(** X3. A freshly built text encoder, with or without convolution layers,
    whose collaborators keep shapes: on a well-formed (b, nt) text the call
    returns a well-formed (b, seq_len, text_dim) sequence when
    [nt <= seq_len], whatever [drop_text] is, and raises when
    [nt > seq_len]; it never fails on a missing attribute. *)
Theorem TextEmbedding_call_ok_iff (F Rope : Type) (SF : Scalar F) (MD : Modules F Rope)
  (text_num_embeds text_dim : nat) (conv_layers : Z) (conv_mult : nat)
  (self : TextEmbedding.t F) (text : array2 Z) (seq_len : nat) (drop_text : bool)
  (b nt : nat) :
  collaborators_preserve MD ->
  TextEmbedding.init (Rope := Rope) text_num_embeds text_dim conv_layers conv_mult = Ok self ->
  shape2 text = (b, nt) -> wf2 text ->
  ((nt <= seq_len)%nat ->
     exists te, TextEmbedding.call (Rope := Rope) self text seq_len drop_text = Ok te /\
                shape3 te = (b, seq_len, text_dim) /\ wf3 te) /\
  ((seq_len < nt)%nat ->
     TextEmbedding.call (Rope := Rope) self text seq_len drop_text = Raise PadNegative).
Proof.
  intros HMD Hinit Hs Hwf. split.
  - intros Hle. exact (TextEmbedding_call_shape HMD _ _ _ _ drop_text Hinit Hs Hwf Hle).
  - intros Hlt. apply TextEmbedding_call_longer. unfold dim1_2. rewrite Hs. exact Hlt.
Qed.

Lemma TextEmbedding_call_ok_iff_witness :
  exists self : TextEmbedding.t Z,
    TextEmbedding.init (Rope := unit) 3 2 2 2 = Ok self /\
    (exists te, TextEmbedding.call (Rope := unit) self text_1_1 2 true = Ok te /\
                shape3 te = (1, 2, 2)%nat /\ wf3 te) /\
    TextEmbedding.call (Rope := unit) self text_1_3 2 true = Raise PadNegative.
Proof.
  eexists. split; [reflexivity|]. split.
  - refine (proj1 (@TextEmbedding_call_ok_iff Z unit _ _ 3 2 2 2 _ text_1_1 2 true 1 1
                     pointwise_preserve eq_refl eq_refl _) _).
    + split; [reflexivity|]. repeat constructor.
    + lia.
  - refine (proj2 (@TextEmbedding_call_ok_iff Z unit _ _ 3 2 2 2 _ text_1_3 2 true 1 3
                     pointwise_preserve eq_refl eq_refl _) _).
    + split; [reflexivity|]. repeat constructor.
    + lia.
Defined.

(** ** The input fuser *)

(** X4. A freshly built input fuser, whose positional collaborator keeps
    shapes, maps noised audio and conditioning audio of shape
    (b, n, mel_dim) and a text embedding of shape (b, n, text_dim) to a
    well-formed state of shape (b, n, out_dim), with or without dropping the
    conditioning audio. *)
Theorem InputEmbedding_fuses_to_model_width (F Rope : Type) (SF : Scalar F)
  (MD : Modules F Rope) (mel_dim text_dim out_dim : nat) (self : InputEmbedding.t F)
  (x cond te : array3 F) (drop_audio_cond : bool) (b n : nat) :
  collaborators_preserve MD ->
  InputEmbedding.init (Rope := Rope) mel_dim text_dim out_dim = Ok self ->
  shape3 x = (b, n, mel_dim) -> wf3 x ->
  shape3 cond = (b, n, mel_dim) -> wf3 cond ->
  shape3 te = (b, n, text_dim) -> wf3 te ->
  exists y, InputEmbedding.call self x cond te drop_audio_cond = Ok y /\
            shape3 y = (b, n, out_dim) /\ wf3 y.
Proof.
  intros HMD Hinit Hx Hwx Hc Hwc Ht Hwt.
  exact (InputEmbedding_call_shape HMD _ drop_audio_cond Hinit Hx Hwx Hc Hwc Ht Hwt).
Qed.

Lemma InputEmbedding_fuses_to_model_width_witness :
  exists (self : InputEmbedding.t Z) (y : array3 Z),
    InputEmbedding.init (Rope := unit) 2 2 3 = Ok self /\
    InputEmbedding.call self x_1_2_2 cond_1_2_2 x_1_2_2 true = Ok y /\
    shape3 y = (1, 2, 3)%nat /\ wf3 y.
Proof.
  eexists.
  assert (H : exists y : array3 Z,
             InputEmbedding.call
               {| InputEmbedding.proj := fresh_Linear (2 * 2 + 2) 3 true;
                  InputEmbedding.conv_pos_embed := map3 (fun v => 3 * v) |}
               x_1_2_2 cond_1_2_2 x_1_2_2 true = Ok y /\
             shape3 y = (1, 2, 3)%nat /\ wf3 y).
  { apply (@InputEmbedding_fuses_to_model_width Z unit _ _ 2 2 3 _
             x_1_2_2 cond_1_2_2 x_1_2_2 true 1 2 pointwise_preserve eq_refl).
    - reflexivity.
    - split; [reflexivity|]. repeat constructor.
    - reflexivity.
    - split; [reflexivity|]. repeat constructor.
    - reflexivity.
    - split; [reflexivity|]. repeat constructor. }
  destruct H as (y & Hy). exists y. split; [reflexivity | exact Hy].
Defined.

(** X5. The input fuser raises when the conditioning audio or the text
    embedding disagrees with the noised audio on the batch size or on the
    sequence length, also when the conditioning audio is dropped: the zeros
    that replace it keep its shape. *)
Theorem InputEmbedding_shape_mismatch_raises (F : Type) (SF : Scalar F)
  (self : InputEmbedding.t F) (x cond te : array3 F) (drop_audio_cond : bool) :
  (dim0_3 x, dim1_3 x) <> (dim0_3 cond, dim1_3 cond) \/
  (dim0_3 x, dim1_3 x) <> (dim0_3 te, dim1_3 te) ->
  InputEmbedding.call self x cond te drop_audio_cond = Raise ConcatShapes.
Proof.
  intros H. unfold InputEmbedding.call.
  set (cond' := if drop_audio_cond then zeros_like3 cond else cond).
  assert (Hc : dim0_3 cond' = dim0_3 cond /\ dim1_3 cond' = dim1_3 cond)
    by (unfold cond'; destruct drop_audio_cond; split; reflexivity).
  destruct Hc as [Hc0 Hc1]. clearbody cond'.
  cbn [concatenate].
  destruct (concatenate2 x cond') as [c|e] eqn:E1.
  - destruct (concatenate2_dims _ _ E1) as [Hd0 Hd1]. cbn [bind].
    rewrite concatenate2_mismatch; [reflexivity|].
    rewrite Hd0, Hd1. destruct H as [H|H]; [|exact H].
    exfalso. apply H. rewrite <- Hc0, <- Hc1.
    unfold concatenate2 in E1.
    destruct (Nat.eqb_spec (dim0_3 x) (dim0_3 cond')), (Nat.eqb_spec (dim1_3 x) (dim1_3 cond'));
      try discriminate E1. congruence.
  - unfold concatenate2 in E1. destruct (_ && _); [discriminate E1|].
    injection E1 as <-. reflexivity.
Qed.

Lemma InputEmbedding_shape_mismatch_raises_witness :
  exists self : InputEmbedding.t Z,
    InputEmbedding.init (Rope := unit) 2 2 3 = Ok self /\
    InputEmbedding.call self x_1_2_2 cond_1_3_2 x_1_2_2 true = Raise ConcatShapes.
Proof.
  eexists. split; [reflexivity|].
  apply (@InputEmbedding_shape_mismatch_raises Z _ _ x_1_2_2 cond_1_3_2 x_1_2_2 true).
  left. discriminate.
Defined.

(** X13. When the batch sizes and sequence lengths agree but the channel
    widths do not add up to the [2 * mel_dim + text_dim] the projection was
    built for, a freshly built input fuser raises at the projection, before
    the positional collaborator is called. *)
Theorem InputEmbedding_width_mismatch_raises (F Rope : Type) (SF : Scalar F)
  (MD : Modules F Rope) (mel_dim text_dim out_dim : nat) (self : InputEmbedding.t F)
  (x cond te : array3 F) (drop_audio_cond : bool) :
  InputEmbedding.init (Rope := Rope) mel_dim text_dim out_dim = Ok self ->
  (dim0_3 x, dim1_3 x) = (dim0_3 cond, dim1_3 cond) ->
  (dim0_3 x, dim1_3 x) = (dim0_3 te, dim1_3 te) ->
  (dim2_3 x + dim2_3 cond + dim2_3 te <> mel_dim * 2 + text_dim)%nat ->
  InputEmbedding.call self x cond te drop_audio_cond = Raise MatmulShapes.
Proof.
  intros Hinit Hc Ht Hw.
  apply InputEmbedding_init_inv in Hinit as [_ Hproj].
  unfold InputEmbedding.call. rewrite Hproj.
  set (cond' := if drop_audio_cond then zeros_like3 cond else cond).
  assert (Hs : shape3 cond' = shape3 cond)
    by (unfold cond'; destruct drop_audio_cond; reflexivity).
  clearbody cond'.
  injection Hc as Hc0 Hc1. injection Ht as Ht0 Ht1.
  cbn [concatenate]. unfold concatenate2, dim0_3, dim1_3, dim2_3 in *.
  rewrite Hs, Hc0, Hc1, !Nat.eqb_refl. cbn [andb bind shape3 fst snd].
  rewrite <- Hc0, <- Hc1, Ht0, Ht1, !Nat.eqb_refl. cbn [andb bind].
  unfold Linear_call3, dim2_3, dim1_2. cbn [shape3 shape2 weight fresh_Linear fst snd].
  destruct (Nat.eqb_spec (snd (shape3 x) + snd (shape3 cond) + snd (shape3 te))
              (mel_dim * 2 + text_dim)) as [E|_]; [contradiction|].
  reflexivity.
Qed.

Lemma InputEmbedding_width_mismatch_raises_witness :
  exists self : InputEmbedding.t Z,
    InputEmbedding.init (Rope := unit) 3 2 3 = Ok self /\
    InputEmbedding.call self x_1_2_2 cond_1_2_2 x_1_2_2 false = Raise MatmulShapes.
Proof.
  eexists. split; [reflexivity|].
  match goal with
  | |- InputEmbedding.call ?s _ _ _ _ = _ =>
      apply (@InputEmbedding_width_mismatch_raises Z unit _ _ 3 2 3 s
               x_1_2_2 cond_1_2_2 x_1_2_2 false)
  end; try reflexivity.
  discriminate.
Defined.

(** ** Dropped conditions *)

(** X6. A dropped condition is not read beyond its shape: with
    [drop_audio_cond] the backbone returns the same result for any two
    conditioning tensors of one shape, and with [drop_text] for any two
    token batches of one shape. *)
Theorem dropped_conditions_are_ignored (F Rope : Type) (SF : Scalar F) (MD : Modules F Rope)
  (self : DiT.t F Rope) (x cond cond' : array3 F) (text text' : array2 Z)
  (time : time_arg F) (mask : option (array2 bool)) :
  shape3 cond = shape3 cond' -> shape2 text = shape2 text' ->
  (forall drop_text,
      DiT.call self x cond text time true drop_text mask =
      DiT.call self x cond' text time true drop_text mask) /\
  (forall drop_audio_cond,
      DiT.call self x cond text time drop_audio_cond true mask =
      DiT.call self x cond text' time drop_audio_cond true mask).
Proof.
  intros Hc Ht. split.
  - intros drop_text.
    change (DiT.call self x (zeros_like3 cond) text time false drop_text mask =
            DiT.call self x (zeros_like3 cond') text time false drop_text mask).
    unfold zeros_like3. now rewrite Hc.
  - intros dac. rewrite !DiT_call_stages. unfold fuse.
    rewrite (TextEmbedding_call_drop_text (Rope := Rope) _ text).
    rewrite (TextEmbedding_call_drop_text (Rope := Rope) _ text').
    now rewrite Ht.
Qed.

Lemma dropped_conditions_are_ignored_witness :
  exists self : DiT.t Z unit,
    DiT.init tiny = Ok self /\
    (forall drop_text,
        DiT.call self x_1_2_2 x_1_2_2 text_1_1 (TimeScalar 5) true drop_text None =
        DiT.call self x_1_2_2 cond_1_2_2 text_1_1 (TimeScalar 5) true drop_text None) /\
    (forall drop_audio_cond,
        DiT.call self x_1_2_2 x_1_2_2 text_1_1 (TimeScalar 5) drop_audio_cond true None =
        DiT.call self x_1_2_2 x_1_2_2 text_1_1' (TimeScalar 5) drop_audio_cond true None).
Proof.
  destruct (DiT.init (F := Z) (Rope := unit) tiny) as [self|e] eqn:E;
    [|vm_compute in E; discriminate E].
  exists self. split; [reflexivity|].
  apply (@dropped_conditions_are_ignored Z unit _ _ self x_1_2_2 x_1_2_2 cond_1_2_2
           text_1_1 text_1_1' (TimeScalar 5) None); reflexivity.
Defined.

(** ** The transformer block and the block loop *)

(** X7. A freshly built block, whose attention and feed-forward
    collaborators keep shapes, maps a well-formed (b, n, d) state and a
    (b, d) conditioning vector to a well-formed (b, n, d) state: none of
    its broadcasts, the projection or the six-way split raises, whatever
    the weights, the mask and the rotary table are. *)
Theorem DiTBlock_keeps_shape (F Rope : Type) (SF : Scalar F) (MD : Modules F Rope)
  (dim : nat) (heads : Z) (dim_head ff_mult : nat) (dropout : Q)
  (blk : DiTBlock.t F Rope) (x : array3 F) (t : array2 F)
  (mask : option (array2 bool)) (rope : Rope) (b n : nat) :
  collaborators_preserve MD ->
  DiTBlock.init dim heads dim_head ff_mult dropout = Ok blk ->
  shape3 x = (b, n, dim) -> wf3 x -> shape2 t = (b, dim) -> wf2 t ->
  exists y, DiTBlock.call blk x t mask rope = Ok y /\ shape3 y = (b, n, dim) /\ wf3 y.
Proof.
  intros HMD Hinit Hx Hwx Ht Hwt.
  assert (Hblk : shaped_block b n dim blk)
    by (eapply DiTBlock_init_shaped; [exact HMD | exact Hinit]).
  exact (shaped_block_call mask rope Hblk Hx Hwx Ht Hwt).
Qed.

Lemma DiTBlock_keeps_shape_witness :
  exists (blk : DiTBlock.t Z unit) (y : array3 Z),
    DiTBlock.init 2 1 2 1 0%Q = Ok blk /\
    DiTBlock.call blk x_1_2_2 t_1_2 None tt = Ok y /\
    shape3 y = (1, 2, 2)%nat /\ wf3 y.
Proof.
  destruct (DiTBlock.init (F := Z) (Rope := unit) 2 1 2 1 0%Q) as [blk|e] eqn:E;
    [|vm_compute in E; discriminate E].
  destruct (@DiTBlock_keeps_shape Z unit _ _ 2 1 2 1 0%Q blk x_1_2_2 t_1_2 None tt 1 2
              pointwise_preserve E) as (y & Hy).
  - reflexivity.
  - split; [reflexivity|]. repeat constructor.
  - reflexivity.
  - split; [reflexivity|]. repeat constructor.
  - exists blk, y. split; [reflexivity | exact Hy].
Defined.

(** ** AdaLN-Zero, final variant *)



(** ** Construction of the backbone *)

(** X9. [DiT.__init__] has no check of its own.  With positive [dim] and
    text width, and the collaborator constructors it calls accepting their
    arguments (those of a block are called only when [depth > 0]), it
    returns a backbone with exactly [max(depth, 0)] transformer blocks; it
    stores [dim] and [depth] as given, an output projection from width
    [dim] to width [mel_dim], and a text encoder with extra modeling
    exactly when [conv_layers > 0]. *)
Theorem DiT_init_builds_depth_blocks (F Rope : Type) (SF : Scalar F) (MD : Modules F Rope)
  (kw : DiT.kwargs) :
  positive_widths kw ->
  embedders_accept MD kw ->
  (0 < DiT.depth kw -> block_accepts MD kw) ->
  exists self : DiT.t F Rope,
    DiT.init kw = Ok self /\
    length (DiT.transformer_blocks self) = Z.to_nat (DiT.depth kw) /\
    DiT.self_dim self = DiT.dim kw /\
    DiT.self_depth self = DiT.depth kw /\
    shape2 (weight (DiT.proj_out self)) = (DiT.mel_dim kw, DiT.dim kw) /\
    TextEmbedding.extra_modeling (DiT.text_embed self) = (0 <? DiT.conv_layers kw).
Proof.
  intros Hpos Hacc Hblock.
  pose proof (DiT_init_ok Hpos Hacc Hblock) as Hok.
  destruct (DiT.init kw) as [self|e] eqn:E; [|discriminate Hok].
  exists self. split; [reflexivity|].
  pose proof (DiT_init_inv _ E)
    as (te & tx & ie & re & blocks & _ & Htx & _ & _ & Hb & _ & ->).
  simpl. split.
  - rewrite (comprehension_length _ _ Hb). unfold range. apply length_seq.
  - repeat split. now apply TextEmbedding_init_inv in Htx as (_ & _ & ->).
Qed.

Lemma DiT_init_builds_depth_blocks_witness :
  exists self : DiT.t Z unit,
    DiT.init (MD := strict_modules) (with_depth_heads small 3 1) = Ok self /\
    length (DiT.transformer_blocks self) = 3%nat /\
    DiT.self_dim self = 16%nat /\
    DiT.self_depth self = 3 /\
    shape2 (weight (DiT.proj_out self)) = (2, 16)%nat /\
    TextEmbedding.extra_modeling (DiT.text_embed self) = false.
Proof.
  apply (@DiT_init_builds_depth_blocks Z unit _ strict_modules (with_depth_heads small 3 1)).
  - split; apply Nat.lt_0_succ.
  - repeat split; try reflexivity.
  - intros _. split; reflexivity.
Defined.

(** X10. [heads] reaches the attention collaborator unchanged: when
    [depth > 0], the widths are positive, the collaborators built before
    the blocks are constructed, and the [Attention] constructor raises on
    the arguments [(dim, heads, dim_head, dropout)], [DiT.__init__] raises
    that same exception. *)
Theorem DiT_init_propagates_Attention_error (F Rope : Type) (SF : Scalar F)
  (MD : Modules F Rope) (kw : DiT.kwargs) (e : exn) :
  0 < DiT.depth kw ->
  positive_widths kw ->
  embedders_accept MD kw ->
  Attention (F := F) (Rope := Rope)
    (DiT.dim kw) (DiT.heads kw) (DiT.dim_head kw) (DiT.dropout kw) = Raise e ->
  DiT.init (F := F) (Rope := Rope) kw = Raise e.
Proof.
  intros Hdepth [Hdim Htext] (Htime & Hconv & Hpos & Hrot) Hattn. unfold DiT.init.
  destruct (TimestepEmbedding (DiT.dim kw)) as [te|]; [|discriminate Htime]. cbn [bind].
  assert (Htx : is_ok (TextEmbedding.init (F := F) (Rope := Rope) (DiT.text_num_embeds kw)
                         (text_width kw) (DiT.conv_layers kw) 2) = true)
    by (apply TextEmbedding_init_ok; assumption).
  assert (Hie : is_ok (InputEmbedding.init (F := F) (Rope := Rope) (DiT.mel_dim kw)
                         (text_width kw) (DiT.dim kw)) = true)
    by (apply InputEmbedding_init_ok; [lia | assumption]).
  unfold text_width in Htx, Hie.
  destruct (TextEmbedding.init _ _ _ _) as [tx|]; [|discriminate Htx]. cbn [bind].
  destruct (InputEmbedding.init _ _ _) as [ie|]; [|discriminate Hie]. cbn [bind].
  destruct (RotaryEmbedding (DiT.dim_head kw)) as [re|]; [|discriminate Hrot]. cbn [bind].
  unfold range. destruct (Z.to_nat (DiT.depth kw)) as [|k] eqn:Hk; [lia|].
  cbn [seq comprehension]. unfold DiTBlock.init at 1.
  rewrite (AdaLayerNormZero_init_positive (F := F) Hdim). cbn [bind].
  rewrite Hattn. reflexivity.
Qed.

Lemma DiT_init_propagates_Attention_error_witness :
  DiT.init (F := Z) (Rope := unit) (MD := strict_modules)
    (with_depth_heads (DiT.defaults 16) 1 0)
  = Raise ExternalError.
Proof.
  apply (@DiT_init_propagates_Attention_error Z unit _ strict_modules
           (with_depth_heads (DiT.defaults 16) 1 0) ExternalError).
  - simpl. lia.
  - split; apply Nat.lt_0_succ.
  - repeat split; try reflexivity.
  - reflexivity.
Defined.

(** X14. A zero text width is refused by the embedding table, not by a
    check of [DiT.__init__]: when [TimestepEmbedding(dim)] is constructed
    and the text width ([text_dim], or [mel_dim] when it is unset) is 0,
    construction raises ZeroDivisionError, from the initialiser of
    [nn.Embedding]. *)
Theorem DiT_init_zero_text_width_raises (F Rope : Type) (SF : Scalar F)
  (MD : Modules F Rope) (kw : DiT.kwargs) :
  text_width kw = 0%nat ->
  is_ok (TimestepEmbedding (F := F) (Rope := Rope) (DiT.dim kw)) = true ->
  DiT.init (F := F) (Rope := Rope) kw = Raise ZeroDivisionError.
Proof.
  intros Hw Htime. unfold DiT.init. unfold text_width in Hw.
  destruct (TimestepEmbedding (DiT.dim kw)) as [te|]; [|discriminate Htime]. cbn [bind].
  rewrite Hw. reflexivity.
Qed.

Lemma DiT_init_zero_text_width_raises_witness :
  DiT.init (F := Z) (Rope := unit) (MD := strict_modules)
    (with_text_dim (DiT.defaults 16) (Some 0%nat))
  = Raise ZeroDivisionError.
Proof.
  apply (@DiT_init_zero_text_width_raises Z unit _ strict_modules
           (with_text_dim (DiT.defaults 16) (Some 0%nat))); reflexivity.
Defined.

(** ** The backbone *)


(** X11. A freshly built backbone, whose collaborators keep shapes, on
    noised audio and conditioning audio of shape (b, n, mel_dim), a
    well-formed (b, nt) text and a timestep that suits the batch: the call
    returns a well-formed tensor of shape (b, n, mel_dim) when [nt <= n],
    for every setting of the drop flags, the mask, the depth and the long
    skip, and raises when [nt > n]. *)
Theorem DiT_call_ok_iff (F Rope : Type) (SF : Scalar F) (MD : Modules F Rope)
  (kw : DiT.kwargs) (self : DiT.t F Rope) (x cond : array3 F) (text : array2 Z)
  (time : time_arg F) (drop_audio_cond drop_text : bool) (mask : option (array2 bool))
  (b n nt : nat) :
  collaborators_preserve MD ->
  DiT.init kw = Ok self ->
  shape3 x = (b, n, DiT.mel_dim kw) -> wf3 x ->
  shape3 cond = (b, n, DiT.mel_dim kw) -> wf3 cond ->
  shape2 text = (b, nt) -> wf2 text ->
  time_fits b time ->
  ((nt <= n)%nat ->
     exists out, DiT.call self x cond text time drop_audio_cond drop_text mask = Ok out /\
                 shape3 out = (b, n, DiT.mel_dim kw) /\ wf3 out) /\
  ((n < nt)%nat ->
     DiT.call self x cond text time drop_audio_cond drop_text mask = Raise PadNegative).
Proof.
  intros HMD Hinit Hx Hwx Hc Hwc Ht Hwt Htime. split.
  - intros Hle. eapply DiT_call_shape; eassumption.
  - intros Hlt. apply DiT_call_longer. unfold dim1_3, dim1_2. rewrite Hx, Ht. exact Hlt.
Qed.

Lemma DiT_call_ok_iff_witness :
  exists self : DiT.t Z unit,
    DiT.init tiny = Ok self /\
    (exists out, DiT.call self x_1_2_2 cond_1_2_2 text_1_1 (TimeVector [5]) true false None
                   = Ok out /\ shape3 out = (1, 2, 2)%nat /\ wf3 out) /\
    DiT.call self x_1_2_2 cond_1_2_2 text_1_3 (TimeVector [5]) true false None
      = Raise PadNegative.
Proof.
  destruct (DiT.init (F := Z) (Rope := unit) tiny) as [self|e] eqn:E;
    [|vm_compute in E; discriminate E].
  exists self. split; [reflexivity|].
  assert (Hx : wf3 x_1_2_2) by (split; [reflexivity|]; repeat constructor).
  assert (Hc : wf3 cond_1_2_2) by (split; [reflexivity|]; repeat constructor).
  split.
  - refine (proj1 (@DiT_call_ok_iff Z unit _ _ tiny self x_1_2_2 cond_1_2_2 text_1_1
                     (TimeVector [5]) true false None 1 2 1
                     pointwise_preserve E eq_refl Hx eq_refl Hc eq_refl _ eq_refl) _).
    + split; [reflexivity|]. repeat constructor.
    + lia.
  - refine (proj2 (@DiT_call_ok_iff Z unit _ _ tiny self x_1_2_2 cond_1_2_2 text_1_3
                     (TimeVector [5]) true false None 1 2 3
                     pointwise_preserve E eq_refl Hx eq_refl Hc eq_refl _ eq_refl) _).
    + split; [reflexivity|]. repeat constructor.
    + lia.
Defined.

Section ZeroInitOutput.
Variables F Rope : Type.
Context {SF : Scalar F} {EA : ExactArith F} {MD : Modules F Rope}.
Hypothesis HMD : collaborators_preserve MD.

(** The backbone with zeroed modulation: the fused state passes the blocks
    unchanged and is normalised, never modulated, before the output
    projection. *)
Lemma zero_init_output (kw : DiT.kwargs) (self : DiT.t F Rope)
  x cond text time drop_audio_cond drop_text mask b n nt :
  DiT.init kw = Ok self ->
  shape3 x = (b, n, DiT.mel_dim kw) -> wf3 x ->
  shape3 cond = (b, n, DiT.mel_dim kw) -> wf3 cond ->
  shape2 text = (b, nt) -> wf2 text -> (nt <= n)%nat ->
  time_fits b time ->
  DiT.call (zero_modulation self) x cond text time drop_audio_cond drop_text mask =
  let* x0 := fuse self x cond text drop_audio_cond drop_text in
  let* y := match DiT.self_long_skip_connection self with
            | Some long_skip => let* c := concatenate2 x0 x0 in Linear_call3 long_skip c
            | None => Ok x0
            end in
  Linear_call3 (DiT.proj_out self)
    (LayerNorm_call (AdaLayerNormZero_Final.norm (DiT.norm_out self)) y).
Proof.
  intros Hinit Hx Hwx Hc Hwc Ht Hwt Hle Htime.
  assert (Hb : dim0_3 x = b) by (unfold dim0_3; now rewrite Hx).
  destruct (@init_zero_modulation F Rope SF MD kw self b n HMD Hinit) as [Hblocks Hfin].
  destruct (@conditioning_shape F Rope SF MD HMD kw self b time Hinit Htime) as [Hst Hwst].
  destruct (@fuse_shape F Rope SF MD HMD kw self x cond text drop_audio_cond drop_text
              b n nt Hinit Hx Hwx Hc Hwc Ht Hwt Hle) as (x0 & Hfuse & Hx0 & Hwx0).
  rewrite DiT_call_stages. cbv zeta.
  change (fuse (zero_modulation self) x cond text drop_audio_cond drop_text)
    with (fuse self x cond text drop_audio_cond drop_text).
  change (conditioning (zero_modulation self) (dim0_3 x) time)
    with (conditioning self (dim0_3 x) time).
  rewrite Hb, Hfuse. cbn [bind].
  rewrite (zero_blocks_identity mask _ Hblocks Hx0 Hwx0 Hst Hwst). cbn [bind].
  change (DiT.self_long_skip_connection (zero_modulation self))
    with (DiT.self_long_skip_connection self).
  assert (Hfinish : forall y, shape3 y = (b, n, DiT.dim kw) -> wf3 y ->
            finish (zero_modulation self) y (conditioning self b time) =
            Linear_call3 (DiT.proj_out self)
              (LayerNorm_call (AdaLayerNormZero_Final.norm (DiT.norm_out self)) y)).
  { intros y Hy Hwy. unfold finish.
    rewrite (zero_final_norm Hfin Hy Hwy Hst Hwst). reflexivity. }
  pose proof (DiT_init_inv _ Hinit) as
    (te & tx & ie & re & blocks & _ & _ & _ & _ & _ & _ & Hself).
  assert (Hls : DiT.self_long_skip_connection self =
                if DiT.long_skip_connection kw
                then Some (fresh_Linear (DiT.dim kw * 2) (DiT.dim kw) false) else None)
    by (rewrite Hself; reflexivity).
  rewrite Hls. destruct (DiT.long_skip_connection kw); [|now apply Hfinish].
  destruct (concatenate2_wf Hx0 Hwx0 Hx0 Hwx0) as (c & -> & Hcc & Hwcc). cbn [bind].
  replace (DiT.dim kw + DiT.dim kw)%nat with (DiT.dim kw * 2)%nat in Hcc by lia.
  destruct (Linear_call3_shape (fresh_Linear_wf (F := F) (DiT.dim kw * 2) (DiT.dim kw) false)
              Hcc Hwcc) as (y & -> & Hy & Hwy). cbn [bind].
  now apply Hfinish.
Qed.

End ZeroInitOutput.

(** X12. With every modulation projection zeroed, a freshly built
    backbone is blind to the timestep and to the mask: for exact
    arithmetic, shape-keeping collaborators, well-shaped inputs and a text
    no longer than the audio, its result is the output projection of the
    normalised fused input (after the long skip, when configured), the
    same for any two timesteps that suit the batch and any two masks. *)
Theorem zero_init_output_ignores_time (F Rope : Type) (SF : Scalar F) (EA : ExactArith F)
  (MD : Modules F Rope) (kw : DiT.kwargs) (self : DiT.t F Rope) (x cond : array3 F)
  (text : array2 Z) (time time' : time_arg F) (drop_audio_cond drop_text : bool)
  (mask mask' : option (array2 bool)) (b n nt : nat) :
  collaborators_preserve MD ->
  DiT.init kw = Ok self ->
  shape3 x = (b, n, DiT.mel_dim kw) -> wf3 x ->
  shape3 cond = (b, n, DiT.mel_dim kw) -> wf3 cond ->
  shape2 text = (b, nt) -> wf2 text -> (nt <= n)%nat ->
  time_fits b time -> time_fits b time' ->
  DiT.call (zero_modulation self) x cond text time drop_audio_cond drop_text mask =
    (let* x0 := fuse self x cond text drop_audio_cond drop_text in
     let* y := match DiT.self_long_skip_connection self with
               | Some long_skip => let* c := concatenate2 x0 x0 in Linear_call3 long_skip c
               | None => Ok x0
               end in
     Linear_call3 (DiT.proj_out self)
       (LayerNorm_call (AdaLayerNormZero_Final.norm (DiT.norm_out self)) y)) /\
  DiT.call (zero_modulation self) x cond text time drop_audio_cond drop_text mask =
  DiT.call (zero_modulation self) x cond text time' drop_audio_cond drop_text mask'.
Proof.
  intros HMD Hinit Hx Hwx Hc Hwc Ht Hwt Hle Htime Htime'.
  pose proof (@zero_init_output F Rope SF EA MD HMD kw self x cond text time
                drop_audio_cond drop_text mask b n nt
                Hinit Hx Hwx Hc Hwc Ht Hwt Hle Htime) as H1.
  pose proof (@zero_init_output F Rope SF EA MD HMD kw self x cond text time'
                drop_audio_cond drop_text mask' b n nt
                Hinit Hx Hwx Hc Hwc Ht Hwt Hle Htime') as H2.
  split; [exact H1|]. now rewrite H1, H2.
Qed.

Lemma zero_init_output_ignores_time_witness :
  exists self : DiT.t Z unit,
    DiT.init tiny = Ok self /\
    DiT.call (zero_modulation self) x_1_2_2 cond_1_2_2 text_1_1 (TimeScalar 5) false false None =
    DiT.call (zero_modulation self) x_1_2_2 cond_1_2_2 text_1_1 (TimeVector [9]) false false
      (Some {| shape2 := (1, 2)%nat; data2 := [[true; false]] |}).
Proof.
  destruct (DiT.init (F := Z) (Rope := unit) tiny) as [self|e] eqn:E;
    [|vm_compute in E; discriminate E].
  exists self. split; [reflexivity|].
  refine (proj2 (@zero_init_output_ignores_time Z unit _ integer_exact _ tiny self
                   x_1_2_2 cond_1_2_2 text_1_1 (TimeScalar 5) (TimeVector [9]) false false
                   None (Some {| shape2 := (1, 2)%nat; data2 := [[true; false]] |}) 1 2 1
                   pointwise_preserve E eq_refl _ eq_refl _ eq_refl _ _ I eq_refl)).
  - split; [reflexivity|]. repeat constructor.
  - split; [reflexivity|]. repeat constructor.
  - split; [reflexivity|]. repeat constructor.
  - lia.
Defined.
